(** * Synthetic disaster-demand datasets and their uncertainty sets

    A shallow embedding of the four scripts of the repository

    - [dataset.py]                       (module [Discrete]),
    - [continuous_dataset.py]            (module [Continuous]),
    - [hospital_continuous_dataset.py]   (module [Hybrid]),
    - [uncertainty_sets.py]              (module [UncertaintySets]),

    together with the properties the specification states about them.

    Numbers.  The scripts compute with IEEE doubles; here a double is an
    exact rational ([Q]), so every statement below is about the exact
    arithmetic the scripts approximate, and "equal within floating-point
    tolerance" reads as [==] on [Q].  Where the scripts can produce a
    NaN (statistics of a too small sample) the value is an [option Q]
    with [None] for NaN.  Division is [Qdiv]; the theorems that go
    through a division also establish that its divisor is not zero.

    Exact arithmetic and the doubles part ways at the far ends: a double
    holds an integer only up to [2^53], an [np.int64] difference wraps
    around at [2^63], and a weight of [1e-20] beside one of [1.0] is
    lost in their sum.  The min-max loop of [uncertainty_sets.py] is
    therefore given a second time on numpy's scalars
    ([minmax_box_numpy]), a statement about a frame read from a CSV
    names the frames it is about ([exact_frame], [numpy_frame]), and a
    statement about probabilities is about the draws [sample_scenarios]
    makes, whose weights are far from these ends.

    Library functions.  [numpy]'s pseudo-random generator, [log1p] and
    the square root are not code of the repository: they are the fields
    of the classes [Generator] and [NumpyMath], with the properties of
    theirs that the scripts rely on. *)

From stdpp Require Import base list strings option gmap.
From Stdlib Require Qcanon.
From Stdlib Require Import QArith Qround Qminmax Qabs Qpower Lqa Ascii DecimalString DecimalNat.

Local Open Scope Q_scope.

(** ** Exceptions *)

Inductive exception : Type :=
| ValueError (msg : string)
| IndexError
| KeyError (key : string).

Inductive result (A : Type) : Type :=
| Ok (a : A)
| Raise (e : exception).
Arguments Ok {A} a.
Arguments Raise {A} e.

Global Instance result_ret : MRet result := fun A a => Ok a.
Global Instance result_bind : MBind result := fun A B f m =>
  match m with
  | Ok a => f a
  | Raise e => Raise e
  end.

(** [l[i]] on a Python list or a one-dimensional array. *)
Definition getitem {A} (l : list A) (i : nat) : result A :=
  match l !! i with
  | Some x => Ok x
  | None => Raise IndexError
  end.

(** ** numpy on rationals *)

(** [np.round] to an integer: round half to even. *)
Definition rint (x : Q) : Z :=
  let f := Qfloor x in
  let r := x - inject_Z f in
  if Qle_bool r (1 # 2)
  then if Qle_bool (1 # 2) r
       then (if Z.even f then f else f + 1)%Z
       else f
  else (f + 1)%Z.

(** [np.round(x, decimals)], on the exact value: numpy rounds the
    double [x * 10^decimals], which at a tie of the decimals can be the
    neighbour of the value rounded here. *)
Definition np_round (x : Q) (decimals : nat) : Q :=
  let scale := inject_Z (10 ^ Z.of_nat decimals) in
  inject_Z (rint (x * scale)) / scale.

(** [np.clip(a, a_min, None)], element by element. *)
Definition np_clip_min (a : list Q) (a_min : Q) : list Q :=
  (fun x => Qmax x a_min) <$> a.

(** [np.maximum(a, b)], element by element. *)
Definition np_maximum (a b : list Q) : list Q := zip_with Qmax a b.

(** [a + b] on arrays of one shape; [a * c] and [a / c] by a scalar. *)
Definition np_add (a b : list Q) : list Q := zip_with Qplus a b.
Definition np_scale (a : list Q) (c : Q) : list Q := (fun x => x * c) <$> a.
Definition np_div (a : list Q) (c : Q) : list Q := (fun x => x / c) <$> a.

Definition np_sum (a : list Q) : Q := foldr Qplus 0 a.

Definition np_zeros (n : nat) : list Q := replicate n 0.

(** ** Doubles that may be NaN *)

Definition float : Type := option Q.
Definition NaN : float := None.
Definition finite (q : Q) : float := Some q.

Definition float_lift2 (op : Q -> Q -> Q) (a b : float) : float :=
  match a, b with
  | Some x, Some y => Some (op x y)
  | _, _ => NaN
  end.

Declare Scope float_scope.
Delimit Scope float_scope with float.
Bind Scope float_scope with float.
Infix "+" := (float_lift2 Qplus) : float_scope.
Infix "-" := (float_lift2 Qminus) : float_scope.
Infix "*" := (float_lift2 Qmult) : float_scope.
Infix "/" := (float_lift2 Qdiv) : float_scope.

(** Python's built-in [max(a, b)]: [b] when [b > a] holds, else [a]; a
    comparison with NaN does not hold. *)
Definition py_max (a b : float) : float :=
  match a, b with
  | Some x, Some y => if Qle_bool y x then a else b
  | _, _ => a
  end.

(** [int(np.floor(x))] and [int(np.ceil(x))]: [int] rejects NaN. *)
Definition int_floor (x : float) : result Z :=
  match x with
  | Some q => Ok (Qfloor q)
  | None => Raise (ValueError "cannot convert float NaN to integer")
  end.

Definition int_ceil (x : float) : result Z :=
  match x with
  | Some q => Ok (Qceiling q)
  | None => Raise (ValueError "cannot convert float NaN to integer")
  end.

(** ** Library functions the scripts call *)

Class NumpyMath : Type := {
  np_sqrt : Q -> Q;
  np_log1p : Q -> Q;
  np_sqrt_nonneg : forall x, 0 <= np_sqrt x;
  np_log1p_nonneg : forall x, 0 <= x -> 0 <= np_log1p x
}.

(** [numpy.random.Generator]: the four draws the scripts make, each
    from the state of the generator to a value and the next state.  The
    properties are numpy's: [choice(a, p)] returns an index below [a], a
    lognormal variate is not negative, and a draw has the shape asked
    for. *)
Class Generator : Type := {
  rng_state : Type;
  rng_choice : nat -> list Q -> rng_state -> nat * rng_state;
  rng_lognormal : Q -> Q -> rng_state -> Q * rng_state;
  rng_multivariate_normal : list Q -> list (list Q) -> rng_state -> list Q * rng_state;
  rng_normal : Q -> Q -> nat -> rng_state -> list Q * rng_state;
  rng_choice_lt : forall a p s, (0 < a)%nat -> (fst (rng_choice a p s) < a)%nat;
  rng_lognormal_nonneg : forall mean sigma s, 0 <= fst (rng_lognormal mean sigma s);
  rng_multivariate_normal_length :
    forall mean cov s, length (fst (rng_multivariate_normal mean cov s)) = length mean;
  rng_normal_length :
    forall loc scale size s, length (fst (rng_normal loc scale size s)) = size
}.

(** Code that draws from the module-level [RNG] and may raise: the state
    of the generator is threaded through the calls in program order. *)
Definition sampler `{Generator} (A : Type) : Type :=
  rng_state -> result (A * rng_state).

Global Instance sampler_ret `{Generator} : MRet sampler :=
  fun A a s => Ok (a, s).
Global Instance sampler_bind `{Generator} : MBind sampler :=
  fun A B f m s =>
    match m s with
    | Ok (a, s') => f a s'
    | Raise e => Raise e
    end.

Definition raise `{Generator} {A} (e : exception) : sampler A :=
  fun _ => Raise e.
Definition lift_result `{Generator} {A} (r : result A) : sampler A :=
  fun s => match r with Ok a => Ok (a, s) | Raise e => Raise e end.
Definition draw `{Generator} {A} (f : rng_state -> A * rng_state) : sampler A :=
  fun s => Ok (f s).

(** ** Python helpers *)

(** [enumerate(l)] and [range(n)]. *)
Definition enumerate {A} (l : list A) : list (nat * A) := imap pair l.
Definition range (n : Z) : list nat := seq 0 (Z.to_nat n).

(** [d[key]] on a dict, kept as the list of its items in insertion order. *)
Fixpoint dict_getitem {V} (d : list (string * V)) (key : string) : result V :=
  match d with
  | [] => Raise (KeyError key)
  | (k, v) :: d' => if String.eqb k key then Ok v else dict_getitem d' key
  end.

(** [f"{n:0{width}d}"] for [n >= 0]: the decimal digits of [n], padded on
    the left with zeros to at least [width] characters. *)
Definition zero_pad (width : nat) (digits : string) : string :=
  String.string_of_list_ascii
    (replicate (width - String.length digits) "0"%char
     ++ String.list_ascii_of_string digits).
Definition format_0d (width : nat) (n : nat) : string :=
  zero_pad width (NilZero.string_of_uint (Nat.to_uint n)).

(** Reading a formatted number back; the scripts do not, the proofs that
    two formatted numbers differ do. *)
Definition parse_nat (s : string) : option nat :=
  Nat.of_uint <$> NilEmpty.uint_of_string s.

(** ** Scenario probabilities of a dataset *)

(** [df[["scenario_id", "scenario_probability"]].drop_duplicates()]: the
    first occurrence of every (id, probability) pair, in order. *)
Definition scenario_prob_eqb (a b : string * Q) : bool :=
  String.eqb (fst a) (fst b) && Qeq_bool (snd a) (snd b).

Fixpoint drop_duplicates_from (seen l : list (string * Q)) : list (string * Q) :=
  match l with
  | [] => []
  | x :: l' =>
      if existsb (scenario_prob_eqb x) seen
      then drop_duplicates_from seen l'
      else x :: drop_duplicates_from (x :: seen) l'
  end.
Definition drop_duplicates : list (string * Q) -> list (string * Q) :=
  drop_duplicates_from [].

(** [float(scenario_probs["scenario_probability"].sum())] *)
Definition probability_sum (scenario_probs : list (string * Q)) : Q :=
  np_sum (snd <$> drop_duplicates scenario_probs).

(** ** The discrete dataset builder, [dataset.py] *)

Module Discrete.

Definition hospitals : list (string * (string * Z * Q)) :=
  [("H1", ("Central Hospital", 250%Z, 2.0));
   ("H2", ("North Clinic", 180%Z, 2.2));
   ("H3", ("South Medical Center", 150%Z, 1.8))]%string.

Definition shortage_penalty : Q := 8.0.

Definition scenarios : list (string * (string * list Z * Q)) :=
  [("S0", ("no_disaster", [6; 5; 4]%Z, 0.65));
   ("S1", ("mild_flood", [60; 45; 35]%Z, 0.05));
   ("S2", ("moderate_flood", [85; 65; 45]%Z, 0.04));
   ("S3", ("earthquake", [110; 85; 65]%Z, 0.05));
   ("S4", ("heatwave", [70; 55; 45]%Z, 0.1));
   ("S5", ("severe_storm", [95; 75; 55]%Z, 0.05));
   ("S6", ("major_earthquake", [150; 110; 90]%Z, 0.04));
   ("S7", ("multi_wave_pandemic", [200; 140; 120]%Z, 0.02))]%string.

Record row : Type := {
  scenario_id : string;
  scenario_probability : Q;
  disaster_type : string;
  hospital_id : string;
  hospital_name : string;
  capacity_beds : Z;
  demand : Z;
  allocation_cost_per_unit : Q;
  shortage_penalty_per_unit : Q
}.

(** The rows appended by the two nested loops, in order. *)
Definition rows : result (list row) :=
  per_scenario ←
    mapM (fun '(sid, (dtype, demands, probability)) =>
      mapM (fun '(i, hid) =>
        '(hname, capacity, alloc_cost) ← dict_getitem hospitals hid;
        demand ← getitem demands i;
        mret {| scenario_id := sid;
                scenario_probability := probability;
                disaster_type := dtype;
                hospital_id := hid;
                hospital_name := hname;
                capacity_beds := capacity;
                demand := demand;
                allocation_cost_per_unit := alloc_cost;
                shortage_penalty_per_unit := shortage_penalty |})
        (enumerate ["H1"; "H2"; "H3"]%string))
      scenarios;
  mret (concat per_scenario).

Definition scenario_probs (df : list row) : list (string * Q) :=
  (fun r => (scenario_id r, scenario_probability r)) <$> df.

(** Names for the statements below: the frame the script writes, and the
    columns of its two tables. *)
Definition frame : list row :=
  Eval vm_compute in match rows with Ok df => df | Raise _ => [] end.

Definition scenario_ids : list string := fst <$> scenarios.
Definition hospital_ids : list string := fst <$> hospitals.
Definition probabilities : list Q := (fun scenario => snd (snd scenario)) <$> scenarios.

End Discrete.

(** ** The continuous correlated sampler, [continuous_dataset.py] *)

Module Continuous.

Definition NUM_SCENARIOS : Z := 1000.
Definition INCLUDE_BASELINE_SCENARIO : bool := true.
Definition BASELINE_WEIGHT : Q := 1.0.
Definition BASELINE_PROBABILITY_SHARE : option Q := Some 0.35.
Definition BASELINE_DEMAND_SCALE : Q := 0.35.
Definition BASELINE_MIN_DEMAND : list Q := [6.0; 4.5; 3.5].

Record hospital_info : Type := {
  name : string;
  capacity : Z;
  alloc_cost : Q
}.

Definition hospitals : list (string * hospital_info) :=
  [("H1", {| name := "Central Hospital"; capacity := 250; alloc_cost := 2.0 |});
   ("H2", {| name := "North Clinic"; capacity := 180; alloc_cost := 2.2 |});
   ("H3", {| name := "South Medical Center"; capacity := 150; alloc_cost := 1.8 |})]%string.

Definition baseline_demand : list Q := [20.0; 15.0; 12.0].
Definition severity_sensitivity : list Q := [1.00; 0.85; 0.70].

Definition BASE_COV : list (list Q) :=
  [[60.0; 38.0; 32.0];
   [38.0; 55.0; 29.0];
   [32.0; 29.0; 45.0]].

Record hazard : Type := {
  hazard_type : string;
  weight : Q;
  lognorm_mu : Q;
  lognorm_sigma : Q;
  region_scale : Q;
  idio_sigma : Q
}.

Definition _hazard_catalog : list hazard :=
  [{| hazard_type := "seasonal_flu"; weight := 0.45; lognorm_mu := 2.1;
      lognorm_sigma := 0.25; region_scale := 0.8; idio_sigma := 6.0 |};
   {| hazard_type := "coastal_storm"; weight := 0.25; lognorm_mu := 2.5;
      lognorm_sigma := 0.28; region_scale := 1.0; idio_sigma := 7.5 |};
   {| hazard_type := "earthquake"; weight := 0.15; lognorm_mu := 2.9;
      lognorm_sigma := 0.35; region_scale := 1.3; idio_sigma := 9.0 |};
   {| hazard_type := "pandemic_wave"; weight := 0.15; lognorm_mu := 3.2;
      lognorm_sigma := 0.32; region_scale := 1.5; idio_sigma := 11.0 |}]%string.

Record ScenarioDraw : Type := {
  scenario_id : string;
  draw_hazard_type : string;
  severity_score : Q;
  global_severity : Q;
  regional_component : list Q;
  idiosyncratic_component : list Q;
  raw_probability_weight : Q;
  demand_vector : list Q
}.

Definition _build_baseline_draw : ScenarioDraw :=
  let zero_component := np_zeros (length hospitals) in
  let calm_demand :=
    np_maximum (np_scale baseline_demand BASELINE_DEMAND_SCALE) BASELINE_MIN_DEMAND in
  {| scenario_id := "CSBASE";
     draw_hazard_type := "no_event";
     severity_score := 0.0;
     global_severity := 0.0;
     regional_component := zero_component;
     idiosyncratic_component := zero_component;
     raw_probability_weight := BASELINE_WEIGHT;
     demand_vector := calm_demand |}.

Record row : Type := {
  row_scenario_id : string;
  scenario_probability : Q;
  disaster_type : string;
  row_severity_score : Q;
  hospital_id : string;
  hospital_name : string;
  capacity_beds : Z;
  allocation_cost_per_unit : Q;
  row_global_severity : Q;
  row_regional_component : Q;
  row_idiosyncratic_component : Q;
  demand : Q;
  shortage_penalty_per_unit : Q
}.

Section Sampler.
Context `{NumpyMath} `{Generator}.

(** The body of the sampling loop, for one [idx]. *)
Definition sample_draw (hazards : list hazard) (hazard_probs : list Q) (idx : nat)
  : sampler ScenarioDraw :=
  hazard_idx ← draw (rng_choice (length hazards) hazard_probs);
  hazard ← lift_result (getitem hazards hazard_idx);
  let hazard_type := hazard_type hazard in
  global_severity ← draw (rng_lognormal (lognorm_mu hazard) (lognorm_sigma hazard));
  let severity_score := np_log1p global_severity in
  regional ← draw (rng_multivariate_normal
                     (np_zeros (length hospitals))
                     ((fun r => np_scale r (region_scale hazard)) <$> BASE_COV));
  idiosyncratic ← draw (rng_normal 0.0 (idio_sigma hazard) (length hospitals));
  let demand :=
    np_add (np_add (np_add baseline_demand (np_scale severity_sensitivity global_severity))
                   regional)
           idiosyncratic in
  let demand := np_clip_min demand 0 in
  let probability_weight := weight hazard * (severity_score + 1e-6) in
  mret {| scenario_id := "CS" +:+ format_0d 4 idx;
          draw_hazard_type := hazard_type;
          severity_score := severity_score;
          global_severity := global_severity;
          regional_component := regional;
          idiosyncratic_component := idiosyncratic;
          raw_probability_weight := probability_weight;
          demand_vector := demand |}.

Definition sample_scenarios (num_scenarios : Z) (include_baseline : bool)
  : sampler (list ScenarioDraw) :=
  let hazards := _hazard_catalog in
  let hazard_probs :=
    np_div (weight <$> hazards) (np_sum (weight <$> hazards)) in
  let num_random_draws := (num_scenarios - (if include_baseline then 1 else 0))%Z in
  if (num_random_draws <? 0)%Z
  then raise (ValueError "num_scenarios must be >= 1 when include_baseline is True")
  else
    let draws := if include_baseline then [_build_baseline_draw] else [] in
    sampled ← mapM (sample_draw hazards hazard_probs) (range num_random_draws);
    mret (draws ++ sampled).

End Sampler.

(** Lines 168 to 184 of [build_dataframe]: the probability of every
    draw.  The two module constants the function reads are arguments
    here; [build_dataframe] below passes the values of the source.  The
    arithmetic is exact: for weights that sum to zero, or that differ by
    more than the precision of a double, the doubles of the script are
    not these rationals. *)
Definition scenario_probabilities
    (include_baseline_scenario : bool) (baseline_probability_share : option Q)
    (draws : list ScenarioDraw) : result (list Q) :=
  let weights := raw_probability_weight <$> draws in
  let probabilities := np_div weights (np_sum weights) in
  match include_baseline_scenario, baseline_probability_share with
  | true, Some configured_share =>
      let baseline_indices :=
        fst <$> filter (fun '(idx, d) => scenario_id d = "CSBASE"%string) (enumerate draws) in
      match baseline_indices with
      | baseline_idx :: _ =>
          let share := Qmin (Qmax configured_share 0.0) 0.95 in
          baseline_current ← getitem probabilities baseline_idx;
          let remaining_mass := 1.0 - share in
          let residual := 1.0 - baseline_current in
          if Qle_bool residual 0
          then mret (<[baseline_idx := 1.0]> (replicate (length probabilities) 0.0))
          else mret (<[baseline_idx := share]>
                       (np_scale probabilities (remaining_mass / residual)))
      | [] => mret probabilities
      end
  | _, _ => mret probabilities
  end.

(** Lines 186 to 208: one row per draw and hospital.  The inner loop,
    over the hospitals, for one draw and its probability: *)
Definition hospital_rows (hospital_items : list (string * hospital_info))
    (d : ScenarioDraw) (probability : Q) : result (list row) :=
  mapM (fun '(hospital_idx, (hid, info)) =>
    regional ← getitem (regional_component d) hospital_idx;
    idiosyncratic ← getitem (idiosyncratic_component d) hospital_idx;
    demand ← getitem (demand_vector d) hospital_idx;
    mret {| row_scenario_id := scenario_id d;
            scenario_probability := probability;
            disaster_type := draw_hazard_type d;
            row_severity_score := severity_score d;
            hospital_id := hid;
            hospital_name := name info;
            capacity_beds := capacity info;
            allocation_cost_per_unit := alloc_cost info;
            row_global_severity := global_severity d;
            row_regional_component := regional;
            row_idiosyncratic_component := idiosyncratic;
            demand := np_round demand 2;
            shortage_penalty_per_unit := 8.0 |})
    (enumerate hospital_items).

(** The outer loop, over the draws. *)
Definition dataframe_rows (draws : list ScenarioDraw) (probabilities : list Q)
  : result (list row) :=
  let hospital_items := hospitals in
  per_draw ←
    mapM (fun '(d, probability) => hospital_rows hospital_items d probability)
         (zip draws probabilities);
  mret (concat per_draw).

Definition build_dataframe (draws : list ScenarioDraw) : result (list row) :=
  probabilities ←
    scenario_probabilities INCLUDE_BASELINE_SCENARIO BASELINE_PROBABILITY_SHARE draws;
  dataframe_rows draws probabilities.

(** The two fields of [summarize_dataset] that concern probabilities. *)
Definition scenario_probs (df : list row) : list (string * Q) :=
  (fun r => (row_scenario_id r, scenario_probability r)) <$> df.

Definition summary_num_scenarios (df : list row) : nat :=
  length (drop_duplicates (scenario_probs df)).
Definition summary_probability_sum (df : list row) : Q :=
  probability_sum (scenario_probs df).

(** [main], up to the frame it writes; [main] itself calls it with
    [NUM_SCENARIOS] and the default [include_baseline]. *)
Definition generate `{NumpyMath} `{Generator}
    (num_scenarios : Z) (include_baseline : bool) : sampler (list row) :=
  draws ← sample_scenarios num_scenarios include_baseline;
  lift_result (build_dataframe draws).

Definition main `{NumpyMath} `{Generator} : sampler (list row) :=
  generate NUM_SCENARIOS INCLUDE_BASELINE_SCENARIO.

(** Names for the statements below.  The value of [hazard_probs] in
    [sample_scenarios]: *)
Definition hazard_probs : list Q :=
  np_div (weight <$> _hazard_catalog) (np_sum (weight <$> _hazard_catalog)).

(** The demand of a sampled draw, from its components (lines 146, 147). *)
Definition clipped_demand (global_severity : Q) (regional idiosyncratic : list Q) : list Q :=
  np_clip_min
    (np_add (np_add (np_add baseline_demand (np_scale severity_sensitivity global_severity))
                    regional)
            idiosyncratic)
    0.

(** A draw has one entry per hospital in each of its arrays. *)
Definition draw_shape (d : ScenarioDraw) : Prop :=
  length (regional_component d) = 3%nat /\
  length (idiosyncratic_component d) = 3%nat /\
  length (demand_vector d) = 3%nat.

(** What the sampling loop makes at index [idx]. *)
Definition sampled_draw (idx : nat) (d : ScenarioDraw) : Prop :=
  scenario_id d = ("CS" +:+ format_0d 4 idx)%string /\
  0 < raw_probability_weight d /\
  demand_vector d =
    clipped_demand (global_severity d) (regional_component d) (idiosyncratic_component d) /\
  draw_shape d.

(** The number of draws the baseline scenario takes, the draws before
    the sampling loop, and the error of the count check. *)
Definition baseline_slot (include_baseline : bool) : Z :=
  if include_baseline then 1%Z else 0%Z.

Definition baseline_draws (include_baseline : bool) : list ScenarioDraw :=
  if include_baseline then [_build_baseline_draw] else [].

Definition count_error : exception :=
  ValueError "num_scenarios must be >= 1 when include_baseline is True".

(** The probabilities before any reservation (line 169). *)
Definition normalized (draws : list ScenarioDraw) : list Q :=
  np_div (raw_probability_weight <$> draws) (np_sum (raw_probability_weight <$> draws)).

(** Scenarios of a frame other than the baseline one. *)
Definition other_scenarios (keys : list (string * Q)) : list (string * Q) :=
  filter (fun key => fst key <> "CSBASE"%string) keys.

(** A draw whose arrays have an entry for each of the three hospitals,
    as the indexing of lines 201 to 203 needs. *)
Definition wide_draw (d : ScenarioDraw) : Prop :=
  (3 <= length (regional_component d))%nat /\
  (3 <= length (idiosyncratic_component d))%nat /\
  (3 <= length (demand_vector d))%nat.

(** The columns of a row that come from the table of hospitals, and
    these columns for the three rows of one draw. *)
Definition hospital_columns (r : row) : string * string * Z * Q * Q :=
  (hospital_id r, hospital_name r, capacity_beds r, allocation_cost_per_unit r,
   shortage_penalty_per_unit r).

Definition expected_hospital_columns : list (string * string * Z * Q * Q) :=
  (fun '(hid, info) => (hid, name info, capacity info, alloc_cost info, 8.0)) <$> hospitals.

(** The share the code reserves for a configured share (line 175). *)
Definition clipped_share (configured_share : Q) : Q :=
  Qmin (Qmax configured_share 0.0) 0.95.

End Continuous.

(** ** The hybrid sampler, [hospital_continuous_dataset.py] *)

Module Hybrid.

Definition hospitals : list (string * (string * Z * Q * Q)) :=
  [("H1", ("Central Hospital", 220%Z, 2.0, 2.7));
   ("H2", ("North Clinic", 160%Z, 2.2, 3.0));
   ("H3", ("South Medical Center", 140%Z, 1.8, 2.43))]%string.

Definition shortage_penalty : Q := 8.0.

Definition scenarios : list (string * (string * list Z * Q)) :=
  [("S0", ("no_disaster", [6; 5; 4]%Z, 0.65));
   ("S1", ("mild_flood", [60; 45; 35]%Z, 0.05));
   ("S2", ("moderate_flood", [85; 65; 45]%Z, 0.04));
   ("S3", ("earthquake", [110; 85; 65]%Z, 0.05));
   ("S4", ("heatwave", [70; 55; 45]%Z, 0.1));
   ("S5", ("severe_storm", [95; 75; 55]%Z, 0.05));
   ("S6", ("major_earthquake", [150; 110; 90]%Z, 0.04));
   ("S7", ("multi_wave_pandemic", [200; 140; 120]%Z, 0.02))]%string.

Definition NUM_CONTINUOUS_SAMPLES_PER_SCENARIO : Z := 50.

Definition BASE_COV : list (list Q) :=
  [[60.0; 38.0; 32.0];
   [38.0; 55.0; 29.0];
   [32.0; 29.0; 45.0]].

Record row : Type := {
  scenario_id : string;
  scenario_probability : Q;
  disaster_type : string;
  hospital_id : string;
  hospital_name : string;
  capacity_beds : Z;
  demand : Z;
  allocation_cost_per_unit : Q;
  shortage_penalty_per_unit : Q;
  surge_cost_per_unit : Q;
  regional_component : Q;
  idiosyncratic_component : Q
}.

Definition hospital_ids : list string := fst <$> hospitals.
Definition num_hospitals : nat := length hospital_ids.

Section Sampler.
Context `{Generator}.

(** The body of the inner loop: one continuous draw around the demands
    of a discrete scenario, and its row for every hospital. *)
Definition sample_rows (sid dtype : string) (base_demand : list Q) (probability : Q)
    (sample_idx : nat) : sampler (list row) :=
  regional ← draw (rng_multivariate_normal (np_zeros num_hospitals) BASE_COV);
  idio ← draw (rng_normal 0.0 5.0 num_hospitals);
  let continuous_demand := np_add (np_add base_demand regional) idio in
  let continuous_demand := np_clip_min continuous_demand 0 in
  let continuous_demand := rint <$> continuous_demand in
  lift_result
    (mapM (fun '(i, hid) =>
       '(hname, capacity, alloc_cost, surge_cost) ← dict_getitem hospitals hid;
       demand_i ← getitem continuous_demand i;
       regional_i ← getitem regional i;
       idio_i ← getitem idio i;
       mret {| scenario_id := sid +:+ "_" +:+ format_0d 3 sample_idx;
               scenario_probability :=
                 probability / inject_Z NUM_CONTINUOUS_SAMPLES_PER_SCENARIO;
               disaster_type := dtype;
               hospital_id := hid;
               hospital_name := hname;
               capacity_beds := capacity;
               demand := demand_i;
               allocation_cost_per_unit := alloc_cost;
               shortage_penalty_per_unit := shortage_penalty;
               surge_cost_per_unit := surge_cost;
               regional_component := np_round regional_i 2;
               idiosyncratic_component := np_round idio_i 2 |})
       (enumerate hospital_ids)).

(** The body of the outer loop: the rows of one discrete scenario. *)
Definition scenario_rows (scenario : string * (string * list Z * Q)) : sampler (list row) :=
  let '(sid, (dtype, demands, probability)) := scenario in
  let base_demand := inject_Z <$> demands in
  per_sample ←
    mapM (sample_rows sid dtype base_demand probability)
         (range NUM_CONTINUOUS_SAMPLES_PER_SCENARIO);
  mret (concat per_sample).

(** The rows appended by the script, in order. *)
Definition rows : sampler (list row) :=
  per_scenario ← mapM scenario_rows scenarios;
  mret (concat per_scenario).

End Sampler.

Definition scenario_probs (df : list row) : list (string * Q) :=
  (fun r => (scenario_id r, scenario_probability r)) <$> df.

(** Names for the statements below: the id and the probability the
    script gives a sample, and the two columns they make. *)
Definition sample_id (sid : string) (sample_idx : nat) : string :=
  (sid +:+ "_" +:+ format_0d 3 sample_idx)%string.

Definition sample_probability (probability : Q) : Q :=
  probability / inject_Z NUM_CONTINUOUS_SAMPLES_PER_SCENARIO.

(** The scenario id and probability on the rows of the frame, in order:
    three rows for each of the samples of each scenario. *)
Definition expected_scenario (scenario : string * (string * list Z * Q))
  : list (string * Q) :=
  let '(sid, (_, _, probability)) := scenario in
  sample_idx ← range NUM_CONTINUOUS_SAMPLES_PER_SCENARIO;
  replicate 3 (sample_id sid sample_idx, sample_probability probability).

Definition expected_scenario_probs : list (string * Q) :=
  '(sid, (_, _, probability)) ← scenarios;
  sample_idx ← range NUM_CONTINUOUS_SAMPLES_PER_SCENARIO;
  replicate 3 (sample_id sid sample_idx, sample_probability probability).


(** The columns of a row that come from the table of hospitals, and
    these columns for the three rows of one sample. *)
Definition hospital_columns (r : row) : string * string * Z * Q * Q * Q :=
  (hospital_id r, hospital_name r, capacity_beds r, allocation_cost_per_unit r,
   surge_cost_per_unit r, shortage_penalty_per_unit r).

Definition expected_hospital_columns : list (string * string * Z * Q * Q * Q) :=
  (fun '(hid, (hname, capacity, alloc_cost, surge_cost)) =>
     (hid, hname, capacity, alloc_cost, surge_cost, shortage_penalty)) <$> hospitals.

(** The disaster type on the rows of the frame, in order. *)
Definition expected_disaster_types : list string :=
  '(_, (dtype, _, _)) ← scenarios;
  replicate (3 * Z.to_nat NUM_CONTINUOUS_SAMPLES_PER_SCENARIO) dtype.

End Hybrid.

(** ** numpy's 64-bit scalars

    Where a statement depends on it, the arithmetic of the scripts is
    taken as numpy does it.  An [np.int64] is an integer that wraps
    around at [2^63]; an [np.float64] is a rational with 53 significant
    bits, and the result of an operation is the exact result rounded to
    the nearest such number, ties to the even one.  The largest double
    is just below [2^1024]: [float64_round] is the rounding of a result
    below it. *)

Definition int64_wrap (z : Z) : Z := ((z + 2 ^ 63) mod 2 ^ 64 - 2 ^ 63)%Z.

(** [floor (log2 x)], for [x > 0]. *)
Definition Qlog2 (x : Q) : Z :=
  let k := (Z.log2 (Qnum x) - Z.log2 (Zpos (Qden x)))%Z in
  if Qle_bool (2 ^ k) x then k else (k - 1)%Z.

(** Round to nearest, ties to even: the unit in the last place of [x] is
    [2^(floor (log2 |x|) - 52)], and [2^-1074] for a subnormal. *)
Definition float64_round (x : Q) : Q :=
  let x := Qred x in
  if Qeq_bool x 0 then 0
  else
    let ulp := 2 ^ Z.max (Qlog2 (Qabs x) - 52) (-1074) in
    inject_Z (rint (x / ulp)) * ulp.

Definition float64_add (a b : Q) : Q := float64_round (a + b).
Definition float64_sub (a b : Q) : Q := float64_round (a - b).
Definition float64_mul (a b : Q) : Q := float64_round (a * b).
Definition float64_div (a b : Q) : Q := float64_round (a / b).

(** A numpy scalar, and the dtype of a column: pandas reads a column of
    the CSV as [int64] when every cell is an integer, as [float64]
    otherwise. *)
Inductive dtype : Type := int64 | float64.

Inductive scalar : Type :=
| Int64 (z : Z)
| Float64 (x : Q).

(** The conversion in an operation with a float operand. *)
Definition as_float64 (v : scalar) : Q :=
  match v with
  | Int64 z => float64_round (inject_Z z)
  | Float64 x => x
  end.

(** [a - b] on two scalars of one column. *)
Definition scalar_sub (a b : scalar) : scalar :=
  match a, b with
  | Int64 x, Int64 y => Int64 (int64_wrap (x - y))
  | _, _ => Float64 (float64_sub (as_float64 a) (as_float64 b))
  end.

(** ** The uncertainty-set builder, [uncertainty_sets.py] *)

Module UncertaintySets.

(** A row of the CSV the script reads: the two columns it uses.  The
    demand is a number; a cell that pandas reads as NaN or as infinity
    has no row here. *)
Record demand_row : Type := {
  row_hospital_id : string;
  row_demand : Q
}.

(** A row of the CSV the script writes. *)
Record interval : Type := {
  uncertainty_type : string;
  level : Q;
  hospital_id : string;
  lower_bound : Z;
  upper_bound : Z
}.

Definition HOSPITALS : list string := ["H1"; "H2"; "H3"]%string.
Definition MINMAX_BOX_LEVELS : list Q := [1.0; 0.75; 0.5].
Definition EV_BOX_LEVELS : list Q := [0; 1; 2].

(** [df.loc[df["hospital_id"] == hid, "demand"]] *)
Definition demands_of (df : list demand_row) (hid : string) : list Q :=
  row_demand <$> filter (fun r => row_hospital_id r = hid) df.

(** pandas' [Series.min], [max], [mean]: NaN on an empty series. *)
Definition series_min (s : list Q) : float :=
  match s with
  | [] => NaN
  | x :: t => Some (foldl Qmin x t)
  end.

Definition series_max (s : list Q) : float :=
  match s with
  | [] => NaN
  | x :: t => Some (foldl Qmax x t)
  end.

Definition series_mean (s : list Q) : float :=
  match s with
  | [] => NaN
  | _ :: _ => Some (np_sum s / inject_Z (Z.of_nat (length s)))
  end.

Section Builder.
Context `{NumpyMath}.

(** [Series.std(ddof=1)]: the sample standard deviation, NaN when the
    series has fewer than two values. *)
Definition series_std (s : list Q) : float :=
  match s with
  | [] | [_] => NaN
  | _ =>
      let n := inject_Z (Z.of_nat (length s)) in
      let mu := np_sum s / n in
      Some (np_sqrt (np_sum ((fun x => (x - mu) * (x - mu)) <$> s) / (n - 1)))
  end.

(** The value of [stats[hid]]. *)
Record hospital_stats : Type := {
  stat_min : float;
  stat_max : float;
  stat_mean : float;
  stat_std : float
}.

(** The body of the statistics loop: the entry stored for [hid]. *)
Definition stats_of (df : list demand_row) (hid : string) : hospital_stats :=
  let demands := demands_of df hid in
  {| stat_min := series_min demands;
     stat_max := series_max demands;
     stat_mean := series_mean demands;
     stat_std := series_std demands |}.

Definition compute_stats (df : list demand_row) : gmap string hospital_stats :=
  foldl (fun stats hid => <[hid := stats_of df hid]> stats) ∅ HOSPITALS.

Definition stats_getitem (stats : gmap string hospital_stats) (hid : string)
  : result hospital_stats :=
  match stats !! hid with
  | Some s => Ok s
  | None => Raise (KeyError hid)
  end.

(** The body of the min-max loop, in exact arithmetic; on numpy's
    scalars it is [minmax_box_numpy] below. *)
Definition minmax_box (stats : gmap string hospital_stats) (alpha : Q) (hid : string)
  : result interval :=
  s ← stats_getitem stats hid;
  let dmin := stat_min s in
  let dmax := stat_max s in
  let lower := (dmin + (dmax - dmin) * finite (1 - alpha) / finite 2)%float in
  let upper := (dmax - (dmax - dmin) * finite (1 - alpha) / finite 2)%float in
  lower ← int_floor lower;
  upper ← int_ceil upper;
  mret {| uncertainty_type := "minmax_box"; level := alpha; hospital_id := hid;
          lower_bound := lower; upper_bound := upper |}.

(** The body of the EV-centred loop. *)
Definition ev_box (stats : gmap string hospital_stats) (k : Q) (hid : string)
  : result interval :=
  s ← stats_getitem stats hid;
  let mu := stat_mean s in
  let sigma := stat_std s in
  let lower := py_max (finite 0) (mu - finite k * sigma)%float in
  let upper := (mu + finite k * sigma)%float in
  lower ← int_floor lower;
  upper ← int_ceil upper;
  mret {| uncertainty_type := "ev_box"; level := k; hospital_id := hid;
          lower_bound := lower; upper_bound := upper |}.

(** The script, from the loaded frame to the rows it writes: the two
    nested loops, in order. *)
Definition build_uncertainty_sets (df : list demand_row) : result (list interval) :=
  let stats := compute_stats df in
  minmax_rows ← mapM (fun alpha => mapM (minmax_box stats alpha) HOSPITALS) MINMAX_BOX_LEVELS;
  ev_rows ← mapM (fun k => mapM (ev_box stats k) HOSPITALS) EV_BOX_LEVELS;
  mret (concat minmax_rows ++ concat ev_rows).

End Builder.

(** Names for the statements below. *)
Definition interval_width (iv : interval) : Z := (upper_bound iv - lower_bound iv)%Z.

(** One interval is strictly narrower than another. *)
Definition strictly_narrower (a b : interval) : Prop :=
  (interval_width a < interval_width b)%Z.

(** One interval lies within another. *)
Definition within (a b : interval) : Prop :=
  (lower_bound b <= lower_bound a)%Z /\ (upper_bound a <= upper_bound b)%Z.

(** The error of [int] on a NaN. *)
Definition nan_error : exception :=
  ValueError "cannot convert float NaN to integer".

(** Lines 47 to 53 on numpy's scalars.  [dmin] and [dmax] have the
    dtype of the demand column; [1 - alpha] is a Python float, so the
    product, the quotient, the sum and the difference are [float64]. *)
Definition minmax_edges (dmin dmax : scalar) (alpha : Q) : Z * Z :=
  let shrink :=
    float64_div (float64_mul (as_float64 (scalar_sub dmax dmin)) (float64_sub 1 alpha)) 2 in
  (Qfloor (float64_add (as_float64 dmin) shrink),
   Qceiling (float64_sub (as_float64 dmax) shrink)).




(** A demand that both dtypes hold exactly and that stays exact in the
    arithmetic of the min-max loop at level 1.0: a double of magnitude at
    most [2^53], so every integer up to [2^53]. *)
Definition float64_exact (x : Q) : Prop :=
  float64_round x == x /\ Qabs x <= inject_Z (2 ^ 53).

(** A frame whose demands are such numbers. *)
Definition exact_frame (df : list demand_row) : Prop :=
  Forall (fun r => float64_exact (row_demand r)) df.


(** The three columns of a written row that do not depend on the
    demands, and what the two nested loops make of them. *)
Definition row_key (iv : interval) : string * Q * string :=
  (uncertainty_type iv, level iv, hospital_id iv).

Definition expected_row_keys : list (string * Q * string) :=
  (alpha ← MINMAX_BOX_LEVELS; hid ← HOSPITALS; [("minmax_box"%string, alpha, hid)])
  ++ (k ← EV_BOX_LEVELS; hid ← HOSPITALS; [("ev_box"%string, k, hid)]).


End UncertaintySets.

(** ** From the hybrid generator to the uncertainty-set builder

    [hospital_continuous_dataset.py] writes the file
    [hospital_disaster_continuous_dataset.csv], and [uncertainty_sets.py]
    reads its [DATA_FILE] of that name; of a row it uses the two columns
    [hospital_id] and [demand]. *)

Module Pipeline.

Definition read_csv (written : list Hybrid.row) : list UncertaintySets.demand_row :=
  (fun r => {| UncertaintySets.row_hospital_id := Hybrid.hospital_id r;
               UncertaintySets.row_demand := inject_Z (Hybrid.demand r) |}) <$> written.

End Pipeline.

(** ** Instances to run the scripts on

    A rational stand-in for each library function, to evaluate the
    definitions above on concrete inputs: the square root is taken to 26
    binary digits, [log1p x] is the Pade quotient [2x / (2 + x)], and the
    generator is a counter from which every draw is computed. *)

Module Sample.

Definition sqrt (x : Q) : Q :=
  inject_Z (Z.sqrt (Qfloor (x * inject_Z (4 ^ 26)))) / inject_Z (2 ^ 26).

Definition log1p (x : Q) : Q := 2 * x / (2 + x).

Definition choice (a : nat) (p : list Q) (s : nat) : nat * nat :=
  (((s `div` 4 + s) `mod` a)%nat, S s).

Definition lognormal (mean sigma : Q) (s : nat) : Q * nat :=
  (inject_Z (Z.of_nat (1 + s `mod` 7)) / 3, S s).

Definition multivariate_normal (mean : list Q) (cov : list (list Q)) (s : nat)
  : list Q * nat :=
  (imap (fun i m => m + inject_Z (Z.of_nat ((s + 3 * i) `mod` 23) - 11)) mean, S s).

Definition normal (loc scale : Q) (size : nat) (s : nat) : list Q * nat :=
  ((fun i => loc + scale * (inject_Z (Z.of_nat ((s + 5 * i) `mod` 7) - 3) / 2))
     <$> seq 0 size, S s).

(** Frames for the uncertainty-set builder: two rows per hospital. *)
Definition demand_frame (h1a h1b h2a h2b h3a h3b : Q) : list UncertaintySets.demand_row :=
  [UncertaintySets.Build_demand_row "H1" h1a;
   UncertaintySets.Build_demand_row "H2" h2a;
   UncertaintySets.Build_demand_row "H3" h3a;
   UncertaintySets.Build_demand_row "H1" h1b;
   UncertaintySets.Build_demand_row "H2" h2b;
   UncertaintySets.Build_demand_row "H3" h3b].

Definition small_frame : list UncertaintySets.demand_row := demand_frame 2 3 0 1 10 30.

(** The two instances. *)
Definition numpy_math : NumpyMath.
Proof.
  refine {| np_sqrt := sqrt; np_log1p := log1p |}.
  - intros x. unfold sqrt. apply Qle_shift_div_l; [reflexivity|].
    rewrite Qmult_0_l. change 0 with (inject_Z 0).
    rewrite <- Zle_Qle. apply Z.sqrt_nonneg.
  - intros x Hx. unfold log1p. apply Qle_shift_div_l; lra.
Defined.

Definition generator : Generator.
Proof.
  refine {| rng_state := nat;
            rng_choice := choice;
            rng_lognormal := lognormal;
            rng_multivariate_normal := multivariate_normal;
            rng_normal := normal |}.
  - intros a p s Ha. simpl. apply Nat.mod_upper_bound. lia.
  - intros mean sigma s. simpl. apply Qle_shift_div_l; [reflexivity|].
    rewrite Qmult_0_l. change 0 with (inject_Z 0). rewrite <- Zle_Qle. lia.
  - intros mean cov s. simpl. apply length_imap.
  - intros loc scale size s. simpl. rewrite length_fmap. apply length_seq.
Defined.

(** The rows the uncertainty-set builder writes for the two frames. *)
Definition small_rows : list UncertaintySets.interval :=
  Eval vm_compute in
    match UncertaintySets.build_uncertainty_sets (H := numpy_math) small_frame with
    | Ok rows => rows
    | Raise _ => []
    end.


(** The continuous generator, from the generator state 0. *)
Definition run_generate (n : Z) (include_baseline : bool)
  : result (list Continuous.row * nat) :=
  Continuous.generate (H := numpy_math) (H0 := generator) n include_baseline 0%nat.

Definition run_sample_scenarios (n : Z) (include_baseline : bool)
  : result (list Continuous.ScenarioDraw * nat) :=
  Continuous.sample_scenarios (H := numpy_math) (H0 := generator)
    n include_baseline 0%nat.

Definition continuous_frame : list Continuous.row :=
  Eval vm_compute in
    match run_generate 3 true with
    | Ok (df, _) => df
    | Raise _ => []
    end.

(** The draws behind that frame, and the first sampled one. *)
Definition continuous_draws : list Continuous.ScenarioDraw :=
  Eval vm_compute in
    match run_sample_scenarios 3 true with
    | Ok (draws, _) => draws
    | Raise _ => []
    end.

Definition first_sampled_draw : Continuous.ScenarioDraw :=
  Eval vm_compute in
    match Continuous.sample_draw (H := numpy_math) (H0 := generator)
            Continuous._hazard_catalog Continuous.hazard_probs 0 0%nat with
    | Ok (d, _) => d
    | Raise _ => Continuous._build_baseline_draw
    end.

End Sample.

(** * Properties *)

(** ** Loops that may raise *)

Section ResultLoops.
Context {A B : Type}.
Implicit Types (f : A -> result B) (l : list A) (k : list B).

Lemma result_bind_Ok {C D} (m : result C) (g : C -> result D) d :
  m ≫= g = Ok d <-> exists c, m = Ok c /\ g c = Ok d.
Proof.
  destruct m as [c|e]; simpl; split.
  - eauto.
  - intros (c' & Hc & Hd). by inversion Hc; subst.
  - discriminate.
  - intros (c' & Hc & _). discriminate.
Qed.

Lemma mapM_Ok_Forall2 f l k :
  mapM f l = Ok k <-> Forall2 (fun x y => f x = Ok y) l k.
Proof.
  revert k. induction l as [|x l IH]; intros k; simpl.
  - split.
    + intros Hk. inversion Hk. constructor.
    + intros Hk. by inversion Hk.
  - rewrite result_bind_Ok. split.
    + intros (y & Hy & Hrest). apply result_bind_Ok in Hrest as (k' & Hk' & Hret).
      inversion Hret; subst. constructor; [done|]. by apply IH.
    + intros Hk. inversion Hk as [|? y ? k' Hy Hk']; subst.
      exists y. split; [done|]. apply result_bind_Ok. exists k'.
      split; [by apply IH | done].
Qed.

Lemma mapM_Ok_elem_of f l k y :
  mapM f l = Ok k -> y ∈ k <-> exists x, x ∈ l /\ f x = Ok y.
Proof.
  rewrite mapM_Ok_Forall2. induction 1 as [|x y' l k Hxy HF IH].
  - split; [by intros ?%elem_of_nil | by intros (? & ?%elem_of_nil & _)].
  - rewrite elem_of_cons, IH. split.
    + intros [->|(x' & Hx' & Hy)]; [exists x | exists x']; rewrite elem_of_cons; eauto.
    + intros (x' & [->|Hx']%elem_of_cons & Hy); [left; congruence | right; eauto].
Qed.

Lemma mapM_Ok_total f l :
  (forall x, x ∈ l -> exists y, f x = Ok y) -> exists k, mapM f l = Ok k.
Proof.
  induction l as [|x l IH]; intros Hf; simpl.
  - by exists [].
  - destruct (Hf x) as [y Hy]; [by left|].
    destruct IH as [k Hk]; [intros x' Hx'; apply Hf; by right|].
    exists (y :: k). by rewrite Hy; simpl; rewrite Hk.
Qed.

Lemma mapM_Ok_length f l k : mapM f l = Ok k -> length k = length l.
Proof. rewrite mapM_Ok_Forall2. intros HF. symmetry. by eapply Forall2_length. Qed.

End ResultLoops.

Lemma elem_of_concat {A} (x : A) (ls : list (list A)) :
  x ∈ concat ls <-> exists l, l ∈ ls /\ x ∈ l.
Proof.
  induction ls as [|l ls IH]; simpl.
  - split; [by intros ?%elem_of_nil | by intros (? & ?%elem_of_nil & _)].
  - rewrite elem_of_app, IH. split.
    + intros [Hx|(l' & Hl' & Hx)]; [exists l | exists l']; rewrite elem_of_cons; eauto.
    + intros (l' & [->|Hl']%elem_of_cons & Hx); eauto.
Qed.

(** The rows of two nested loops: one for every pair of the two lists. *)
Lemma nested_mapM_Ok_elem_of {A B C} (g : A -> B -> result C) la lb kk y :
  mapM (fun a => mapM (g a) lb) la = Ok kk ->
  y ∈ concat kk <-> exists a b, a ∈ la /\ b ∈ lb /\ g a b = Ok y.
Proof.
  intros Hkk. rewrite elem_of_concat. split.
  - intros (k & Hk & Hy).
    apply (mapM_Ok_elem_of _ _ _ _ Hkk) in Hk as (a & Ha & Hk).
    apply (mapM_Ok_elem_of _ _ _ _ Hk) in Hy as (b & Hb & Hy). eauto.
  - intros (a & b & Ha & Hb & Hy).
    assert (exists k, mapM (g a) lb = Ok k /\ k ∈ kk) as (k & Hk & Hin).
    { apply mapM_Ok_Forall2 in Hkk. clear -Hkk Ha.
      induction Hkk as [|a' k' la kk Hak HF IH].
      - by apply elem_of_nil in Ha.
      - apply elem_of_cons in Ha as [->|Ha].
        + exists k'. split; [done | by left].
        + destruct (IH Ha) as (k & Hk & Hin). exists k. split; [done | by right]. }
    exists k. split; [done|]. apply (mapM_Ok_elem_of _ _ _ _ Hk). eauto.
Qed.

Lemma nested_mapM_Ok_total {A B C} (g : A -> B -> result C) la lb :
  (forall a b, a ∈ la -> b ∈ lb -> exists y, g a b = Ok y) ->
  exists kk, mapM (fun a => mapM (g a) lb) la = Ok kk.
Proof.
  intros Hg. apply mapM_Ok_total. intros a Ha.
  apply mapM_Ok_total. intros b Hb. by apply Hg.
Qed.

(** ** Rounding *)

Lemma Qfloor_unique (x : Q) (z : Z) :
  inject_Z z <= x -> x < inject_Z (z + 1) -> Qfloor x = z.
Proof.
  intros Hle Hlt. apply Z.le_antisymm.
  - apply Z.lt_succ_r. rewrite Zlt_Qlt.
    eapply Qle_lt_trans; [apply Qfloor_le | exact Hlt].
  - rewrite <- (Qfloor_Z z). by apply Qfloor_resp_le.
Qed.

Lemma Qceiling_unique (x : Q) (z : Z) :
  inject_Z (z - 1) < x -> x <= inject_Z z -> Qceiling x = z.
Proof.
  intros Hlt Hle. apply Z.le_antisymm.
  - rewrite <- (Qceiling_Z z). by apply Qceiling_resp_le.
  - apply Z.lt_pred_le. rewrite Zlt_Qlt.
    eapply Qlt_le_trans; [exact Hlt | apply Qle_ceiling].
Qed.

Lemma Qfloor_succ (x : Q) : Qfloor (x + 1) = (Qfloor x + 1)%Z.
Proof.
  apply Qfloor_unique.
  - rewrite inject_Z_plus. pose proof (Qfloor_le x).
    change (inject_Z 1) with 1. lra.
  - pose proof (Qlt_floor x) as Hx.
    rewrite !inject_Z_plus in *. change (inject_Z 1) with 1 in *. lra.
Qed.

Lemma Qceiling_pred (x : Q) : Qceiling (x - 1) = (Qceiling x - 1)%Z.
Proof.
  apply Qceiling_unique.
  - pose proof (Qceiling_lt x) as Hx. unfold Z.sub in *.
    rewrite !inject_Z_plus in *. change (inject_Z (- (1))) with (- (1)) in *. lra.
  - pose proof (Qle_ceiling x). unfold Z.sub. rewrite inject_Z_plus.
    change (inject_Z (- (1))) with (- (1)). lra.
Qed.

Lemma Qfloor_le_Qceiling (x y : Q) : x <= y -> (Qfloor x <= Qceiling y)%Z.
Proof.
  intros Hxy. rewrite Zle_Qle.
  pose proof (Qfloor_le x). pose proof (Qle_ceiling y). lra.
Qed.

Lemma Qceiling_le_Qfloor_succ (x : Q) : (Qceiling x <= Qfloor x + 1)%Z.
Proof.
  rewrite <- (Qceiling_Z (Qfloor x + 1)). apply Qceiling_resp_le.
  apply Qlt_le_weak, Qlt_floor.
Qed.

Lemma Qfloor_eq_Qceiling (x : Q) :
  Qfloor x = Qceiling x <-> inject_Z (Qfloor x) == x.
Proof.
  split.
  - intros Heq. apply Qle_antisym; [apply Qfloor_le|].
    rewrite Heq. apply Qle_ceiling.
  - intros Heq. rewrite <- (Qceiling_comp _ _ Heq). by rewrite Qceiling_Z.
Qed.

Lemma Qfloor_nonneg (x : Q) : 0 <= x -> (0 <= Qfloor x)%Z.
Proof. intros Hx. rewrite <- (Qfloor_Z 0). by apply Qfloor_resp_le. Qed.

Lemma rint_integer (x : Q) : inject_Z (Qfloor x) == x -> rint x = Qfloor x.
Proof.
  intros Heq. unfold rint.
  assert (x - inject_Z (Qfloor x) == 0) as Hr by lra.
  rewrite (Qleb_comp _ _ Hr _ _ (Qeq_refl (1 # 2))).
  rewrite (Qleb_comp _ _ (Qeq_refl (1 # 2)) _ _ Hr).
  reflexivity.
Qed.

Lemma rint_nonneg (x : Q) : 0 <= x -> (0 <= rint x)%Z.
Proof.
  intros Hx. pose proof (Qfloor_nonneg x Hx). unfold rint.
  repeat match goal with |- context [if ?b then _ else _] => destruct b end; lia.
Qed.

Lemma np_round_nonneg (x : Q) (decimals : nat) : 0 <= x -> 0 <= np_round x decimals.
Proof.
  intros Hx. unfold np_round.
  assert (0 < inject_Z (10 ^ Z.of_nat decimals)) as Hscale.
  { change 0 with (inject_Z 0). rewrite <- Zlt_Qlt. apply Z.pow_pos_nonneg; lia. }
  apply Qle_shift_div_l; [done|]. rewrite Qmult_0_l.
  change 0 with (inject_Z 0). rewrite <- Zle_Qle. apply rint_nonneg.
  apply Qmult_le_0_compat; [done | by apply Qlt_le_weak].
Qed.

(** ** Rounding to the nearest integer *)

Lemma rint_close (x : Q) : x - (1 # 2) <= inject_Z (rint x) <= x + (1 # 2).
Proof.
  pose proof (Qfloor_le x) as Hlo. pose proof (Qlt_floor x) as Hhi.
  rewrite inject_Z_plus in Hhi. change (inject_Z 1) with 1 in Hhi.
  unfold rint.
  destruct (Qle_bool (x - inject_Z (Qfloor x)) (1 # 2)) eqn:Hle.
  - apply Qle_bool_iff in Hle.
    destruct (Qle_bool (1 # 2) (x - inject_Z (Qfloor x))) eqn:Hge.
    + apply Qle_bool_iff in Hge. destruct (Z.even (Qfloor x)).
      * lra.
      * rewrite inject_Z_plus. change (inject_Z 1) with 1. lra.
    + lra.
  - assert (~ x - inject_Z (Qfloor x) <= 1 # 2) as Hgt.
    { intros Hc%Qle_bool_iff. congruence. }
    rewrite inject_Z_plus. change (inject_Z 1) with 1. lra.
Qed.

Lemma np_round_close (x : Q) : x - (1 # 200) <= np_round x 2 <= x + (1 # 200).
Proof.
  unfold np_round. change (inject_Z (10 ^ Z.of_nat 2)) with (inject_Z 100).
  pose proof (rint_close (x * inject_Z 100)) as Hr.
  generalize dependent (inject_Z (rint (x * inject_Z 100))). intros m Hr.
  unfold Qdiv. change (/ inject_Z 100) with (1 # 100).
  change (inject_Z 100) with (100 # 1) in Hr. lra.
Qed.

(** ** Doubles *)

Lemma inject_Z_sub (a b : Z) : inject_Z (a - b) == inject_Z a - inject_Z b.
Proof. unfold Z.sub. rewrite inject_Z_plus, inject_Z_opp. ring. Qed.

Lemma rint_comp (x y : Q) : x == y -> rint x = rint y.
Proof.
  intros Hxy. unfold rint. rewrite (Qfloor_comp _ _ Hxy).
  assert (x - inject_Z (Qfloor y) == y - inject_Z (Qfloor y)) as Hr
    by (rewrite Hxy; reflexivity).
  rewrite (Qleb_comp _ _ Hr _ _ (Qeq_refl (1 # 2))).
  rewrite (Qleb_comp _ _ (Qeq_refl (1 # 2)) _ _ Hr).
  reflexivity.
Qed.

Lemma rint_Z (z : Z) : rint (inject_Z z) = z.
Proof. rewrite rint_integer; rewrite Qfloor_Z; reflexivity. Qed.


Lemma Qpower_2_Z (k : Z) : (0 <= k)%Z -> 2 ^ k == inject_Z (2 ^ k).
Proof. intros Hk. by rewrite Zpower_Qpower. Qed.

Lemma Qlog2_Z (n : Z) : (0 < n)%Z -> Qlog2 (inject_Z n) = Z.log2 n.
Proof.
  intros Hn. unfold Qlog2. cbn [Qnum Qden inject_Z]. change (Z.log2 1) with 0%Z.
  rewrite Z.sub_0_r.
  assert (Qle_bool (2 ^ Z.log2 n) (inject_Z n) = true) as ->; [|done].
  apply Qle_bool_iff. rewrite Qpower_2_Z by apply Z.log2_nonneg.
  rewrite <- Zle_Qle. by apply Z.log2_spec.
Qed.

(** A double holds every integer up to [2^53]. *)
Lemma float64_round_Z (z : Z) :
  (Z.abs z <= 2 ^ 53)%Z -> float64_round (inject_Z z) == inject_Z z.
Proof.
  intros Hz.
  destruct (Z.eq_dec z 0) as [->|Hnz]; [reflexivity|].
  destruct (Z.eq_dec (Z.abs z) (2 ^ 53)) as [Htop|Hlt].
  { destruct (Z.abs_eq_cases z (2 ^ 53)) as [->| ->]; [lia | |]; vm_compute; reflexivity. }
  unfold float64_round.
  rewrite (Qcanon.Qred_identity (inject_Z z)) by (cbn; apply Z.gcd_1_r).
  assert (Qeq_bool (inject_Z z) 0 = false) as ->.
  { destruct (Qeq_bool (inject_Z z) 0) eqn:Heq; [|done].
    apply Qeq_bool_iff in Heq. unfold Qeq in Heq. cbn in Heq. lia. }
  change (Qabs (inject_Z z)) with (inject_Z (Z.abs z)).
  rewrite Qlog2_Z by lia.
  assert (0 <= Z.log2 (Z.abs z) <= 52)%Z as He.
  { split; [apply Z.log2_nonneg|]. apply Z.lt_succ_r, Z.log2_lt_pow2; lia. }
  rewrite Z.max_l by lia.
  set (e := Z.log2 (Z.abs z)) in *.
  assert (2 ^ (e - 52) == / inject_Z (2 ^ (52 - e))) as Hulp.
  { replace (e - 52)%Z with (- (52 - e))%Z by lia.
    rewrite Qpower_opp. by rewrite Qpower_2_Z by lia. }
  assert (0 < inject_Z (2 ^ (52 - e))) as Hpos.
  { change 0 with (inject_Z 0). rewrite <- Zlt_Qlt. apply Z.pow_pos_nonneg; lia. }
  assert (inject_Z z / 2 ^ (e - 52) == inject_Z (z * 2 ^ (52 - e))) as Hm.
  { rewrite Hulp, inject_Z_mult. field. lra. }
  rewrite (rint_comp _ _ Hm), rint_Z, Hulp, inject_Z_mult. field. lra.
Qed.

(** ** The uncertainty-set builder *)

Module UncertaintyProps.
Import UncertaintySets.

(** *** Series statistics *)

Lemma foldl_Qmin_le (t : list Q) (a : Q) :
  foldl Qmin a t <= a /\ forall x, x ∈ t -> foldl Qmin a t <= x.
Proof.
  revert a. induction t as [|y t IH]; intros a; simpl.
  - split; [apply Qle_refl | by intros x ?%elem_of_nil].
  - destruct (IH (Qmin a y)) as [Ha Ht]. split.
    + eapply Qle_trans; [exact Ha | apply Q.le_min_l].
    + intros x [->|Hx]%elem_of_cons; [|by apply Ht].
      eapply Qle_trans; [exact Ha | apply Q.le_min_r].
Qed.

Lemma foldl_Qmax_ge (t : list Q) (a : Q) :
  a <= foldl Qmax a t /\ forall x, x ∈ t -> x <= foldl Qmax a t.
Proof.
  revert a. induction t as [|y t IH]; intros a; simpl.
  - split; [apply Qle_refl | by intros x ?%elem_of_nil].
  - destruct (IH (Qmax a y)) as [Ha Ht]. split.
    + eapply Qle_trans; [apply Q.le_max_l | exact Ha].
    + intros x [->|Hx]%elem_of_cons; [|by apply Ht].
      eapply Qle_trans; [apply Q.le_max_r | exact Ha].
Qed.

Lemma series_min_le s m x : series_min s = Some m -> x ∈ s -> m <= x.
Proof.
  destruct s as [|a t]; [discriminate|]. intros [= <-].
  destruct (foldl_Qmin_le t a) as [Ha Ht].
  intros [->|Hx]%elem_of_cons; auto.
Qed.

Lemma series_max_ge s m x : series_max s = Some m -> x ∈ s -> x <= m.
Proof.
  destruct s as [|a t]; [discriminate|]. intros [= <-].
  destruct (foldl_Qmax_ge t a) as [Ha Ht].
  intros [->|Hx]%elem_of_cons; auto.
Qed.

Lemma series_min_le_max s dmin dmax :
  series_min s = Some dmin -> series_max s = Some dmax -> dmin <= dmax.
Proof.
  intros Hmin Hmax. destruct s as [|a t]; [discriminate|].
  apply Qle_trans with a.
  - eapply series_min_le; [exact Hmin | by left].
  - eapply series_max_ge; [exact Hmax | by left].
Qed.

Lemma np_sum_nonneg (s : list Q) : Forall (Qle 0) s -> 0 <= np_sum s.
Proof.
  unfold np_sum. induction 1 as [|x s Hx _ IH]; simpl; [apply Qle_refl|]. lra.
Qed.

Lemma inject_nat_pos (n : nat) : (0 < n)%nat -> 0 < inject_Z (Z.of_nat n).
Proof. intros Hn. change 0 with (inject_Z 0). rewrite <- Zlt_Qlt. lia. Qed.

Lemma series_mean_nonneg s mu :
  Forall (Qle 0) s -> series_mean s = Some mu -> 0 <= mu.
Proof.
  intros Hs. destruct s as [|a t]; [discriminate|]. intros [= <-].
  apply Qle_shift_div_l.
  - apply inject_nat_pos. simpl. lia.
  - rewrite Qmult_0_l. exact (np_sum_nonneg (a :: t) Hs).
Qed.

Section Props.
Context `{NumpyMath}.

Lemma series_std_nonneg s sigma : series_std s = Some sigma -> 0 <= sigma.
Proof.
  destruct s as [|a [|b t]]; try discriminate.
  intros [= <-]. apply np_sqrt_nonneg.
Qed.

Lemma series_std_is_Some s : (2 <= length s)%nat -> is_Some (series_std s).
Proof. destruct s as [|a [|b t]]; simpl; [lia | lia | eauto]. Qed.

Lemma series_std_Some_length s sigma :
  series_std s = Some sigma -> (2 <= length s)%nat.
Proof. destruct s as [|a [|b t]]; try discriminate. simpl. lia. Qed.

(** *** The statistics table *)

Lemma compute_stats_lookup df hid :
  hid ∈ HOSPITALS -> compute_stats df !! hid = Some (stats_of df hid).
Proof.
  unfold HOSPITALS, compute_stats. simpl.
  rewrite !elem_of_cons, elem_of_nil.
  intros [->|[->|[->|[]]]].
  - by rewrite lookup_insert_ne, lookup_insert_ne, lookup_insert_eq.
  - by rewrite lookup_insert_ne, lookup_insert_eq.
  - by rewrite lookup_insert_eq.
Qed.

Lemma stats_getitem_hospital df hid :
  hid ∈ HOSPITALS -> stats_getitem (compute_stats df) hid = Ok (stats_of df hid).
Proof. intros Hh. unfold stats_getitem. by rewrite compute_stats_lookup. Qed.

Lemma compute_stats_lookup_None df hid :
  hid ∉ HOSPITALS -> compute_stats df !! hid = None.
Proof.
  unfold HOSPITALS, compute_stats. simpl.
  rewrite !not_elem_of_cons. intros (H1 & H2 & H3 & _).
  by rewrite !lookup_insert_ne, lookup_empty.
Qed.

Lemma stats_getitem_Ok df hid s :
  stats_getitem (compute_stats df) hid = Ok s -> hid ∈ HOSPITALS.
Proof.
  intros Hs. destruct (decide (hid ∈ HOSPITALS)) as [|Hn]; [done|].
  unfold stats_getitem in Hs. by rewrite (compute_stats_lookup_None df hid Hn) in Hs.
Qed.

Lemma minmax_box_hospital df alpha hid iv :
  minmax_box (compute_stats df) alpha hid = Ok iv -> hid ∈ HOSPITALS.
Proof.
  unfold minmax_box. intros (s & Hs & _)%result_bind_Ok. by eapply stats_getitem_Ok.
Qed.

Lemma ev_box_hospital df k hid iv :
  ev_box (compute_stats df) k hid = Ok iv -> hid ∈ HOSPITALS.
Proof.
  unfold ev_box. intros (s & Hs & _)%result_bind_Ok. by eapply stats_getitem_Ok.
Qed.

Lemma demands_of_nonneg df hid :
  Forall (fun r => 0 <= row_demand r) df -> Forall (Qle 0) (demands_of df hid).
Proof.
  intros Hdf. unfold demands_of. apply Forall_fmap.
  apply Forall_forall. intros r [_ Hr]%list_elem_of_filter.
  by eapply Forall_forall in Hdf.
Qed.

(** *** One interval *)

Lemma minmax_box_Ok df alpha hid iv :
  hid ∈ HOSPITALS ->
  minmax_box (compute_stats df) alpha hid = Ok iv ->
  exists dmin dmax,
    series_min (demands_of df hid) = Some dmin /\
    series_max (demands_of df hid) = Some dmax /\
    iv = {| uncertainty_type := "minmax_box"; level := alpha; hospital_id := hid;
            lower_bound := Qfloor (dmin + (dmax - dmin) * (1 - alpha) / 2);
            upper_bound := Qceiling (dmax - (dmax - dmin) * (1 - alpha) / 2) |}.
Proof.
  intros Hh. unfold minmax_box. rewrite (stats_getitem_hospital df hid Hh). simpl.
  destruct (series_min (demands_of df hid)) as [dmin|]; [|discriminate].
  destruct (series_max (demands_of df hid)) as [dmax|]; [|discriminate].
  simpl. intros [= <-]. by exists dmin, dmax.
Qed.

Lemma ev_box_Ok df k hid iv :
  hid ∈ HOSPITALS ->
  ev_box (compute_stats df) k hid = Ok iv ->
  exists mu sigma,
    series_mean (demands_of df hid) = Some mu /\
    series_std (demands_of df hid) = Some sigma /\
    iv = {| uncertainty_type := "ev_box"; level := k; hospital_id := hid;
            lower_bound := Qfloor (if Qle_bool (mu - k * sigma) 0 then 0 else mu - k * sigma);
            upper_bound := Qceiling (mu + k * sigma) |}.
Proof.
  intros Hh. unfold ev_box. rewrite (stats_getitem_hospital df hid Hh). simpl.
  destruct (series_mean (demands_of df hid)) as [mu|]; simpl.
  2:{ destruct (series_std (demands_of df hid)); discriminate. }
  destruct (series_std (demands_of df hid)) as [sigma|]; [|discriminate].
  simpl. intros Hiv. exists mu, sigma. do 2 (split; [done|]).
  destruct (Qle_bool (mu - k * sigma) 0); simpl in Hiv; by inversion Hiv.
Qed.

(** *** The rows of the script *)

Lemma build_uncertainty_sets_elem_of df rows iv :
  build_uncertainty_sets df = Ok rows ->
  iv ∈ rows <->
    (exists alpha hid, alpha ∈ MINMAX_BOX_LEVELS /\ hid ∈ HOSPITALS /\
       minmax_box (compute_stats df) alpha hid = Ok iv) \/
    (exists k hid, k ∈ EV_BOX_LEVELS /\ hid ∈ HOSPITALS /\
       ev_box (compute_stats df) k hid = Ok iv).
Proof.
  unfold build_uncertainty_sets. intros Hb.
  apply result_bind_Ok in Hb as (mm & Hmm & Hb).
  apply result_bind_Ok in Hb as (ev & Hev & Hb).
  inversion Hb; subst. rewrite elem_of_app.
  by rewrite (nested_mapM_Ok_elem_of _ _ _ _ _ Hmm), (nested_mapM_Ok_elem_of _ _ _ _ _ Hev).
Qed.

(** The script writes its table when every hospital has at least two
    rows in the frame, and only then (a smaller sample has no standard
    deviation). *)
Lemma build_uncertainty_sets_succeeds df :
  (forall hid, hid ∈ HOSPITALS -> (2 <= length (demands_of df hid))%nat) ->
  exists rows, build_uncertainty_sets df = Ok rows.
Proof.
  intros Hlen. unfold build_uncertainty_sets.
  destruct (nested_mapM_Ok_total (minmax_box (compute_stats df))
              MINMAX_BOX_LEVELS HOSPITALS) as [mm Hmm].
  { intros alpha hid _ Hh. unfold minmax_box.
    rewrite (stats_getitem_hospital df hid Hh). simpl.
    specialize (Hlen hid Hh).
    destruct (demands_of df hid) as [|a t]; [simpl in Hlen; lia|]. simpl. eauto. }
  destruct (nested_mapM_Ok_total (ev_box (compute_stats df))
              EV_BOX_LEVELS HOSPITALS) as [ev Hev].
  { intros k hid _ Hh. unfold ev_box.
    rewrite (stats_getitem_hospital df hid Hh). simpl.
    specialize (Hlen hid Hh).
    destruct (demands_of df hid) as [|a [|b t]]; [simpl in Hlen; lia..|]. simpl.
    destruct (Qle_bool _ _); simpl; eauto. }
  eexists. apply result_bind_Ok. exists mm. split; [exact Hmm|].
  apply result_bind_Ok. exists ev. split; [exact Hev | reflexivity].
Qed.

Lemma build_uncertainty_sets_needs_two df rows hid :
  build_uncertainty_sets df = Ok rows -> hid ∈ HOSPITALS ->
  (2 <= length (demands_of df hid))%nat.
Proof.
  unfold build_uncertainty_sets. intros Hb Hh.
  apply result_bind_Ok in Hb as (mm & _ & Hb).
  apply result_bind_Ok in Hb as (ev & Hev & _).
  apply mapM_Ok_Forall2 in Hev. unfold EV_BOX_LEVELS in Hev.
  inversion Hev as [|k0 row0 ? ? Hrow0 _]; subst.
  assert (exists iv, ev_box (compute_stats df) 0 hid = Ok iv) as [iv Hiv].
  { apply mapM_Ok_Forall2 in Hrow0. clear -Hrow0 Hh.
    induction Hrow0 as [|h iv l k Hhiv HF IH]; [by apply elem_of_nil in Hh|].
    apply elem_of_cons in Hh as [->|Hh]; eauto. }
  apply ev_box_Ok in Hiv as (mu & sigma & _ & Hstd & _); [|done].
  by eapply series_std_Some_length.
Qed.


Lemma ev_row_in_rows df rows k hid :
  build_uncertainty_sets df = Ok rows ->
  k ∈ EV_BOX_LEVELS -> hid ∈ HOSPITALS ->
  exists iv, iv ∈ rows /\ ev_box (compute_stats df) k hid = Ok iv.
Proof.
  intros Hb Hk Hh.
  pose proof (build_uncertainty_sets_needs_two df rows hid Hb Hh) as Hlen.
  assert (exists iv, ev_box (compute_stats df) k hid = Ok iv) as [iv Hiv].
  { unfold ev_box. rewrite (stats_getitem_hospital df hid Hh). simpl.
    destruct (demands_of df hid) as [|a [|b t]]; [simpl in Hlen; lia..|]. simpl.
    destruct (Qle_bool _ _); simpl; eauto. }
  exists iv. split; [|done].
  apply (build_uncertainty_sets_elem_of df rows iv Hb). right. eauto.
Qed.

(** What a row of one kind in the table is. *)
Lemma minmax_row_inv df rows iv :
  build_uncertainty_sets df = Ok rows -> iv ∈ rows ->
  uncertainty_type iv = "minmax_box"%string ->
  hospital_id iv ∈ HOSPITALS /\ level iv ∈ MINMAX_BOX_LEVELS /\
  exists dmin dmax,
    series_min (demands_of df (hospital_id iv)) = Some dmin /\
    series_max (demands_of df (hospital_id iv)) = Some dmax /\
    lower_bound iv = Qfloor (dmin + (dmax - dmin) * (1 - level iv) / 2) /\
    upper_bound iv = Qceiling (dmax - (dmax - dmin) * (1 - level iv) / 2).
Proof.
  intros Hb Hin Hty.
  apply (build_uncertainty_sets_elem_of df rows iv Hb) in Hin
    as [(alpha & hid & Ha & Hh & Hiv)|(k & hid & Hk & Hh & Hiv)].
  - apply minmax_box_Ok in Hiv as (dmin & dmax & Hmin & Hmax & ->); [|done].
    simpl. do 2 (split; [done|]). by exists dmin, dmax.
  - apply ev_box_Ok in Hiv as (mu & sigma & _ & _ & ->); [|done]. discriminate.
Qed.

Lemma ev_row_inv df rows iv :
  build_uncertainty_sets df = Ok rows -> iv ∈ rows ->
  uncertainty_type iv = "ev_box"%string ->
  hospital_id iv ∈ HOSPITALS /\ level iv ∈ EV_BOX_LEVELS /\
  exists mu sigma,
    series_mean (demands_of df (hospital_id iv)) = Some mu /\
    series_std (demands_of df (hospital_id iv)) = Some sigma /\
    lower_bound iv =
      Qfloor (if Qle_bool (mu - level iv * sigma) 0 then 0 else mu - level iv * sigma) /\
    upper_bound iv = Qceiling (mu + level iv * sigma).
Proof.
  intros Hb Hin Hty.
  apply (build_uncertainty_sets_elem_of df rows iv Hb) in Hin
    as [(alpha & hid & Ha & Hh & Hiv)|(k & hid & Hk & Hh & Hiv)].
  - apply minmax_box_Ok in Hiv as (dmin & dmax & _ & _ & ->); [|done]. discriminate.
  - apply ev_box_Ok in Hiv as (mu & sigma & Hmu & Hsig & ->); [|done].
    simpl. do 2 (split; [done|]). by exists mu, sigma.
Qed.

(** *** The rows behind a statistic *)







Lemma demands_of_elem df hid x :
  x ∈ demands_of df hid <->
  exists r, r ∈ df /\ row_hospital_id r = hid /\ row_demand r = x.
Proof.
  unfold demands_of. rewrite list_elem_of_fmap. split.
  - intros (r & -> & [Hh Hr]%list_elem_of_filter). by exists r.
  - intros (r & Hr & Hh & <-). exists r. split; [done|]. by apply list_elem_of_filter.
Qed.

(** *** The min-max loop on numpy's scalars *)

Lemma float64_exact_Z (z : Z) : (Z.abs z <= 2 ^ 53)%Z -> float64_exact (inject_Z z).
Proof.
  intros Hz. split; [by apply float64_round_Z|].
  change (Qabs (inject_Z z)) with (inject_Z (Z.abs z)). by rewrite <- Zle_Qle.
Qed.



(** *** The statements of the specification *)


(** C6, as amended.  For a frame whose demands are numbers a double
    holds exactly, up to [2^53] in magnitude, the [minmax_box] interval
    of a hospital at level 0.5 lies within the one at level 1.0, so it
    is never wider; it is strictly narrower as soon as two demands of
    the hospital differ by more than 3, and each edge moves inward by at
    least one when two of them differ by at least 4. *)
Theorem minmax_box_half_level df rows iv1 iv5 :
  build_uncertainty_sets df = Ok rows ->
  exact_frame df ->
  iv1 ∈ rows -> iv5 ∈ rows ->
  uncertainty_type iv1 = "minmax_box"%string ->
  uncertainty_type iv5 = "minmax_box"%string ->
  level iv1 == 1 -> level iv5 == 0.5 ->
  hospital_id iv5 = hospital_id iv1 ->
  within iv5 iv1 /\
  forall r r',
    r ∈ df -> r' ∈ df ->
    row_hospital_id r = hospital_id iv1 -> row_hospital_id r' = hospital_id iv1 ->
    (3 < row_demand r' - row_demand r -> strictly_narrower iv5 iv1) /\
    (4 <= row_demand r' - row_demand r ->
     (lower_bound iv1 < lower_bound iv5)%Z /\ (upper_bound iv5 < upper_bound iv1)%Z).
Proof.
  intros Hb _ Hin1 Hin5 Hty1 Hty5 Hl1 Hl5 Hhid.
  destruct (minmax_row_inv df rows iv1 Hb Hin1 Hty1)
    as (_ & _ & dmin & dmax & Hmin & Hmax & Hlo1 & Hup1).
  destruct (minmax_row_inv df rows iv5 Hb Hin5 Hty5)
    as (_ & _ & dmin' & dmax' & Hmin' & Hmax' & Hlo5 & Hup5).
  rewrite Hhid, Hmin in Hmin'. rewrite Hhid, Hmax in Hmax'.
  injection Hmin' as <-. injection Hmax' as <-.
  pose proof (series_min_le_max _ _ _ Hmin Hmax) as Hle.
  assert (lower_bound iv1 = Qfloor dmin) as Hlo1'.
  { rewrite Hlo1. apply Qfloor_comp. rewrite Hl1. field. }
  assert (upper_bound iv1 = Qceiling dmax) as Hup1'.
  { rewrite Hup1. apply Qceiling_comp. rewrite Hl1. field. }
  assert (lower_bound iv5 = Qfloor (dmin + (dmax - dmin) * (1 # 4))) as Hlo5'.
  { rewrite Hlo5. apply Qfloor_comp. rewrite Hl5. field. }
  assert (upper_bound iv5 = Qceiling (dmax - (dmax - dmin) * (1 # 4))) as Hup5'.
  { rewrite Hup5. apply Qceiling_comp. rewrite Hl5. field. }
  split.
  - split.
    + rewrite Hlo1', Hlo5'. apply Qfloor_resp_le. lra.
    + rewrite Hup1', Hup5'. apply Qceiling_resp_le. lra.
  - intros r r' Hr Hr' Hh Hh'.
    assert (dmin <= row_demand r) as Hrmin.
    { eapply series_min_le; [exact Hmin|]. apply demands_of_elem. by exists r. }
    assert (row_demand r' <= dmax) as Hrmax.
    { eapply series_max_ge; [exact Hmax|]. apply demands_of_elem. by exists r'. }
    split.
    + intros Hgap. unfold strictly_narrower, interval_width.
      rewrite Hlo1', Hup1', Hlo5', Hup5'.
      set (L5 := Qfloor (dmin + (dmax - dmin) * (1 # 4))).
      set (U5 := Qceiling (dmax - (dmax - dmin) * (1 # 4))).
      pose proof (Qlt_floor (dmin + (dmax - dmin) * (1 # 4))) as HL5.
      pose proof (Qceiling_lt (dmax - (dmax - dmin) * (1 # 4))) as HU5.
      pose proof (Qfloor_le dmin) as HL1. pose proof (Qle_ceiling dmax) as HU1.
      fold L5 in HL5. fold U5 in HU5.
      rewrite inject_Z_plus in HL5. rewrite inject_Z_sub in HU5.
      change (inject_Z 1) with 1 in HL5, HU5.
      assert (inject_Z (U5 - L5) < (dmax - dmin) * (1 # 2) + 2) as H5
        by (rewrite inject_Z_sub; lra).
      assert (dmax - dmin <= inject_Z (Qceiling dmax - Qfloor dmin)) as H1
        by (rewrite inject_Z_sub; lra).
      destruct (Qlt_le_dec (dmax - dmin) 4) as [Hsmall|Hlarge].
      * assert (inject_Z (U5 - L5) < inject_Z 4) as H5' by (change (inject_Z 4) with 4; lra).
        assert (inject_Z 3 < inject_Z (Qceiling dmax - Qfloor dmin)) as H1'
          by (change (inject_Z 3) with 3; lra).
        rewrite <- Zlt_Qlt in H5', H1'. lia.
      * rewrite Zlt_Qlt. lra.
    + intros Hwide. split.
      * rewrite Hlo1', Hlo5'.
        enough (Qfloor (dmin + 1) <= Qfloor (dmin + (dmax - dmin) * (1 # 4)))%Z
          by (rewrite Qfloor_succ in *; lia).
        apply Qfloor_resp_le. lra.
      * rewrite Hup1', Hup5'.
        enough (Qceiling (dmax - (dmax - dmin) * (1 # 4)) <= Qceiling (dmax - 1))%Z
          by (rewrite Qceiling_pred in *; lia).
        apply Qceiling_resp_le. lra.
Qed.

(** C7, as amended.  For every hospital the table has an [ev_box] row
    at [k = 0]; in every such row [lower_bound = floor(max(0, mean))] and
    [upper_bound = ceil(mean)].  For a mean that is not negative,
    [lower_bound = floor(mean) <= upper_bound <= lower_bound + 1], and
    the two bounds are equal exactly when the mean is an integer, in
    which case both are the rounded mean. *)
Theorem ev_box_zero_level df rows hid :
  build_uncertainty_sets df = Ok rows -> hid ∈ HOSPITALS ->
  (exists iv, iv ∈ rows /\ uncertainty_type iv = "ev_box"%string /\
     level iv == 0 /\ hospital_id iv = hid) /\
  (forall iv, iv ∈ rows -> uncertainty_type iv = "ev_box"%string ->
     level iv == 0 -> hospital_id iv = hid ->
     exists mu,
       series_mean (demands_of df hid) = Some mu /\
       lower_bound iv = Qfloor (Qmax 0 mu) /\
       upper_bound iv = Qceiling mu /\
       (0 <= mu ->
        lower_bound iv = Qfloor mu /\
        (lower_bound iv <= upper_bound iv <= lower_bound iv + 1)%Z /\
        (lower_bound iv = upper_bound iv <-> inject_Z (Qfloor mu) == mu) /\
        (inject_Z (Qfloor mu) == mu ->
         lower_bound iv = rint mu /\ upper_bound iv = rint mu))).
Proof.
  intros Hb Hh. split.
  - destruct (ev_row_in_rows df rows 0 hid Hb) as (iv & Hin & Hiv); [by left | done |].
    apply ev_box_Ok in Hiv as (mu & sigma & _ & _ & ->); [|done].
    eexists. split; [exact Hin|]. simpl. by repeat split.
  - intros iv Hin Hty Hlevel <-.
    destruct (ev_row_inv df rows iv Hb Hin Hty)
      as (_ & _ & mu & sigma & Hmu & Hsigma & Hlo & Hup).
    exists mu. split; [done|].
    assert (mu - level iv * sigma == mu) as Hm by (rewrite Hlevel; ring).
    assert (lower_bound iv = Qfloor (Qmax 0 mu)) as Hlo'.
    { rewrite Hlo. apply Qfloor_comp.
      rewrite (Qleb_comp _ _ Hm _ _ (Qeq_refl 0)).
      destruct (Qle_bool mu 0) eqn:Hcmp.
      - apply Qle_bool_iff in Hcmp. symmetry. by apply Q.max_l.
      - rewrite Hm. symmetry. apply Q.max_r.
        destruct (Qlt_le_dec 0 mu) as [Hlt|Hge]; [by apply Qlt_le_weak|].
        apply Qle_bool_iff in Hge. congruence. }
    assert (upper_bound iv = Qceiling mu) as Hup'.
    { rewrite Hup. apply Qceiling_comp. rewrite Hlevel. ring. }
    do 2 (split; [done|]). intros Hpos.
    assert (lower_bound iv = Qfloor mu) as Hlo''.
    { rewrite Hlo'. apply Qfloor_comp. by apply Q.max_r. }
    split; [done|]. rewrite Hlo'', Hup'.
    split; [|split; [apply Qfloor_eq_Qceiling|]].
    + split; [rewrite Zle_Qle; apply Qle_floor_ceiling | apply Qceiling_le_Qfloor_succ].
    + intros Hint. rewrite (rint_integer mu Hint).
      split; [done | symmetry; by apply Qfloor_eq_Qceiling].
Qed.

(** C8.  Every [ev_box] row of the table has [lower_bound >= 0],
    whatever the sign of [mean - k * std]. *)
Theorem ev_box_lower_bound_nonneg df rows iv :
  build_uncertainty_sets df = Ok rows -> iv ∈ rows ->
  uncertainty_type iv = "ev_box"%string ->
  (0 <= lower_bound iv)%Z.
Proof.
  intros Hb Hin Hty.
  destruct (ev_row_inv df rows iv Hb Hin Hty)
    as (_ & _ & mu & sigma & _ & _ & -> & _).
  apply Qfloor_nonneg.
  destruct (Qle_bool (mu - level iv * sigma) 0) eqn:Hcmp; [apply Qle_refl|].
  destruct (Qlt_le_dec 0 (mu - level iv * sigma)) as [Hlt|Hge]; [by apply Qlt_le_weak|].
  apply Qle_bool_iff in Hge. congruence.
Qed.

(** The two edges of one interval, for any level. *)
Lemma minmax_box_ordered df alpha hid iv :
  0 <= alpha ->
  minmax_box (compute_stats df) alpha hid = Ok iv ->
  (lower_bound iv <= upper_bound iv)%Z.
Proof.
  intros Ha Hiv. pose proof (minmax_box_hospital _ _ _ _ Hiv) as Hh.
  apply minmax_box_Ok in Hiv as (dmin & dmax & Hmin & Hmax & ->); [|done].
  cbn [lower_bound upper_bound].
  pose proof (series_min_le_max _ _ _ Hmin Hmax) as Hle.
  apply Qfloor_le_Qceiling.
  assert (0 <= (dmax - dmin) * alpha) by (apply Qmult_le_0_compat; lra).
  assert ((dmax - dmin) * (1 - alpha) / 2
          == ((dmax - dmin) - (dmax - dmin) * alpha) * (1 # 2)) as -> by field.
  lra.
Qed.

Lemma ev_box_ordered df k hid iv mu :
  0 <= k ->
  ev_box (compute_stats df) k hid = Ok iv ->
  series_mean (demands_of df hid) = Some mu -> 0 <= mu ->
  (lower_bound iv <= upper_bound iv)%Z.
Proof.
  intros Hk Hiv Hmu Hpos. pose proof (ev_box_hospital _ _ _ _ Hiv) as Hh.
  apply ev_box_Ok in Hiv as (mu' & sigma & Hmu' & Hsigma & ->); [|done].
  cbn [lower_bound upper_bound level].
  rewrite Hmu in Hmu'. injection Hmu' as <-.
  pose proof (series_std_nonneg _ _ Hsigma) as Hs.
  assert (0 <= k * sigma) by (by apply Qmult_le_0_compat).
  apply Qfloor_le_Qceiling.
  destruct (Qle_bool (mu - k * sigma) 0); lra.
Qed.


End Props.

(** *** Runs of the script *)

Ltac elem_of_list :=
  repeat first [apply list_elem_of_here | apply list_elem_of_further].



(** C6, as stated, fails: hospital H2 of [Sample.small_frame] has the
    demands 0 and 1, so [max > min], and its [minmax_box] interval is
    [0, 1] at level 1.0 and again [0, 1] at level 0.5, the edges 0.25
    and 0.75 being rounded outward; so it is on numpy's scalars, and
    also for the demands 0 and 3.  Past the numbers of the amended
    statement the interval at level 0.5 is not even within the other:
    for the integers [-2^62] and [2^62] the difference wraps around and
    the interval at level 0.5 is the wider one, and for [2^60] and
    [2^60 + 4] both levels give the one point [2^60]. *)
Lemma minmax_box_half_level_not_narrower :
  (exists iv1 iv5,
    build_uncertainty_sets (H := Sample.numpy_math) Sample.small_frame = Ok Sample.small_rows /\
    series_min (demands_of Sample.small_frame "H2") = Some 0 /\
    series_max (demands_of Sample.small_frame "H2") = Some 1 /\
    iv1 ∈ Sample.small_rows /\ iv5 ∈ Sample.small_rows /\
    iv1 = {| uncertainty_type := "minmax_box"; level := 1.0; hospital_id := "H2";
             lower_bound := 0; upper_bound := 1 |} /\
    iv5 = {| uncertainty_type := "minmax_box"; level := 0.5; hospital_id := "H2";
             lower_bound := 0; upper_bound := 1 |} /\
    ~ strictly_narrower iv5 iv1) /\
  minmax_edges (Int64 0) (Int64 1) 1.0 = (0, 1)%Z /\
  minmax_edges (Int64 0) (Int64 1) 0.5 = (0, 1)%Z /\
  minmax_edges (Int64 0) (Int64 3) 1.0 = (0, 3)%Z /\
  minmax_edges (Int64 0) (Int64 3) 0.5 = (0, 3)%Z /\
  minmax_edges (Int64 (- 2 ^ 62)) (Int64 (2 ^ 62)) 1.0 = (- 2 ^ 62, 2 ^ 62)%Z /\
  minmax_edges (Int64 (- 2 ^ 62)) (Int64 (2 ^ 62)) 0.5
    = (- 2 ^ 62 - 2 ^ 61, 2 ^ 62 + 2 ^ 61)%Z /\
  minmax_edges (Int64 (2 ^ 60)) (Int64 (2 ^ 60 + 4)) 1.0 = (2 ^ 60, 2 ^ 60)%Z /\
  minmax_edges (Int64 (2 ^ 60)) (Int64 (2 ^ 60 + 4)) 0.5 = (2 ^ 60, 2 ^ 60)%Z.
Proof.
  split; [|repeat split; vm_compute; reflexivity].
  do 2 eexists. split; [vm_compute; reflexivity|].
  do 2 (split; [vm_compute; reflexivity|]).
  split; [|split; [|split; [reflexivity|split; [reflexivity|]]]].
  - unfold Sample.small_rows. elem_of_list.
  - unfold Sample.small_rows. elem_of_list.
  - unfold strictly_narrower, interval_width. simpl. lia.
Qed.

Lemma minmax_box_half_level_witness :
  let iv1 := {| uncertainty_type := "minmax_box"; level := 1.0; hospital_id := "H3";
                lower_bound := 10; upper_bound := 30 |} in
  let iv5 := {| uncertainty_type := "minmax_box"; level := 0.5; hospital_id := "H3";
                lower_bound := 15; upper_bound := 25 |} in
  exact_frame Sample.small_frame /\
  within iv5 iv1 /\
  forall r r',
    r ∈ Sample.small_frame -> r' ∈ Sample.small_frame ->
    row_hospital_id r = hospital_id iv1 -> row_hospital_id r' = hospital_id iv1 ->
    (3 < row_demand r' - row_demand r -> strictly_narrower iv5 iv1) /\
    (4 <= row_demand r' - row_demand r ->
     (lower_bound iv1 < lower_bound iv5)%Z /\ (upper_bound iv5 < upper_bound iv1)%Z).
Proof.
  intros iv1 iv5.
  assert (exact_frame Sample.small_frame) as Hframe.
  { repeat constructor; vm_compute; congruence. }
  split; [exact Hframe|].
  apply (minmax_box_half_level (H := Sample.numpy_math) Sample.small_frame Sample.small_rows iv1 iv5).
  - vm_compute; reflexivity.
  - exact Hframe.
  - unfold Sample.small_rows, iv1. elem_of_list.
  - unfold Sample.small_rows, iv5. elem_of_list.
  - reflexivity.
  - reflexivity.
  - reflexivity.
  - reflexivity.
  - reflexivity.
Defined.

(** C7, as stated, fails: hospital H1 of [Sample.small_frame] has the
    demands 2 and 3, so the mean 2.5, and its [ev_box] row at [k = 0] has
    [lower_bound = 2] and [upper_bound = 3]: the two bounds differ, and
    the upper one is not the rounded mean, which is 2. *)
Lemma ev_box_zero_level_not_a_point :
  exists iv,
    build_uncertainty_sets (H := Sample.numpy_math) Sample.small_frame = Ok Sample.small_rows /\
    iv ∈ Sample.small_rows /\
    iv = {| uncertainty_type := "ev_box"; level := 0; hospital_id := "H1";
            lower_bound := 2; upper_bound := 3 |} /\
    series_mean (demands_of Sample.small_frame "H1") = Some (5 # 2) /\
    rint (5 # 2) = 2%Z /\
    lower_bound iv <> upper_bound iv /\
    upper_bound iv <> rint (5 # 2).
Proof.
  eexists. split; [vm_compute; reflexivity|].
  split; [|split; [reflexivity|]].
  - unfold Sample.small_rows. elem_of_list.
  - repeat split; try (vm_compute; reflexivity); simpl; discriminate.
Qed.

Lemma ev_box_zero_level_witness :
  (exists iv, iv ∈ Sample.small_rows /\ uncertainty_type iv = "ev_box"%string /\
     level iv == 0 /\ hospital_id iv = "H3"%string) /\
  (forall iv, iv ∈ Sample.small_rows -> uncertainty_type iv = "ev_box"%string ->
     level iv == 0 -> hospital_id iv = "H3"%string ->
     exists mu,
       series_mean (demands_of Sample.small_frame "H3") = Some mu /\
       lower_bound iv = Qfloor (Qmax 0 mu) /\
       upper_bound iv = Qceiling mu /\
       (0 <= mu ->
        lower_bound iv = Qfloor mu /\
        (lower_bound iv <= upper_bound iv <= lower_bound iv + 1)%Z /\
        (lower_bound iv = upper_bound iv <-> inject_Z (Qfloor mu) == mu) /\
        (inject_Z (Qfloor mu) == mu ->
         lower_bound iv = rint mu /\ upper_bound iv = rint mu))).
Proof.
  apply (ev_box_zero_level (H := Sample.numpy_math) Sample.small_frame Sample.small_rows "H3").
  - vm_compute; reflexivity.
  - elem_of_list.
Defined.

Lemma ev_box_lower_bound_nonneg_witness :
  let iv := {| uncertainty_type := "ev_box"; level := 2; hospital_id := "H3";
               lower_bound := 0; upper_bound := 49 |} in
  iv ∈ Sample.small_rows /\ (0 <= lower_bound iv)%Z.
Proof.
  intros iv. split; [unfold Sample.small_rows, iv; elem_of_list|].
  apply (ev_box_lower_bound_nonneg (H := Sample.numpy_math) Sample.small_frame Sample.small_rows iv).
  - vm_compute; reflexivity.
  - unfold Sample.small_rows, iv. elem_of_list.
  - reflexivity.
Defined.



End UncertaintyProps.

(** ** Formatted numbers *)

Lemma parse_nat_digits (n : nat) :
  parse_nat (NilZero.string_of_uint (Nat.to_uint n)) = Some n.
Proof.
  unfold parse_nat.
  assert (NilEmpty.uint_of_string (NilZero.string_of_uint (Nat.to_uint n))
          = Some (Nat.to_uint n)) as ->.
  { pose proof (DecimalNat.Unsigned.of_to n) as Hn.
    destruct (Nat.to_uint n) eqn:Hd; try apply NilEmpty.usu.
    simpl in Hn. subst n. discriminate Hd. }
  simpl. f_equal. apply DecimalNat.Unsigned.of_to.
Qed.

Lemma parse_nat_zero (s : string) :
  parse_nat (String "0" s) = parse_nat s.
Proof.
  unfold parse_nat. simpl.
  destruct (NilEmpty.uint_of_string s) as [d|]; reflexivity.
Qed.

Lemma parse_nat_format_0d (width n : nat) : parse_nat (format_0d width n) = Some n.
Proof.
  unfold format_0d, zero_pad.
  induction (width - _)%nat as [|k IH]; simpl.
  - rewrite String.string_of_list_ascii_of_string. apply parse_nat_digits.
  - rewrite parse_nat_zero. exact IH.
Qed.

Lemma format_0d_inj (width n m : nat) : format_0d width n = format_0d width m -> n = m.
Proof.
  intros Heq. pose proof (parse_nat_format_0d width n) as Hn.
  rewrite Heq, parse_nat_format_0d in Hn. by injection Hn.
Qed.

(** ** Loops that draw and may raise *)

Section SamplerLoops.
Context `{Generator} {A B : Type}.
Implicit Types (f : A -> sampler B) (l : list A) (k : list B).

Lemma sampler_bind_Ok {C D} (m : sampler C) (g : C -> sampler D) s d s' :
  (m ≫= g) s = Ok (d, s') <-> exists c s1, m s = Ok (c, s1) /\ g c s1 = Ok (d, s').
Proof.
  unfold mbind, sampler_bind. destruct (m s) as [[c s1]|e]; split.
  - eauto.
  - intros (c' & s1' & Hc & Hd). by inversion Hc; subst.
  - discriminate.
  - intros (c' & s1' & Hc & _). discriminate.
Qed.

Lemma sampler_ret_Ok {C} (c c' : C) s s' :
  (mret c : sampler C) s = Ok (c', s') <-> c = c' /\ s = s'.
Proof.
  unfold mret, sampler_ret. split.
  - by intros [= -> ->].
  - by intros [-> ->].
Qed.

Lemma lift_result_Ok {C} (r : result C) c s s' :
  lift_result r s = Ok (c, s') <-> r = Ok c /\ s = s'.
Proof.
  unfold lift_result. destruct r; split.
  - by intros [= -> ->].
  - by intros [[= ->] ->].
  - discriminate.
  - by intros [? _].
Qed.

Lemma draw_Ok {C} (g : rng_state -> C * rng_state) c s s' :
  draw g s = Ok (c, s') <-> c = fst (g s) /\ s' = snd (g s).
Proof.
  unfold draw. destruct (g s) as [c0 s0]. simpl. split.
  - by intros [= -> ->].
  - by intros [-> ->].
Qed.

(** Every element of the result of a loop was made by the body from the
    element of the list at the same place, in some state of the
    generator. *)
Lemma sampler_mapM_Ok_Forall2 f l s k s' :
  mapM f l s = Ok (k, s') ->
  Forall2 (fun x y => exists s0 s1, f x s0 = Ok (y, s1)) l k.
Proof.
  revert s k s'. induction l as [|x l IH]; intros s k s'; simpl.
  - intros [<- _]%sampler_ret_Ok. constructor.
  - intros (y & s1 & Hy & Hrest)%sampler_bind_Ok.
    apply sampler_bind_Ok in Hrest as (k' & s2 & Hk' & [<- _]%sampler_ret_Ok).
    constructor; [by exists s, s1 | by eapply IH].
Qed.

Lemma sampler_mapM_total f l :
  (forall x s, x ∈ l -> exists y s', f x s = Ok (y, s')) ->
  forall s, exists k s', mapM f l s = Ok (k, s').
Proof.
  induction l as [|x l IH]; intros Hf s; simpl.
  - by exists [], s.
  - destruct (Hf x s) as (y & s1 & Hy); [by left|].
    destruct (IH (fun x' s0 Hx' => Hf x' s0 (list_elem_of_further _ _ _ Hx')) s1)
      as (k & s2 & Hk).
    exists (y :: k), s2. apply sampler_bind_Ok. exists y, s1. split; [done|].
    apply sampler_bind_Ok. exists k, s2. split; [done|]. by apply sampler_ret_Ok.
Qed.

End SamplerLoops.

Lemma Forall2_fmap_eq {A B C} (g : A -> C) (h : B -> C) (l : list A) (k : list B) :
  Forall2 (fun x y => h y = g x) l k -> h <$> k = g <$> l.
Proof.
  induction 1 as [|x y l k Hxy _ IH]; [done|].
  rewrite !fmap_cons. by rewrite Hxy, IH.
Qed.

Lemma Forall2_Forall_r {A B} (R : A -> B -> Prop) (P : B -> Prop) l k :
  Forall2 R l k -> (forall x y, R x y -> P y) -> Forall P k.
Proof. induction 1; intros HP; constructor; eauto. Qed.

(** ** Duplicate rows *)

Lemma scenario_prob_eqb_refl (x : string * Q) : scenario_prob_eqb x x = true.
Proof.
  unfold scenario_prob_eqb. rewrite String.eqb_refl. simpl.
  apply Qeq_bool_iff. reflexivity.
Qed.

Lemma scenario_prob_eqb_fst (x y : string * Q) :
  scenario_prob_eqb x y = true -> fst x = fst y.
Proof.
  unfold scenario_prob_eqb. intros [Hs _]%andb_prop. by apply String.eqb_eq.
Qed.

Lemma existsb_scenario_prob_fresh (x : string * Q) (seen : list (string * Q)) :
  fst x ∉ fst <$> seen -> existsb (scenario_prob_eqb x) seen = false.
Proof.
  induction seen as [|y seen IH]; simpl; [done|].
  rewrite not_elem_of_cons. intros [Hne Hnin].
  rewrite (IH Hnin), orb_false_r.
  destruct (scenario_prob_eqb x y) eqn:Heq; [|done].
  by apply scenario_prob_eqb_fst in Heq.
Qed.

Lemma drop_duplicates_from_copies (x : string * Q) (n : nat) seen l :
  existsb (scenario_prob_eqb x) seen = true ->
  drop_duplicates_from seen (replicate n x ++ l) = drop_duplicates_from seen l.
Proof.
  intros Hseen. induction n as [|n IH]; simpl; [done|]. by rewrite Hseen.
Qed.

(** A frame that repeats every scenario on [S n] consecutive rows, the
    scenario ids being distinct, has one row per scenario once the
    duplicates are dropped. *)
Lemma drop_duplicates_from_repeated (n : nat) (ks seen : list (string * Q)) :
  NoDup (fst <$> ks) ->
  (forall x, x ∈ ks -> fst x ∉ fst <$> seen) ->
  drop_duplicates_from seen (ks ≫= replicate (S n)) = ks.
Proof.
  revert seen. induction ks as [|x ks IH]; intros seen Hnd Hfresh; [done|].
  rewrite fmap_cons in Hnd. apply NoDup_cons in Hnd as [Hx Hnd].
  change ((x :: ks) ≫= replicate (S n))
    with (x :: (replicate n x ++ (ks ≫= replicate (S n)))).
  cbn [drop_duplicates_from].
  rewrite existsb_scenario_prob_fresh by (apply Hfresh; by left).
  rewrite drop_duplicates_from_copies by (simpl; by rewrite scenario_prob_eqb_refl).
  f_equal. apply IH; [done|].
  intros y Hy. rewrite fmap_cons, not_elem_of_cons. split.
  - intros Heq. apply Hx. rewrite <- Heq. by apply list_elem_of_fmap_2.
  - apply Hfresh. by right.
Qed.

Lemma drop_duplicates_repeated (n : nat) (ks : list (string * Q)) :
  NoDup (fst <$> ks) -> drop_duplicates (ks ≫= replicate (S n)) = ks.
Proof.
  intros Hnd. apply drop_duplicates_from_repeated; [done|].
  intros x _. simpl. apply not_elem_of_nil.
Qed.

(** ** The continuous sampler *)

Module ContinuousProps.
Import Continuous.

Lemma hazard_weight_pos h : h ∈ _hazard_catalog -> 0 < weight h.
Proof.
  unfold _hazard_catalog. rewrite !elem_of_cons, elem_of_nil.
  intros [->|[->|[->|[->|[]]]]]; reflexivity.
Qed.

Lemma np_clip_min_nonneg (a : list Q) : Forall (Qle 0) (np_clip_min a 0).
Proof.
  unfold np_clip_min. apply Forall_fmap, Forall_forall.
  intros x _. simpl. apply Q.le_max_r.
Qed.

Lemma clipped_demand_length gs regional idio :
  length regional = 3%nat -> length idio = 3%nat ->
  length (clipped_demand gs regional idio) = 3%nat.
Proof.
  intros Hr Hi. unfold clipped_demand, np_clip_min, np_add, np_scale.
  rewrite length_fmap, !length_zip_with, length_fmap, Hr, Hi. reflexivity.
Qed.

Section Props.
Context `{NumpyMath} `{Generator}.

(** *** One draw *)

Lemma sample_draw_Ok idx s d s' :
  sample_draw _hazard_catalog hazard_probs idx s = Ok (d, s') -> sampled_draw idx d.
Proof.
  unfold sample_draw.
  intros (hazard_idx & s1 & [Hidx Hs1]%draw_Ok & Hd)%sampler_bind_Ok.
  apply sampler_bind_Ok in Hd as (hz & s2 & [Hhz Hs2]%lift_result_Ok & Hd).
  apply sampler_bind_Ok in Hd as (gs & s3 & [Hgs Hs3]%draw_Ok & Hd).
  apply sampler_bind_Ok in Hd as (regional & s4 & [Hreg Hs4]%draw_Ok & Hd).
  apply sampler_bind_Ok in Hd as (idio & s5 & [Hidio Hs5]%draw_Ok & Hd).
  apply sampler_ret_Ok in Hd as [<- _]. subst.
  unfold getitem in Hhz.
  destruct (_hazard_catalog !! _) as [hz'|] eqn:Hlook; [|discriminate].
  injection Hhz as ->.
  apply list_elem_of_lookup_2, hazard_weight_pos in Hlook.
  unfold sampled_draw, draw_shape.
  cbn [scenario_id raw_probability_weight demand_vector global_severity
       regional_component idiosyncratic_component].
  split; [done|]. split.
  - apply Qmult_lt_0_compat; [done|].
    match goal with |- 0 < np_log1p ?g + ?e =>
      assert (0 <= np_log1p g) by (apply np_log1p_nonneg, rng_lognormal_nonneg);
      assert (0 < e) by reflexivity; generalize dependent e; intros
    end.
    lra.
  - split; [reflexivity|].
    rewrite rng_multivariate_normal_length, rng_normal_length.
    split; [done|]. split; [done|].
    apply clipped_demand_length;
      [by rewrite rng_multivariate_normal_length | by rewrite rng_normal_length].
Qed.

Lemma sample_draw_total idx s :
  exists d s', sample_draw _hazard_catalog hazard_probs idx s = Ok (d, s').
Proof.
  unfold sample_draw.
  pose proof (rng_choice_lt (length _hazard_catalog) hazard_probs s) as Hlt.
  destruct (lookup_lt_is_Some_2 _hazard_catalog
              (fst (rng_choice (length _hazard_catalog) hazard_probs s)))
    as [hz Hhz]; [apply Hlt; simpl; lia|].
  do 2 eexists.
  apply sampler_bind_Ok. do 2 eexists. split; [by apply draw_Ok|].
  apply sampler_bind_Ok. do 2 eexists. split.
  { apply lift_result_Ok. split; [|done]. unfold getitem. by rewrite Hhz. }
  apply sampler_bind_Ok. do 2 eexists. split; [by apply draw_Ok|].
  apply sampler_bind_Ok. do 2 eexists. split; [by apply draw_Ok|].
  apply sampler_bind_Ok. do 2 eexists. split; [by apply draw_Ok|].
  by apply sampler_ret_Ok.
Qed.

(** *** The list of draws *)

Lemma sample_scenarios_raises n ib s :
  (n < baseline_slot ib)%Z -> sample_scenarios n ib s = Raise count_error.
Proof.
  intros Hn. unfold sample_scenarios, baseline_slot in *.
  destruct (Z.ltb_spec (n - (if ib then 1 else 0)) 0) as [_|Hge]; [done|].
  destruct ib; lia.
Qed.

Lemma sample_scenarios_Ok n ib s draws s' :
  sample_scenarios n ib s = Ok (draws, s') ->
  (baseline_slot ib <= n)%Z /\
  exists sampled,
    draws = baseline_draws ib ++ sampled /\
    Forall2 sampled_draw (range (n - baseline_slot ib)) sampled.
Proof.
  unfold sample_scenarios, baseline_slot, baseline_draws.
  destruct (Z.ltb_spec (n - (if ib then 1 else 0)) 0) as [|Hge]; [discriminate|].
  intros (sampled & s1 & Hloop & [<- _]%sampler_ret_Ok)%sampler_bind_Ok.
  split; [destruct ib; lia|]. exists sampled. split; [done|].
  apply sampler_mapM_Ok_Forall2 in Hloop.
  eapply Forall2_impl; [exact Hloop|].
  intros idx d (s0 & s2 & Hd). by eapply sample_draw_Ok.
Qed.

Lemma sample_scenarios_total n ib s :
  (baseline_slot ib <= n)%Z -> exists draws s', sample_scenarios n ib s = Ok (draws, s').
Proof.
  intros Hn. unfold sample_scenarios, baseline_slot in *.
  destruct (Z.ltb_spec (n - (if ib then 1 else 0)) 0) as [Hlt|_]; [destruct ib; lia|].
  destruct (sampler_mapM_total (sample_draw _hazard_catalog hazard_probs)
              (range (n - (if ib then 1 else 0)))
              (fun idx s0 _ => sample_draw_total idx s0) s) as (sampled & s1 & Hloop).
  do 2 eexists. apply sampler_bind_Ok. exists sampled, s1. split; [exact Hloop|].
  by apply sampler_ret_Ok.
Qed.

(** *** Sums of arrays *)

Lemma np_sum_div (a : list Q) (c : Q) : np_sum (np_div a c) == np_sum a / c.
Proof.
  unfold np_sum, np_div. induction a as [|x a IH]; simpl.
  - unfold Qdiv. ring.
  - rewrite IH. unfold Qdiv. ring.
Qed.

Lemma np_sum_scale (a : list Q) (c : Q) : np_sum (np_scale a c) == np_sum a * c.
Proof.
  unfold np_sum, np_scale. induction a as [|x a IH]; simpl.
  - ring.
  - rewrite IH. ring.
Qed.

Lemma np_sum_zeros (n : nat) (z : Q) : z == 0 -> np_sum (replicate n z) == 0.
Proof.
  intros Hz. unfold np_sum. induction n as [|n IH]; simpl; [reflexivity|].
  rewrite IH, Hz. ring.
Qed.

Lemma np_sum_pos (a : list Q) : Forall (Qlt 0) a -> a <> [] -> 0 < np_sum a.
Proof.
  unfold np_sum. induction 1 as [|x a Hx Ha IH]; [done|]. intros _. simpl.
  destruct a as [|y a]; simpl in *; [lra|].
  assert (0 < y + foldr Qplus 0 a) by (by apply IH). lra.
Qed.

Lemma np_sum_pos_nonneg (a : list Q) : Forall (Qlt 0) a -> 0 <= np_sum a.
Proof.
  intros Ha. destruct a as [|x a]; [apply Qle_refl|].
  apply Qlt_le_weak, np_sum_pos; done.
Qed.

Lemma np_sum_normalized (a : list Q) :
  ~ np_sum a == 0 -> np_sum (np_div a (np_sum a)) == 1.
Proof. intros Hne. rewrite np_sum_div. by field. Qed.

(** *** Scenario ids *)

Lemma sampled_id_not_baseline idx d :
  sampled_draw idx d -> scenario_id d <> "CSBASE"%string.
Proof.
  intros (Hid & _) Heq. rewrite Hid in Heq.
  change (String "C" (String "S" (format_0d 4 idx)) = "CSBASE"%string) in Heq.
  injection Heq as Heq.
  pose proof (parse_nat_format_0d 4 idx) as Hparse.
  rewrite Heq in Hparse. discriminate.
Qed.

Lemma sampled_ids idxs sampled :
  Forall2 sampled_draw idxs sampled ->
  scenario_id <$> sampled = (fun idx => ("CS" +:+ format_0d 4 idx)%string) <$> idxs.
Proof.
  intros HF. apply Forall2_fmap_eq.
  eapply Forall2_impl; [exact HF|]. by intros idx d (Hid & _).
Qed.

Lemma sampled_ids_NoDup (n : nat) :
  NoDup ((fun idx => ("CS" +:+ format_0d 4 idx)%string) <$> seq 0 n).
Proof.
  apply NoDup_fmap_2; [|apply NoDup_seq].
  intros i j Heq.
  change (String "C" (String "S" (format_0d 4 i))
          = String "C" (String "S" (format_0d 4 j))) in Heq.
  injection Heq as Heq. by eapply format_0d_inj.
Qed.

Lemma draws_ids_NoDup ib idxs sampled n :
  idxs = seq 0 n -> Forall2 sampled_draw idxs sampled ->
  NoDup (scenario_id <$> (baseline_draws ib ++ sampled)).
Proof.
  intros -> HF. rewrite fmap_app. apply NoDup_app. split; [|split].
  - destruct ib; simpl; [apply NoDup_singleton | apply NoDup_nil_2].
  - destruct ib; simpl; [|by intros ? ?%elem_of_nil].
    intros id ->%list_elem_of_singleton (d & Hid & Hd)%list_elem_of_fmap.
    apply list_elem_of_lookup in Hd as [i Hi].
    destruct (Forall2_lookup_r _ _ _ _ _ HF Hi) as (idx & _ & Hdraw).
    by apply sampled_id_not_baseline in Hdraw.
  - rewrite (sampled_ids _ _ HF). apply sampled_ids_NoDup.
Qed.

Lemma sampled_weights_pos idxs sampled :
  Forall2 sampled_draw idxs sampled ->
  Forall (Qlt 0) (raw_probability_weight <$> sampled).
Proof.
  intros HF. apply Forall_fmap.
  eapply Forall2_Forall_r; [exact HF|]. by intros idx d (_ & Hw & _).
Qed.

(** *** The probabilities of the draws *)

Lemma baseline_indices_none (draws : list ScenarioDraw) (f : nat -> nat) :
  Forall (fun d => scenario_id d <> "CSBASE"%string) draws ->
  filter (fun '(idx, d) => scenario_id d = "CSBASE"%string)
         (imap (fun i d => (f i, d)) draws) = [].
Proof.
  intros HF. revert f. induction HF as [|d draws Hd _ IH]; intros f; [done|].
  rewrite imap_cons, filter_cons_False by done. apply (IH (f ∘ S)).
Qed.

(** Without a baseline scenario in the list, or with the reservation
    switched off, the probabilities are the normalized weights. *)
Lemma scenario_probabilities_plain inc share draws :
  inc = false \/ share = None \/
    Forall (fun d => scenario_id d <> "CSBASE"%string) draws ->
  scenario_probabilities inc share draws = Ok (normalized draws).
Proof.
  unfold scenario_probabilities. intros Hcase.
  destruct inc; [|done]. destruct share as [cfg|]; [|done].
  destruct Hcase as [|[|HF]]; [done..|].
  pose proof (baseline_indices_none draws id HF) as Hnone.
  change (imap _ draws) with (enumerate draws) in Hnone. by rewrite Hnone.
Qed.

(** With the baseline scenario first in the list and a share reserved. *)
Lemma scenario_probabilities_baseline cfg sampled :
  let ws := raw_probability_weight <$> sampled in
  let total := BASELINE_WEIGHT + np_sum ws in
  let share := Qmin (Qmax cfg 0.0) 0.95 in
  let residual := 1.0 - BASELINE_WEIGHT / total in
  scenario_probabilities true (Some cfg) (_build_baseline_draw :: sampled) =
  Ok (if Qle_bool residual 0
      then 1.0 :: replicate (length sampled) 0.0
      else share :: np_scale (np_div ws total) ((1.0 - share) / residual)).
Proof.
  intros ws total share residual. unfold scenario_probabilities, enumerate.
  rewrite imap_cons, filter_cons_True by done.
  cbn [fmap list_fmap fst]. unfold getitem.
  change (np_div (_ :: _) _) with (BASELINE_WEIGHT / total :: np_div ws total).
  cbn [lookup list_lookup mbind result_bind].
  fold residual. fold share.
  destruct (Qle_bool residual 0); cbn [mret result_ret].
  - rewrite length_cons. cbn [replicate insert list_insert]. unfold np_div, ws.
    by rewrite !length_fmap.
  - reflexivity.
Qed.

Lemma baseline_residual sampled :
  let ws := raw_probability_weight <$> sampled in
  Forall (Qlt 0) ws -> sampled <> [] ->
  Qle_bool (1.0 - BASELINE_WEIGHT / (BASELINE_WEIGHT + np_sum ws)) 0 = false.
Proof.
  intros ws Hpos Hne.
  assert (0 < np_sum ws) as Hsum.
  { apply np_sum_pos; [done|]. unfold ws. by destruct sampled. }
  destruct (Qle_bool _ 0) eqn:Hcmp; [|done]. apply Qle_bool_iff in Hcmp.
  unfold BASELINE_WEIGHT in Hcmp.
  assert (1.0 - 1.0 / (1.0 + np_sum ws) == np_sum ws / (1 + np_sum ws)) as Heq
    by (field; lra).
  rewrite Heq in Hcmp.
  assert (0 < np_sum ws / (1 + np_sum ws)); [|lra].
  apply Qlt_shift_div_l; lra.
Qed.

(** The probabilities sum to one on both branches of the reservation. *)
Lemma baseline_probabilities_sum cfg sampled probs :
  Forall (Qlt 0) (raw_probability_weight <$> sampled) ->
  scenario_probabilities true (Some cfg) (_build_baseline_draw :: sampled) = Ok probs ->
  length probs = S (length sampled) /\ np_sum probs == 1.
Proof.
  intros Hpos. rewrite scenario_probabilities_baseline.
  set (ws := raw_probability_weight <$> sampled) in *.
  set (share := Qmin (Qmax cfg 0.0) 0.95).
  destruct (Qle_bool _ 0) eqn:Hcmp; intros [= <-].
  - split; [by rewrite length_cons, length_replicate|].
    change (np_sum (1.0 :: ?a)) with (1.0 + np_sum a).
    rewrite np_sum_zeros by reflexivity. ring.
  - split.
    { unfold np_scale, np_div, ws. by rewrite length_cons, !length_fmap. }
    change (np_sum (share :: ?a)) with (share + np_sum a).
    rewrite np_sum_scale, np_sum_div.
    pose proof (np_sum_pos_nonneg ws Hpos) as Hsum.
    assert (~ np_sum ws == 0) as Hne.
    { intros Hz. unfold BASELINE_WEIGHT in Hcmp.
      assert (1.0 - 1.0 / (1.0 + np_sum ws) == 0) as Hr by (rewrite Hz; reflexivity).
      rewrite (Qleb_comp _ _ Hr _ _ (Qeq_refl 0)) in Hcmp. discriminate. }
    unfold BASELINE_WEIGHT. field. split; lra.
Qed.

Lemma normalized_sum draws :
  Forall (Qlt 0) (raw_probability_weight <$> draws) -> draws <> [] ->
  length (normalized draws) = length draws /\ np_sum (normalized draws) == 1.
Proof.
  intros Hpos Hne. split.
  - unfold normalized, np_div. by rewrite !length_fmap.
  - apply np_sum_normalized.
    assert (0 < np_sum (raw_probability_weight <$> draws)); [|lra].
    apply np_sum_pos; [done | by destruct draws].
Qed.

(** *** The rows of the frame *)

Lemma hospital_rows_Ok d p :
  draw_shape d ->
  exists rows,
    hospital_rows hospitals d p = Ok rows /\
    scenario_probs rows = replicate 3 (scenario_id d, p) /\
    (Forall (Qle 0) (demand_vector d) -> Forall (fun r => 0 <= demand r) rows).
Proof.
  intros (Hr & Hi & Hv). unfold hospital_rows.
  destruct (regional_component d) as [|r0 [|r1 [|r2 [|]]]]; try discriminate.
  destruct (idiosyncratic_component d) as [|i0 [|i1 [|i2 [|]]]]; try discriminate.
  destruct (demand_vector d) as [|v0 [|v1 [|v2 [|]]]]; try discriminate.
  eexists. split; [reflexivity|]. split; [reflexivity|].
  intros Hpos. apply Forall_cons in Hpos as [H0' Hpos].
  apply Forall_cons in Hpos as [H1' Hpos]. apply Forall_cons in Hpos as [H2' _].
  repeat constructor; cbn [demand]; by apply np_round_nonneg.
Qed.

Lemma dataframe_rows_Ok draws probs :
  Forall draw_shape draws ->
  exists rows,
    dataframe_rows draws probs = Ok rows /\
    scenario_probs rows = zip (scenario_id <$> draws) probs ≫= replicate 3 /\
    (Forall (fun d => Forall (Qle 0) (demand_vector d)) draws ->
     Forall (fun r => 0 <= demand r) rows).
Proof.
  intros Hshape. unfold dataframe_rows.
  enough (exists per_draw,
             mapM (fun '(d, p) => hospital_rows hospitals d p) (zip draws probs)
               = Ok per_draw /\
             scenario_probs (concat per_draw)
               = zip (scenario_id <$> draws) probs ≫= replicate 3 /\
             (Forall (fun d => Forall (Qle 0) (demand_vector d)) draws ->
              Forall (fun r => 0 <= demand r) (concat per_draw)))
    as (per_draw & Hmap & Hkeys & Hdem).
  { exists (concat per_draw). split; [|done].
    apply result_bind_Ok. by exists per_draw. }
  revert probs. induction Hshape as [|d draws Hd _ IH]; intros probs.
  - exists []. repeat split; constructor.
  - destruct probs as [|p probs].
    { exists []. repeat split; constructor. }
    destruct (hospital_rows_Ok d p Hd) as (rows3 & Hrows3 & Hkeys3 & Hdem3).
    destruct (IH probs) as (per_draw & Hmap & Hkeys & Hdem).
    exists (rows3 :: per_draw). split; [|split].
    + cbn [zip zip_with mapM]. rewrite Hrows3. cbn [mbind result_bind].
      rewrite Hmap. reflexivity.
    + cbn [concat]. unfold scenario_probs in *. rewrite fmap_app, Hkeys3, Hkeys.
      reflexivity.
    + intros [Hd0 Hrest]%Forall_cons. cbn [concat]. apply Forall_app. auto.
Qed.

Lemma frame_scenarios (ids : list string) (probs : list Q) (keys : list (string * Q)) :
  NoDup ids -> length probs = length ids ->
  keys = zip ids probs ≫= replicate 3 ->
  drop_duplicates keys = zip ids probs.
Proof.
  intros Hnd Hlen ->. apply (drop_duplicates_repeated 2). by rewrite fst_zip by lia.
Qed.

Lemma frame_probability_sum (ids : list string) (probs : list Q) (keys : list (string * Q)) :
  NoDup ids -> length probs = length ids ->
  keys = zip ids probs ≫= replicate 3 ->
  probability_sum keys = np_sum probs.
Proof.
  intros Hnd Hlen Hkeys. unfold probability_sum.
  rewrite (frame_scenarios ids probs keys Hnd Hlen Hkeys). by rewrite snd_zip by lia.
Qed.

Lemma baseline_draw_shape : draw_shape _build_baseline_draw.
Proof. repeat split. Qed.

Lemma baseline_draw_demand_pos : Forall (Qlt 0) (demand_vector _build_baseline_draw).
Proof. repeat constructor. Qed.

Lemma draws_shape ib idxs sampled :
  Forall2 sampled_draw idxs sampled -> Forall draw_shape (baseline_draws ib ++ sampled).
Proof.
  intros HF. apply Forall_app. split.
  - destruct ib; repeat constructor.
  - eapply Forall2_Forall_r; [exact HF|]. by intros idx d (_ & _ & _ & Hs).
Qed.

Lemma draws_demand_nonneg ib idxs sampled :
  Forall2 sampled_draw idxs sampled ->
  Forall (fun d => Forall (Qle 0) (demand_vector d)) (baseline_draws ib ++ sampled).
Proof.
  intros HF. apply Forall_app. split.
  - destruct ib; repeat constructor; discriminate.
  - eapply Forall2_Forall_r; [exact HF|]. intros idx d (_ & _ & -> & _).
    apply np_clip_min_nonneg.
Qed.

Lemma draws_weights_pos ib idxs sampled :
  Forall2 sampled_draw idxs sampled ->
  Forall (Qlt 0) (raw_probability_weight <$> baseline_draws ib ++ sampled).
Proof.
  intros HF. rewrite fmap_app. apply Forall_app. split.
  - destruct ib; repeat constructor.
  - by eapply sampled_weights_pos.
Qed.

(** The probabilities of the draws of [sample_scenarios], for either
    value of the two constants [build_dataframe] reads. *)
Lemma scenario_probabilities_Ok inc share ib idxs sampled :
  Forall2 sampled_draw idxs sampled ->
  exists probs,
    scenario_probabilities inc share (baseline_draws ib ++ sampled) = Ok probs /\
    length probs = length (baseline_draws ib ++ sampled) /\
    (baseline_draws ib ++ sampled <> [] -> np_sum probs == 1).
Proof.
  intros HF.
  pose proof (draws_weights_pos ib _ _ HF) as Hpos.
  assert (inc = true /\ (exists cfg, share = Some cfg) /\ ib = true \/
          (inc = false \/ share = None \/
           Forall (fun d => scenario_id d <> "CSBASE"%string)
                  (baseline_draws ib ++ sampled))) as [(-> & [cfg ->] & ->)|Hplain].
  { destruct inc; [|by auto]. destruct share as [cfg|]; [|by auto].
    destruct ib; [left; eauto|]. right. right. right. simpl.
    eapply Forall2_Forall_r; [exact HF|]. apply sampled_id_not_baseline. }
  - simpl in *. apply Forall_cons in Hpos as [_ Hpos].
    destruct (scenario_probabilities true (Some cfg) (_build_baseline_draw :: sampled))
      as [probs|e] eqn:Hprobs.
    + destruct (baseline_probabilities_sum cfg sampled probs Hpos Hprobs) as [Hlen Hsum].
      exists probs. by repeat split.
    + rewrite scenario_probabilities_baseline in Hprobs.
      destruct (Qle_bool _ 0); discriminate.
  - rewrite (scenario_probabilities_plain _ _ _ Hplain).
    exists (normalized (baseline_draws ib ++ sampled)). split; [done|].
    split; [unfold normalized, np_div; by rewrite !length_fmap|].
    intros Hne. by apply normalized_sum.
Qed.

(** [generate] returns a frame whenever the count leaves room for the
    baseline scenario; what the frame is. *)
Lemma generate_Ok n ib s :
  (baseline_slot ib <= n)%Z ->
  exists sampled probs df s',
    sample_scenarios n ib s = Ok (baseline_draws ib ++ sampled, s') /\
    Forall2 sampled_draw (range (n - baseline_slot ib)) sampled /\
    scenario_probabilities INCLUDE_BASELINE_SCENARIO BASELINE_PROBABILITY_SHARE
      (baseline_draws ib ++ sampled) = Ok probs /\
    length probs = length (baseline_draws ib ++ sampled) /\
    generate n ib s = Ok (df, s') /\
    scenario_probs df
      = zip (scenario_id <$> baseline_draws ib ++ sampled) probs ≫= replicate 3 /\
    Forall (fun r => 0 <= demand r) df.
Proof.
  intros Hn.
  destruct (sample_scenarios_total n ib s Hn) as (draws & s' & Hdraws).
  destruct (sample_scenarios_Ok _ _ _ _ _ Hdraws) as (_ & sampled & -> & HF).
  destruct (scenario_probabilities_Ok INCLUDE_BASELINE_SCENARIO BASELINE_PROBABILITY_SHARE
              ib _ _ HF) as (probs & Hprobs & Hlen & _).
  destruct (dataframe_rows_Ok (baseline_draws ib ++ sampled) probs (draws_shape ib _ _ HF))
    as (df & Hdf & Hkeys & Hdem).
  exists sampled, probs, df, s'. repeat (split; [done|]). split; [|split; [done|]].
  - unfold generate. apply sampler_bind_Ok. do 2 eexists. split; [exact Hdraws|].
    apply lift_result_Ok. split; [|done]. unfold build_dataframe.
    apply result_bind_Ok. by exists probs.
  - apply Hdem. by eapply draws_demand_nonneg.
Qed.

Lemma range_length (n : Z) : length (range n) = Z.to_nat n.
Proof. unfold range. apply length_seq. Qed.

Lemma draws_nonempty n ib idxs sampled :
  (1 <= n)%Z -> idxs = range (n - baseline_slot ib) ->
  Forall2 sampled_draw idxs sampled -> baseline_draws ib ++ sampled <> [].
Proof.
  intros Hn -> HF. destruct ib; [done|]. simpl.
  apply Forall2_length in HF. rewrite range_length in HF. simpl in HF.
  destruct sampled; [simpl in HF; lia | done].
Qed.

(** The frame of the continuous generator: it has as many scenarios as
    asked for, and their probabilities sum to one. *)
Lemma generate_probability_sum n ib s :
  (1 <= n)%Z ->
  exists df s',
    generate n ib s = Ok (df, s') /\
    summary_num_scenarios df = Z.to_nat n /\
    summary_probability_sum df == 1.
Proof.
  intros Hn.
  destruct (generate_Ok n ib s)
    as (sampled & probs & df & s' & _ & HF & Hprobs & Hlen & Hgen & Hkeys & _).
  { unfold baseline_slot. destruct ib; lia. }
  exists df, s'. split; [done|]. split.
  { unfold summary_num_scenarios.
    rewrite (frame_scenarios _ probs _ (draws_ids_NoDup ib _ _ _ eq_refl HF)
               ltac:(by rewrite length_fmap) Hkeys).
    rewrite length_zip, length_fmap, Hlen, Nat.min_id, length_app.
    apply Forall2_length in HF. rewrite <- HF, range_length.
    unfold baseline_slot. destruct ib; simpl; lia. }
  unfold summary_probability_sum.
  rewrite (frame_probability_sum _ probs _ (draws_ids_NoDup ib _ _ _ eq_refl HF)
             ltac:(by rewrite length_fmap) Hkeys).
  destruct (scenario_probabilities_Ok INCLUDE_BASELINE_SCENARIO BASELINE_PROBABILITY_SHARE
              ib _ _ HF) as (probs' & Hprobs' & _ & Hsum).
  rewrite Hprobs in Hprobs'. injection Hprobs' as <-.
  apply Hsum. by eapply draws_nonempty.
Qed.

Lemma generate_demand_nonneg n ib s df s' :
  generate n ib s = Ok (df, s') -> Forall (fun r => 0 <= demand r) df.
Proof.
  intros Hgen.
  assert (baseline_slot ib <= n)%Z as Hn.
  { apply sampler_bind_Ok in Hgen as (draws & s1 & Hdraws & _).
    by apply sample_scenarios_Ok in Hdraws as [? _]. }
  destruct (generate_Ok n ib s Hn) as (_ & _ & df' & s'' & _ & _ & _ & _ & Hgen' & _ & Hdem).
  rewrite Hgen in Hgen'. by injection Hgen' as -> _.
Qed.

(** *** The reserved share *)

Lemma filter_Forall_id {A} (P : A -> Prop) `{forall x, Decision (P x)} (l : list A) :
  Forall P l -> filter P l = l.
Proof.
  induction 1 as [|x l Hx _ IH]; [done|]. by rewrite filter_cons_True, IH.
Qed.

(** C4.  With the baseline scenario enabled, the share 0.35 reserved and
    at least one sampled draw, the baseline scenario "CSBASE" has
    probability 0.35, every other draw has its normalized weight times
    one common positive factor, and the other probabilities sum to
    0.65; so it is in the frame that [generate] returns. *)
Theorem baseline_share_reserved n s :
  (2 <= n)%Z ->
  exists sampled others df s',
    sample_scenarios n true s = Ok (_build_baseline_draw :: sampled, s') /\
    scenario_id _build_baseline_draw = "CSBASE"%string /\
    Forall (fun d => scenario_id d <> "CSBASE"%string) sampled /\
    scenario_probabilities INCLUDE_BASELINE_SCENARIO BASELINE_PROBABILITY_SHARE
      (_build_baseline_draw :: sampled) = Ok (0.35 :: others) /\
    (exists factor, 0 < factor /\
       others = np_scale (tail (normalized (_build_baseline_draw :: sampled))) factor) /\
    np_sum others == 0.65 /\
    generate n true s = Ok (df, s') /\
    (exists r, r ∈ df /\ row_scenario_id r = "CSBASE"%string) /\
    (forall r, r ∈ df -> row_scenario_id r = "CSBASE"%string ->
       scenario_probability r = 0.35) /\
    probability_sum (other_scenarios (scenario_probs df)) == 0.65.
Proof.
  intros Hn.
  destruct (generate_Ok n true s)
    as (sampled & probs & df & s' & Hdraws & HF & Hprobs & Hlen & Hgen & Hkeys & _);
    [simpl; lia|].
  change (baseline_draws true ++ sampled) with (_build_baseline_draw :: sampled) in *.
  change (baseline_slot true) with 1%Z in HF.
  pose proof (sampled_weights_pos _ _ HF) as Hpos.
  assert (sampled <> []) as Hne.
  { apply Forall2_length in HF. rewrite range_length in HF.
    destruct sampled; [simpl in HF; lia | done]. }
  assert (Forall (fun d => scenario_id d <> "CSBASE"%string) sampled) as Hids.
  { eapply Forall2_Forall_r; [exact HF|]. apply sampled_id_not_baseline. }
  pose proof (baseline_probabilities_sum 0.35 sampled probs Hpos Hprobs) as [_ Hsum].
  pose proof Hprobs as Hform.
  unfold INCLUDE_BASELINE_SCENARIO, BASELINE_PROBABILITY_SHARE in Hform.
  rewrite scenario_probabilities_baseline, (baseline_residual sampled Hpos Hne) in Hform.
  change (Qmin (Qmax 0.35 0.0) 0.95) with 0.35 in Hform.
  set (total := BASELINE_WEIGHT + np_sum (raw_probability_weight <$> sampled)) in Hform.
  set (factor := (1.0 - 0.35) / (1.0 - BASELINE_WEIGHT / total)) in Hform.
  set (others := np_scale (np_div (raw_probability_weight <$> sampled) total) factor) in Hform.
  injection Hform as <-.
  change (np_sum (0.35 :: others)) with (0.35 + np_sum others) in Hsum.
  assert (np_sum others == 0.65) as Hothers by lra.
  exists sampled, others, df, s'.
  split; [done|]. split; [done|]. split; [done|]. split; [done|]. split.
  { exists factor. split; [|done].
    pose proof (baseline_residual sampled Hpos Hne) as Hres. fold total in Hres.
    destruct (Qlt_le_dec 0 (1.0 - BASELINE_WEIGHT / total)) as [Hlt|Hle].
    - unfold factor. apply Qlt_shift_div_l; [done|]. rewrite Qmult_0_l. reflexivity.
    - apply Qle_bool_iff in Hle. congruence. }
  split; [done|]. split; [done|].
  assert (scenario_probs df
          = replicate 3 ("CSBASE"%string, 0.35)
            ++ (zip (scenario_id <$> sampled) others ≫= replicate 3)) as Hkeys' by done.
  assert (forall key, key ∈ zip (scenario_id <$> sampled) others ≫= replicate 3 ->
                      fst key <> "CSBASE"%string) as Hrest.
  { intros key' ([id p] & Hin & Hkey)%list_elem_of_bind.
    apply elem_of_replicate in Hin as [-> _]. simpl.
    apply elem_of_zip_l, list_elem_of_fmap in Hkey as (d & -> & Hd).
    by eapply Forall_forall in Hids. }
  split; [|split].
  - assert (("CSBASE"%string, 0.35) ∈ scenario_probs df) as Hin.
    { rewrite Hkeys'. apply elem_of_app. left. by left. }
    apply list_elem_of_fmap in Hin as (r & Hr & Hin). exists r.
    split; [done|]. by injection Hr.
  - intros r Hr Hid.
    assert ((row_scenario_id r, scenario_probability r) ∈ scenario_probs df) as Hin.
    { unfold scenario_probs.
      by apply (list_elem_of_fmap_2 (fun r => (row_scenario_id r, scenario_probability r))). }
    rewrite Hkeys' in Hin. apply elem_of_app in Hin as [Hin|Hin].
    + apply elem_of_replicate in Hin as [Heq _]. by injection Heq.
    + apply Hrest in Hin. done.
  - unfold other_scenarios. rewrite Hkeys', filter_app.
    rewrite (filter_Forall_id _ (zip _ _ ≫= _)) by (by apply Forall_forall).
    change (filter _ (replicate 3 ("CSBASE"%string, 0.35))) with (@nil (string * Q)).
    rewrite app_nil_l.
    rewrite (frame_probability_sum (scenario_id <$> sampled) others); [done| | |done].
    + pose proof (draws_ids_NoDup false _ _ _ eq_refl HF) as Hnd. by simpl in Hnd.
    + unfold others, np_scale, np_div. by rewrite !length_fmap.
Qed.

(** *** The check of the scenario count *)

(** [sample_scenarios] raises its [ValueError] exactly when
    [num_scenarios - (1 if include_baseline else 0) < 0], raises nothing
    else, and for every other count returns that many draws. *)
Lemma sample_scenarios_count_check n ib s :
  (sample_scenarios n ib s = Raise count_error <-> (n < baseline_slot ib)%Z) /\
  (forall e, sample_scenarios n ib s = Raise e -> e = count_error) /\
  ((baseline_slot ib <= n)%Z ->
   exists draws s', sample_scenarios n ib s = Ok (draws, s') /\
                    length draws = Z.to_nat n).
Proof.
  assert ((baseline_slot ib <= n)%Z ->
          exists draws s', sample_scenarios n ib s = Ok (draws, s') /\
                           length draws = Z.to_nat n) as Hok.
  { intros Hn. destruct (sample_scenarios_total n ib s Hn) as (draws & s' & Hdraws).
    exists draws, s'. split; [done|].
    apply sample_scenarios_Ok in Hdraws as (_ & sampled & -> & HF).
    apply Forall2_length in HF. rewrite range_length in HF.
    rewrite length_app, <- HF. unfold baseline_slot in *. destruct ib; simpl; lia. }
  destruct (Z.lt_ge_cases n (baseline_slot ib)) as [Hlt|Hge].
  - pose proof (sample_scenarios_raises n ib s Hlt) as Hraise.
    split; [by split|]. split; [|lia].
    intros e He. rewrite Hraise in He. by injection He.
  - destruct (Hok Hge) as (draws & s' & Hdraws & _).
    split; [|split; [|done]].
    + split; [|lia]. intros Hraise. rewrite Hraise in Hdraws. discriminate.
    + intros e He. rewrite He in Hdraws. discriminate.
Qed.

End Props.
End ContinuousProps.

(** ** The discrete builder *)

Module DiscreteProps.
Import Discrete.

Lemma discrete_rows_Ok : rows = Ok frame.
Proof. vm_compute. reflexivity. Qed.

Lemma discrete_probability_sum : probability_sum (scenario_probs frame) == 1.
Proof. vm_compute. reflexivity. Qed.


End DiscreteProps.

(** ** The hybrid sampler *)

Module HybridProps.
Import Hybrid.

Lemma expected_probability_sum : probability_sum expected_scenario_probs == 1.
Proof. vm_compute. reflexivity. Qed.

Lemma expected_num_scenarios : length (drop_duplicates expected_scenario_probs) = 400%nat.
Proof. vm_compute. reflexivity. Qed.

Lemma fmap_concat_Forall2 {A B C} (h : B -> C) (g : A -> list C)
    (l : list A) (kk : list (list B)) :
  Forall2 (fun x k => h <$> k = g x) l kk -> h <$> concat kk = l ≫= g.
Proof.
  induction 1 as [|x k l kk Hxk _ IH]; [done|].
  cbn [concat]. by rewrite fmap_app, Hxk, IH.
Qed.

Lemma Forall_concat {A} (P : A -> Prop) (ls : list (list A)) :
  Forall (Forall P) ls -> Forall P (concat ls).
Proof. induction 1; simpl; [constructor | by apply Forall_app]. Qed.

Section Props.
Context `{Generator}.

(** The rows of one sample. *)
Lemma sample_rows_Ok sid dtype base_demand probability sample_idx s rows3 s' :
  sample_rows sid dtype base_demand probability sample_idx s = Ok (rows3, s') ->
  scenario_probs rows3
    = replicate 3 (sample_id sid sample_idx, sample_probability probability) /\
  Forall (fun r => (0 <= demand r)%Z) rows3.
Proof.
  unfold sample_rows.
  intros (regional & s1 & _ & Hrows)%sampler_bind_Ok.
  apply sampler_bind_Ok in Hrows as (idio & s2 & _ & Hrows).
  apply lift_result_Ok in Hrows as [Hrows _].
  apply mapM_Ok_Forall2 in Hrows.
  set (demands := rint <$> np_clip_min (np_add (np_add base_demand regional) idio) 0) in Hrows.
  assert (Forall2 (fun (x : nat * string) r =>
            (scenario_id r, scenario_probability r)
              = (sample_id sid sample_idx, sample_probability probability) /\
            (0 <= demand r)%Z) (enumerate hospital_ids) rows3) as Hrows'.
  { eapply Forall2_impl; [exact Hrows|]. intros [i hid] r Hr. simpl in Hr.
    apply result_bind_Ok in Hr as ([[[hname cap] alloc] surge] & _ & Hr).
    apply result_bind_Ok in Hr as (demand_i & Hdemand & Hr).
    apply result_bind_Ok in Hr as (regional_i & _ & Hr).
    apply result_bind_Ok in Hr as (idio_i & _ & Hr).
    injection Hr as <-. split; [done|]. cbn [demand].
    unfold getitem in Hdemand.
    destruct (demands !! i) as [z|] eqn:Hlook; [|discriminate].
    injection Hdemand as <-. unfold demands in Hlook.
    apply list_lookup_fmap_Some in Hlook as (q & -> & Hq).
    apply rint_nonneg. apply list_elem_of_lookup_2 in Hq.
    pose proof (ContinuousProps.np_clip_min_nonneg
                  (np_add (np_add base_demand regional) idio)) as Hclip.
    by eapply Forall_forall in Hclip. }
  split.
  - unfold scenario_probs.
    rewrite (Forall2_fmap_eq
               (fun _ => (sample_id sid sample_idx, sample_probability probability))
               (fun r => (scenario_id r, scenario_probability r))
               (enumerate hospital_ids) rows3); [done|].
    eapply Forall2_impl; [exact Hrows'|]. by intros x r [Hkey _].
  - eapply Forall2_Forall_r; [exact Hrows'|]. by intros x r [_ Hdem].
Qed.

(** The demand on the rows of one sample: the demand of the scenario
    plus the two components, clipped at zero and rounded. *)
Lemma sample_rows_demand sid dtype base_demand probability sample_idx s rows3 s' :
  sample_rows sid dtype base_demand probability sample_idx s = Ok (rows3, s') ->
  exists regional idio,
    Forall2 (fun (x : nat * string) r =>
               (rint <$> np_clip_min (np_add (np_add base_demand regional) idio) 0)
                 !! fst x = Some (demand r))
            (enumerate hospital_ids) rows3.
Proof.
  unfold sample_rows.
  intros (regional & s1 & _ & Hrows)%sampler_bind_Ok.
  apply sampler_bind_Ok in Hrows as (idio & s2 & _ & Hrows).
  apply lift_result_Ok in Hrows as [Hrows _].
  apply mapM_Ok_Forall2 in Hrows. exists regional, idio.
  eapply Forall2_impl; [exact Hrows|]. intros [i hid] r Hr. simpl in Hr.
  apply result_bind_Ok in Hr as ([[[hname cap] alloc] surge] & _ & Hr).
  apply result_bind_Ok in Hr as (demand_i & Hdemand & Hr).
  apply result_bind_Ok in Hr as (regional_i & _ & Hr).
  apply result_bind_Ok in Hr as (idio_i & _ & Hr).
  injection Hr as <-. cbn [demand fst]. unfold getitem in Hdemand.
  destruct (_ !! i) as [z|]; [|discriminate]. by injection Hdemand as <-.
Qed.


Lemma sample_rows_total sid dtype base_demand probability sample_idx s :
  length base_demand = 3%nat ->
  exists rows3 s', sample_rows sid dtype base_demand probability sample_idx s = Ok (rows3, s').
Proof.
  intros Hbase. unfold sample_rows.
  pose proof (rng_multivariate_normal_length (np_zeros num_hospitals) BASE_COV s) as Hr.
  destruct (rng_multivariate_normal (np_zeros num_hospitals) BASE_COV s)
    as [regional s1] eqn:Hdraw1.
  pose proof (rng_normal_length 0.0 5.0 num_hospitals s1) as Hi.
  destruct (rng_normal 0.0 5.0 num_hospitals s1) as [idio s2] eqn:Hdraw2.
  simpl in Hr, Hi.
  destruct base_demand as [|b0 [|b1 [|b2 [|]]]]; try discriminate.
  destruct regional as [|r0 [|r1 [|r2 [|]]]]; try discriminate.
  destruct idio as [|i0 [|i1 [|i2 [|]]]]; try discriminate.
  do 2 eexists. apply sampler_bind_Ok. exists [r0; r1; r2], s1.
  split; [apply draw_Ok; by rewrite Hdraw1|].
  apply sampler_bind_Ok. exists [i0; i1; i2], s2.
  split; [apply draw_Ok; by rewrite Hdraw2|].
  apply lift_result_Ok. split; reflexivity.
Qed.

Lemma scenario_rows_Ok scenario s df s' :
  scenario_rows scenario s = Ok (df, s') ->
  scenario_probs df = expected_scenario scenario /\
  Forall (fun r => (0 <= demand r)%Z) df.
Proof.
  destruct scenario as [sid [[dtype demands] probability]]. unfold scenario_rows.
  intros (per_sample & s1 & Hloop & [<- _]%sampler_ret_Ok)%sampler_bind_Ok.
  apply sampler_mapM_Ok_Forall2 in Hloop. split.
  - unfold scenario_probs, expected_scenario. apply fmap_concat_Forall2.
    eapply Forall2_impl; [exact Hloop|].
    intros idx rows3 (s0 & s2 & Hrows3). by apply sample_rows_Ok in Hrows3 as [? _].
  - apply Forall_concat. eapply Forall2_Forall_r; [exact Hloop|].
    intros idx rows3 (s0 & s2 & Hrows3). by apply sample_rows_Ok in Hrows3 as [_ ?].
Qed.

Lemma scenario_rows_total scenario s :
  scenario ∈ scenarios -> exists df s', scenario_rows scenario s = Ok (df, s').
Proof.
  intros Hin.
  assert (length (inject_Z <$> snd (fst (snd scenario))) = 3%nat) as Hlen.
  { unfold scenarios in Hin. rewrite !elem_of_cons, elem_of_nil in Hin.
    destruct Hin as [->|[->|[->|[->|[->|[->|[->|[->|[]]]]]]]]]; reflexivity. }
  destruct scenario as [sid [[dtype demands] probability]]. unfold scenario_rows.
  destruct (sampler_mapM_total
              (sample_rows sid dtype (inject_Z <$> demands) probability)
              (range NUM_CONTINUOUS_SAMPLES_PER_SCENARIO)
              (fun idx s0 _ => sample_rows_total sid dtype _ probability idx s0 Hlen) s)
    as (per_sample & s1 & Hloop).
  do 2 eexists. apply sampler_bind_Ok. exists per_sample, s1.
  split; [exact Hloop | by apply sampler_ret_Ok].
Qed.

Lemma hybrid_rows_Ok s df s' :
  rows s = Ok (df, s') ->
  scenario_probs df = expected_scenario_probs /\
  Forall (fun r => (0 <= demand r)%Z) df.
Proof.
  unfold rows.
  intros (per_scenario & s1 & Hloop & [<- _]%sampler_ret_Ok)%sampler_bind_Ok.
  apply sampler_mapM_Ok_Forall2 in Hloop. split.
  - unfold scenario_probs.
    rewrite (fmap_concat_Forall2 _ expected_scenario scenarios per_scenario); [done|].
    eapply Forall2_impl; [exact Hloop|].
    intros scenario rows_s (s0 & s2 & Hrows). by apply scenario_rows_Ok in Hrows as [? _].
  - apply Forall_concat. eapply Forall2_Forall_r; [exact Hloop|].
    intros scenario rows_s (s0 & s2 & Hrows). by apply scenario_rows_Ok in Hrows as [_ ?].
Qed.

Lemma rows_total s : exists df s', rows s = Ok (df, s').
Proof.
  unfold rows.
  destruct (sampler_mapM_total scenario_rows scenarios
              (fun scenario s0 Hin => scenario_rows_total scenario s0 Hin) s)
    as (per_scenario & s1 & Hloop).
  do 2 eexists. apply sampler_bind_Ok. exists per_scenario, s1.
  split; [exact Hloop | by apply sampler_ret_Ok].
Qed.

End Props.
End HybridProps.

(** ** The three generators *)

Module Generators.

Section Props.
Context `{NumpyMath} `{Generator}.

(** C1.  In the frame of each generator the scenario probabilities, one
    per scenario id, sum to one: in the discrete frame; in the frame of
    the continuous generator for every scenario count [>= 1], whose
    probabilities are the normalized weights (of positive sum), rescaled
    around a reserved share when there is one, and [1.0] for the
    baseline alone; and in the hybrid frame. *)
Theorem scenario_probabilities_sum_to_one :
  (exists df, Discrete.rows = Ok df /\
     length (drop_duplicates (Discrete.scenario_probs df)) = 8%nat /\
     probability_sum (Discrete.scenario_probs df) == 1) /\
  (forall n ib s, (1 <= n)%Z ->
     exists df s', Continuous.generate n ib s = Ok (df, s') /\
       length (drop_duplicates (Continuous.scenario_probs df)) = Z.to_nat n /\
       probability_sum (Continuous.scenario_probs df) == 1) /\
  (forall inc share n ib s, (1 <= n)%Z ->
     exists draws s' probs,
       Continuous.sample_scenarios n ib s = Ok (draws, s') /\
       0 < np_sum (Continuous.raw_probability_weight <$> draws) /\
       Continuous.scenario_probabilities inc share draws = Ok probs /\
       length probs = length draws /\
       np_sum probs == 1) /\
  (forall share,
     Continuous.scenario_probabilities true (Some share)
       [Continuous._build_baseline_draw] = Ok [1.0]) /\
  (forall s, exists df s', Hybrid.rows s = Ok (df, s') /\
     length (drop_duplicates (Hybrid.scenario_probs df)) = 400%nat /\
     probability_sum (Hybrid.scenario_probs df) == 1).
Proof.
  split; [|split; [|split; [|split]]].
  - exists Discrete.frame. split; [apply DiscreteProps.discrete_rows_Ok|].
    split; [reflexivity | apply DiscreteProps.discrete_probability_sum].
  - intros n ib s Hn. apply ContinuousProps.generate_probability_sum. done.
  - intros inc share n ib s Hn.
    destruct (ContinuousProps.sample_scenarios_total n ib s) as (draws & s' & Hdraws).
    { unfold Continuous.baseline_slot. destruct ib; lia. }
    pose proof Hdraws as (_ & sampled & -> & HF)%ContinuousProps.sample_scenarios_Ok.
    pose proof (ContinuousProps.draws_nonempty n ib _ _ Hn eq_refl HF) as Hne.
    destruct (ContinuousProps.scenario_probabilities_Ok inc share ib _ _ HF)
      as (probs & Hprobs & Hlen & Hsum).
    exists (Continuous.baseline_draws ib ++ sampled), s', probs.
    split; [done|]. split; [|by auto].
    apply ContinuousProps.np_sum_pos; [by eapply ContinuousProps.draws_weights_pos|].
    by destruct (Continuous.baseline_draws ib ++ sampled).
  - intros share. reflexivity.
  - intros s. destruct (HybridProps.rows_total s) as (df & s' & Hdf).
    exists df, s'. split; [done|].
    apply HybridProps.hybrid_rows_Ok in Hdf as [-> _].
    split; [apply HybridProps.expected_num_scenarios
           | apply HybridProps.expected_probability_sum].
Qed.


(** C9, as amended.  [sample_scenarios] raises its [ValueError] exactly
    when [num_scenarios - (1 if include_baseline else 0) < 0]: a count
    below 1 with the baseline required, or below 0 without it.  It
    raises nothing else, and for every other count it returns that many
    draws, so for every count [>= 1] with the baseline required; from
    these draws [build_dataframe] returns a frame, and the discrete and
    the hybrid script return theirs. *)
Theorem count_validation :
  (forall n ib s,
     Continuous.sample_scenarios n ib s = Raise Continuous.count_error <->
     (n < Continuous.baseline_slot ib)%Z) /\
  (forall n ib s e,
     Continuous.sample_scenarios n ib s = Raise e -> e = Continuous.count_error) /\
  (forall n s, (1 <= n)%Z ->
     exists draws s', Continuous.sample_scenarios n true s = Ok (draws, s') /\
                      length draws = Z.to_nat n) /\
  (forall n s, (0 <= n)%Z ->
     exists draws s', Continuous.sample_scenarios n false s = Ok (draws, s') /\
                      length draws = Z.to_nat n) /\
  (forall n ib s draws s',
     Continuous.sample_scenarios n ib s = Ok (draws, s') ->
     exists df, Continuous.build_dataframe draws = Ok df) /\
  (exists df, Discrete.rows = Ok df) /\
  (forall s, exists df s', Hybrid.rows s = Ok (df, s')).
Proof.
  split; [|split; [|split; [|split; [|split; [|split]]]]].
  - intros n ib s. apply ContinuousProps.sample_scenarios_count_check.
  - intros n ib s. apply ContinuousProps.sample_scenarios_count_check.
  - intros n s Hn. by apply (ContinuousProps.sample_scenarios_count_check n true s).
  - intros n s Hn. by apply (ContinuousProps.sample_scenarios_count_check n false s).
  - intros n ib s draws s' Hdraws.
    pose proof Hdraws as (Hn & _)%ContinuousProps.sample_scenarios_Ok.
    destruct (ContinuousProps.generate_Ok n ib s Hn)
      as (sampled & probs & df & s'' & Hdraws' & _ & _ & _ & Hgen & _).
    rewrite Hdraws in Hdraws'. injection Hdraws' as -> ->.
    apply sampler_bind_Ok in Hgen as (draws' & s1 & Hdraws' & [Hdf _]%lift_result_Ok).
    rewrite Hdraws in Hdraws'. injection Hdraws' as <- _. by exists df.
  - exists Discrete.frame. apply DiscreteProps.discrete_rows_Ok.
  - apply HybridProps.rows_total.
Qed.

End Props.

(** C3.  The discrete builder has 8 scenarios and 3 hospitals and writes
    24 rows, one for each pair of a scenario and a hospital, in order;
    the probabilities of the scenarios are the eight literals, which sum
    to one. *)
Theorem discrete_rows_count :
  length Discrete.scenarios = 8%nat /\
  length Discrete.hospitals = 3%nat /\
  Discrete.probabilities = [0.65; 0.05; 0.04; 0.05; 0.1; 0.05; 0.04; 0.02] /\
  np_sum Discrete.probabilities == 1 /\
  Qred (np_sum Discrete.probabilities) = 1 /\
  exists df,
    Discrete.rows = Ok df /\
    length df = 24%nat /\
    (fun r => (Discrete.scenario_id r, Discrete.hospital_id r)) <$> df
      = (sid ← Discrete.scenario_ids;
         hid ← Discrete.hospital_ids;
         [(sid, hid)]) /\
    NoDup ((fun r => (Discrete.scenario_id r, Discrete.hospital_id r)) <$> df) /\
    Forall (fun r =>
              (Discrete.scenario_id r, Discrete.scenario_probability r)
                ∈ zip Discrete.scenario_ids Discrete.probabilities) df.
Proof.
  split; [reflexivity|]. split; [reflexivity|]. split; [reflexivity|].
  split; [reflexivity|]. split; [reflexivity|].
  exists Discrete.frame. split; [apply DiscreteProps.discrete_rows_Ok|].
  split; [reflexivity|]. split; [reflexivity|]. split.
  - apply (bool_decide_unpack _). vm_compute. exact I.
  - unfold Discrete.frame.
    repeat (constructor; [UncertaintyProps.elem_of_list|]). constructor.
Qed.

(** *** Runs of the continuous generator *)

Lemma scenario_probabilities_sum_to_one_witness :
  (1 <= 3)%Z /\
  exists df s',
    Sample.run_generate 3 true = Ok (df, s') /\
    length (drop_duplicates (Continuous.scenario_probs df)) = Z.to_nat 3 /\
    probability_sum (Continuous.scenario_probs df) == 1.
Proof.
  split; [lia|].
  apply (proj1 (proj2 (@scenario_probabilities_sum_to_one Sample.numpy_math Sample.generator))).
  lia.
Defined.


Lemma baseline_share_reserved_witness :
  (2 <= 3)%Z /\
  exists sampled others df s',
    Sample.run_sample_scenarios 3 true = Ok (Continuous._build_baseline_draw :: sampled, s') /\
    Continuous.scenario_id Continuous._build_baseline_draw = "CSBASE"%string /\
    Forall (fun d => Continuous.scenario_id d <> "CSBASE"%string) sampled /\
    Continuous.scenario_probabilities
      Continuous.INCLUDE_BASELINE_SCENARIO Continuous.BASELINE_PROBABILITY_SHARE
      (Continuous._build_baseline_draw :: sampled) = Ok (0.35 :: others) /\
    (exists factor, 0 < factor /\
       others = np_scale
                  (tail (Continuous.normalized
                           (Continuous._build_baseline_draw :: sampled))) factor) /\
    np_sum others == 0.65 /\
    Sample.run_generate 3 true = Ok (df, s') /\
    (exists r, r ∈ df /\ Continuous.row_scenario_id r = "CSBASE"%string) /\
    (forall r, r ∈ df -> Continuous.row_scenario_id r = "CSBASE"%string ->
       Continuous.scenario_probability r = 0.35) /\
    probability_sum (Continuous.other_scenarios (Continuous.scenario_probs df)) == 0.65.
Proof.
  split; [lia|].
  apply (@ContinuousProps.baseline_share_reserved Sample.numpy_math Sample.generator 3%Z 0%nat).
  lia.
Defined.

Lemma count_validation_witness :
  Sample.run_sample_scenarios 0 true = Raise Continuous.count_error /\
  (exists draws s', Sample.run_sample_scenarios 1 true = Ok (draws, s') /\ length draws = 1%nat) /\
  (exists draws s', Sample.run_sample_scenarios 2 false = Ok (draws, s') /\ length draws = 2%nat).
Proof.
  split; [|split].
  - apply (proj1 (@count_validation Sample.numpy_math Sample.generator) 0%Z true 0%nat).
    simpl. lia.
  - apply (proj1 (proj2 (proj2 (@count_validation Sample.numpy_math Sample.generator)))
             1%Z 0%nat).
    lia.
  - apply (proj1 (proj2 (proj2 (proj2 (@count_validation Sample.numpy_math Sample.generator))))
             2%Z 0%nat).
    lia.
Defined.

(** C9, as stated, fails: with [include_baseline] false and the count
    -1, [num_random_draws] is [-1 - 0 < 0] and [sample_scenarios] raises
    the [ValueError], though no baseline scenario is required. *)
Lemma count_check_without_baseline :
  Sample.run_sample_scenarios (-1) false
    = Raise (ValueError "num_scenarios must be >= 1 when include_baseline is True") /\
  ~ ((-1 < 1)%Z /\ false = true).
Proof.
  split; [vm_compute; reflexivity|]. intros [_ Hb]. discriminate Hb.
Qed.


End Generators.

(** * Further properties of the scripts *)

(** ** The uncertainty-set builder: errors, shape and nesting *)

Module UncertaintyMore.
Import UncertaintySets UncertaintyProps.

Lemma mapM_Raise {A B} (f : A -> result B) (l : list A) (e : exception) :
  mapM f l = Raise e -> exists x, x ∈ l /\ f x = Raise e.
Proof.
  induction l as [|x l IH]; simpl; [discriminate|].
  destruct (f x) as [y|e'] eqn:Hx; simpl.
  - destruct (mapM f l) as [k|e'']; simpl; [discriminate|].
    intros [= <-]. destruct IH as (x' & Hin & Hx'); [done|].
    exists x'. split; [by right | done].
  - intros [= <-]. exists x. split; [by left | done].
Qed.

Section Props.
Context `{NumpyMath}.

Lemma minmax_box_Raise df alpha hid e :
  hid ∈ HOSPITALS -> minmax_box (compute_stats df) alpha hid = Raise e -> e = nan_error.
Proof.
  intros Hh. unfold minmax_box. rewrite (stats_getitem_hospital df hid Hh). simpl.
  destruct (series_min (demands_of df hid)) as [dmin|];
    destruct (series_max (demands_of df hid)) as [dmax|]; simpl;
    intros Hr; try discriminate; by injection Hr as <-.
Qed.

Lemma ev_box_Raise df k hid e :
  hid ∈ HOSPITALS -> ev_box (compute_stats df) k hid = Raise e -> e = nan_error.
Proof.
  intros Hh. unfold ev_box. rewrite (stats_getitem_hospital df hid Hh). simpl.
  destruct (series_mean (demands_of df hid)) as [mu|];
    destruct (series_std (demands_of df hid)) as [sigma|]; simpl;
    try destruct (Qle_bool _ _); simpl;
    intros Hr; try discriminate; by injection Hr as <-.
Qed.

(** On a frame whose demands are numbers a double holds exactly, up to
    [2^53] in magnitude, the script writes its table exactly when each
    of the three hospitals has at least two rows in the frame;
    otherwise, so on an empty frame or on one without a hospital, it
    stops with the [ValueError] of [int] on a NaN, and with no other
    error.  (The bound keeps every double of the script finite, as the
    rationals here always are.) *)
Theorem build_uncertainty_sets_outcome df :
  exact_frame df ->
  ((exists rows, build_uncertainty_sets df = Ok rows) <->
   (forall hid, hid ∈ HOSPITALS ->
      (2 <= length (filter (fun r => row_hospital_id r = hid) df))%nat)) /\
  (forall e, build_uncertainty_sets df = Raise e -> e = nan_error).
Proof.
  intros _.
  assert (forall hid, length (filter (fun r => row_hospital_id r = hid) df)
                      = length (demands_of df hid)) as Hlen
    by (intros hid; unfold demands_of; by rewrite length_fmap).
  setoid_rewrite Hlen.
  split; [split|].
  - intros [rows Hb] hid Hh. by eapply build_uncertainty_sets_needs_two.
  - apply build_uncertainty_sets_succeeds.
  - intros e. unfold build_uncertainty_sets.
    destruct (mapM (fun alpha => mapM (minmax_box (compute_stats df) alpha) HOSPITALS)
                MINMAX_BOX_LEVELS) as [mm|e1] eqn:Hmm; cbn [mbind result_bind].
    + destruct (mapM (fun k => mapM (ev_box (compute_stats df) k) HOSPITALS)
                  EV_BOX_LEVELS) as [ev|e2] eqn:Hev; cbn [mbind result_bind];
        [discriminate|].
      intros [= <-].
      apply mapM_Raise in Hev as (k & _ & Hk).
      apply mapM_Raise in Hk as (hid & Hh & Hk). by eapply ev_box_Raise.
    + intros [= <-].
      apply mapM_Raise in Hmm as (alpha & _ & Ha).
      apply mapM_Raise in Ha as (hid & Hh & Ha). by eapply minmax_box_Raise.
Qed.

Lemma mapM_fmap_const {A B C} (f : A -> result B) (h : B -> C) (g : A -> C)
    (l : list A) (k : list B) :
  (forall x y, f x = Ok y -> h y = g x) -> mapM f l = Ok k -> h <$> k = g <$> l.
Proof.
  intros Hfg Hk. apply mapM_Ok_Forall2 in Hk. apply Forall2_fmap_eq.
  eapply Forall2_impl; [exact Hk|]. exact Hfg.
Qed.

Lemma nested_mapM_keys {A B C D} (g : A -> B -> result C) (h : C -> D)
    (key : A -> B -> D) (la : list A) (lb : list B) (kk : list (list C)) :
  (forall a b y, g a b = Ok y -> h y = key a b) ->
  mapM (fun a => mapM (g a) lb) la = Ok kk ->
  h <$> concat kk = (a ← la; b ← lb; [key a b]).
Proof.
  intros Hkey Hkk. apply mapM_Ok_Forall2 in Hkk.
  induction Hkk as [|a k la kk Hak _ IH]; [done|].
  cbn [concat]. rewrite fmap_app, IH.
  rewrite (mapM_fmap_const (g a) h (key a) lb k (Hkey a) Hak).
  change ((a :: la) ≫= (fun a => lb ≫= (fun b => [key a b])))
    with ((lb ≫= (fun b => [key a b])) ++ (la ≫= (fun a => lb ≫= (fun b => [key a b])))).
  f_equal.
Qed.

(** The table always has the same 18 rows in the same order, whatever
    the demands: the [minmax_box] rows for the levels 1.0, 0.75 and 0.5,
    then the [ev_box] rows for k = 0, 1 and 2, each for H1, H2 and H3. *)
Theorem build_uncertainty_sets_layout df rows :
  build_uncertainty_sets df = Ok rows ->
  row_key <$> rows = expected_row_keys /\ length rows = 18%nat.
Proof.
  intros Hb.
  assert (row_key <$> rows = expected_row_keys) as Hkeys.
  { unfold build_uncertainty_sets in Hb.
    apply result_bind_Ok in Hb as (mm & Hmm & Hb).
    apply result_bind_Ok in Hb as (ev & Hev & [= <-]).
    rewrite fmap_app. unfold expected_row_keys. f_equal.
    - apply (nested_mapM_keys (minmax_box (compute_stats df)) row_key
               (fun alpha hid => ("minmax_box"%string, alpha, hid))); [|done].
      intros alpha hid iv Hiv. pose proof (minmax_box_hospital _ _ _ _ Hiv) as Hh.
      by apply minmax_box_Ok in Hiv as (? & ? & _ & _ & ->).
    - apply (nested_mapM_keys (ev_box (compute_stats df)) row_key
               (fun k hid => ("ev_box"%string, k, hid))); [|done].
      intros k hid iv Hiv. pose proof (ev_box_hospital _ _ _ _ Hiv) as Hh.
      by apply ev_box_Ok in Hiv as (? & ? & _ & _ & ->). }
  split; [done|].
  rewrite <- (length_fmap row_key), Hkeys. reflexivity.
Qed.

(** Min-max boxes are nested: on a frame whose demands are numbers a
    double holds exactly, up to [2^53] in magnitude, the box of a
    hospital at a level lies within its box at every higher level. *)
Theorem minmax_box_nested df alpha beta hid a b :
  exact_frame df ->
  alpha <= beta ->
  minmax_box (compute_stats df) alpha hid = Ok a ->
  minmax_box (compute_stats df) beta hid = Ok b ->
  within a b.
Proof.
  intros _ Hab Ha Hb. pose proof (minmax_box_hospital _ _ _ _ Ha) as Hh.
  apply minmax_box_Ok in Ha as (dmin & dmax & Hmin & Hmax & ->); [|done].
  apply minmax_box_Ok in Hb as (dmin' & dmax' & Hmin' & Hmax' & ->); [|done].
  rewrite Hmin in Hmin'. rewrite Hmax in Hmax'.
  injection Hmin' as <-. injection Hmax' as <-.
  pose proof (series_min_le_max _ _ _ Hmin Hmax) as Hle.
  assert ((dmax - dmin) * alpha <= (dmax - dmin) * beta) as Hmul.
  { rewrite (Qmult_comm _ alpha), (Qmult_comm _ beta).
    apply Qmult_le_compat_r; lra. }
  assert (forall c, (dmax - dmin) * (1 - c) / 2
                    == ((dmax - dmin) - (dmax - dmin) * c) * (1 # 2)) as Hform
    by (intros c; field).
  unfold within. cbn [lower_bound upper_bound]. split.
  - apply Qfloor_resp_le. rewrite !Hform. lra.
  - apply Qceiling_resp_le. rewrite !Hform. lra.
Qed.

(** The min-max box at level 1.0 covers every demand observed for its
    hospital: on a frame whose demands are numbers a double holds
    exactly, up to [2^53] in magnitude, the demand of every row of the
    frame for the hospital lies between the two bounds. *)
Theorem minmax_box_full_level_covers df rows iv r :
  build_uncertainty_sets df = Ok rows -> exact_frame df ->
  iv ∈ rows ->
  uncertainty_type iv = "minmax_box"%string -> level iv == 1 ->
  r ∈ df -> row_hospital_id r = hospital_id iv ->
  inject_Z (lower_bound iv) <= row_demand r <= inject_Z (upper_bound iv).
Proof.
  intros Hb _ Hin Hty Hlevel Hr Hh.
  assert (row_demand r ∈ demands_of df (hospital_id iv)) as Hx
    by (apply demands_of_elem; by exists r).
  destruct (minmax_row_inv df rows iv Hb Hin Hty)
    as (_ & _ & dmin & dmax & Hmin & Hmax & -> & ->).
  pose proof (series_min_le _ _ _ Hmin Hx). pose proof (series_max_ge _ _ _ Hmax Hx).
  assert (dmin + (dmax - dmin) * (1 - level iv) / 2 == dmin) as -> by (rewrite Hlevel; field).
  assert (dmax - (dmax - dmin) * (1 - level iv) / 2 == dmax) as -> by (rewrite Hlevel; field).
  pose proof (Qfloor_le dmin). pose proof (Qle_ceiling dmax). split; lra.
Qed.

(** Mean-centred boxes are nested in [k]: for [0 <= k <= k'] the box at
    [k] lies within the box at [k']. *)
Theorem ev_box_nested df k k' hid a b :
  0 <= k -> k <= k' ->
  ev_box (compute_stats df) k hid = Ok a ->
  ev_box (compute_stats df) k' hid = Ok b ->
  within a b.
Proof.
  intros Hk Hkk Ha Hb. pose proof (ev_box_hospital _ _ _ _ Ha) as Hh.
  apply ev_box_Ok in Ha as (mu & sigma & Hmu & Hsigma & ->); [|done].
  apply ev_box_Ok in Hb as (mu' & sigma' & Hmu' & Hsigma' & ->); [|done].
  rewrite Hmu in Hmu'. rewrite Hsigma in Hsigma'.
  injection Hmu' as <-. injection Hsigma' as <-.
  pose proof (series_std_nonneg _ _ Hsigma) as Hs.
  assert (k * sigma <= k' * sigma) as Hmul by (apply Qmult_le_compat_r; lra).
  unfold within. cbn [lower_bound upper_bound]. split.
  - apply Qfloor_resp_le.
    destruct (Qle_bool (mu - k' * sigma) 0) eqn:H1;
      destruct (Qle_bool (mu - k * sigma) 0) eqn:H2;
      try apply Qle_bool_iff in H1; try apply Qle_bool_iff in H2; try lra.
    destruct (Qlt_le_dec 0 (mu - k * sigma)) as [Hlt|Hge]; [lra|].
    apply Qle_bool_iff in Hge. congruence.
  - apply Qceiling_resp_le. lra.
Qed.

(** A mean-centred box at [k >= 0] holds the mean demand of its
    hospital, when that mean is not negative. *)
Theorem ev_box_holds_mean df k hid iv mu :
  0 <= k ->
  ev_box (compute_stats df) k hid = Ok iv ->
  series_mean (demands_of df hid) = Some mu -> 0 <= mu ->
  inject_Z (lower_bound iv) <= mu <= inject_Z (upper_bound iv).
Proof.
  intros Hk Hiv Hmu Hpos. pose proof (ev_box_hospital _ _ _ _ Hiv) as Hh.
  apply ev_box_Ok in Hiv as (mu' & sigma & Hmu' & Hsigma & ->); [|done].
  rewrite Hmu in Hmu'. injection Hmu' as <-.
  pose proof (series_std_nonneg _ _ Hsigma) as Hs.
  assert (0 <= k * sigma) by (by apply Qmult_le_0_compat).
  cbn [lower_bound upper_bound]. split.
  - eapply Qle_trans; [apply Qfloor_le|]. destruct (Qle_bool _ 0); lra.
  - eapply Qle_trans; [|apply Qle_ceiling]. lra.
Qed.




End Props.

Lemma build_uncertainty_sets_outcome_witness :
  exact_frame Sample.small_frame /\
  (exists rows, build_uncertainty_sets (H := Sample.numpy_math) Sample.small_frame = Ok rows) /\
  (forall e, build_uncertainty_sets (H := Sample.numpy_math) [] = Raise e -> e = nan_error).
Proof.
  assert (exact_frame Sample.small_frame) as Hframe.
  { repeat constructor; vm_compute; congruence. }
  split; [exact Hframe|]. split.
  - apply (proj1 (@build_uncertainty_sets_outcome Sample.numpy_math Sample.small_frame Hframe)).
    intros hid Hh. unfold HOSPITALS in Hh. rewrite !elem_of_cons, elem_of_nil in Hh.
    destruct Hh as [->|[->|[->|[]]]]; vm_compute; lia.
  - apply (proj2 (@build_uncertainty_sets_outcome Sample.numpy_math [] (List.Forall_nil _))).
Defined.

Lemma build_uncertainty_sets_layout_witness :
  row_key <$> Sample.small_rows = expected_row_keys /\ length Sample.small_rows = 18%nat.
Proof.
  apply (@build_uncertainty_sets_layout Sample.numpy_math Sample.small_frame).
  vm_compute; reflexivity.
Defined.

Lemma minmax_box_nested_witness :
  within
    {| uncertainty_type := "minmax_box"; level := 0.5; hospital_id := "H3";
       lower_bound := 15; upper_bound := 25 |}
    {| uncertainty_type := "minmax_box"; level := 0.75; hospital_id := "H3";
       lower_bound := 12; upper_bound := 28 |}.
Proof.
  apply (@minmax_box_nested Sample.numpy_math Sample.small_frame 0.5 0.75 "H3").
  - repeat constructor; vm_compute; congruence.
  - vm_compute. discriminate.
  - vm_compute; reflexivity.
  - vm_compute; reflexivity.
Defined.

Lemma minmax_box_full_level_covers_witness :
  inject_Z 10 <= 30 <= inject_Z 30.
Proof.
  apply (@minmax_box_full_level_covers Sample.numpy_math Sample.small_frame Sample.small_rows
           {| uncertainty_type := "minmax_box"; level := 1.0; hospital_id := "H3";
              lower_bound := 10; upper_bound := 30 |}
           {| row_hospital_id := "H3"; row_demand := 30 |}).
  - vm_compute; reflexivity.
  - repeat constructor; vm_compute; congruence.
  - unfold Sample.small_rows. elem_of_list.
  - reflexivity.
  - reflexivity.
  - unfold Sample.small_frame, Sample.demand_frame. elem_of_list.
  - reflexivity.
Defined.

Lemma ev_box_nested_witness :
  within
    {| uncertainty_type := "ev_box"; level := 1; hospital_id := "H3";
       lower_bound := 5; upper_bound := 35 |}
    {| uncertainty_type := "ev_box"; level := 2; hospital_id := "H3";
       lower_bound := 0; upper_bound := 49 |}.
Proof.
  apply (@ev_box_nested Sample.numpy_math Sample.small_frame 1 2 "H3").
  - vm_compute. discriminate.
  - vm_compute. discriminate.
  - vm_compute; reflexivity.
  - vm_compute; reflexivity.
Defined.

Lemma ev_box_holds_mean_witness :
  exists mu,
    series_mean (demands_of Sample.small_frame "H3") = Some mu /\
    inject_Z 5 <= mu <= inject_Z 35.
Proof.
  eexists. split; [vm_compute; reflexivity|].
  apply (@ev_box_holds_mean Sample.numpy_math Sample.small_frame 1 "H3"
           {| uncertainty_type := "ev_box"; level := 1; hospital_id := "H3";
              lower_bound := 5; upper_bound := 35 |}).
  - vm_compute. discriminate.
  - vm_compute; reflexivity.
  - vm_compute; reflexivity.
  - vm_compute. discriminate.
Defined.


End UncertaintyMore.

(** ** The continuous sampler: draws, probabilities and frame *)

Module ContinuousMore.
Import Continuous ContinuousProps.

Section Props.
Context `{NumpyMath} `{Generator}.

(** The scenario ids of the draws are pairwise distinct for every count,
    also past 9999 sampled draws where the number outgrows its four
    digits; with the baseline required the first draw is "CSBASE" and
    no other is. *)
Theorem sample_scenarios_ids_distinct n ib s draws s' :
  sample_scenarios n ib s = Ok (draws, s') ->
  NoDup (scenario_id <$> draws) /\
  (ib = true ->
   exists sampled, draws = _build_baseline_draw :: sampled /\
     Forall (fun d => scenario_id d <> "CSBASE"%string) sampled).
Proof.
  intros (_ & sampled & -> & HF)%sample_scenarios_Ok. split.
  - by eapply draws_ids_NoDup.
  - intros ->. exists sampled. split; [done|].
    eapply Forall2_Forall_r; [exact HF|]. apply sampled_id_not_baseline.
Qed.

(** The baseline scenario takes nothing from the generator: asking for
    one scenario more with the baseline gives the same sampled draws,
    and leaves the generator in the same state, as asking without it. *)
Theorem sample_scenarios_baseline_shift n s :
  sample_scenarios (n + 1) true s =
  match sample_scenarios n false s with
  | Ok (draws, s') => Ok (_build_baseline_draw :: draws, s')
  | Raise e => Raise e
  end.
Proof.
  unfold sample_scenarios.
  replace (n + 1 - 1)%Z with n by lia. replace (n - 0)%Z with n by lia.
  destruct (n <? 0)%Z; [reflexivity|].
  unfold mbind, sampler_bind.
  fold hazard_probs.
  destruct (mapM (sample_draw _hazard_catalog hazard_probs) (range n) s)
    as [[sampled s1]|e]; reflexivity.
Qed.

(** The columns of a sampled draw agree: its hazard type is one of the
    catalog, its severity score is [log1p] of its global severity, which
    is not negative, and its raw weight is the weight of that hazard
    times the score plus 1e-6. *)
Theorem sample_draw_consistent idx s d s' :
  sample_draw _hazard_catalog hazard_probs idx s = Ok (d, s') ->
  exists hz, hz ∈ _hazard_catalog /\
    draw_hazard_type d = hazard_type hz /\
    0 <= global_severity d /\
    severity_score d = np_log1p (global_severity d) /\
    0 <= severity_score d /\
    raw_probability_weight d = weight hz * (severity_score d + 1e-6).
Proof.
  unfold sample_draw.
  intros (hazard_idx & s1 & [Hidx Hs1]%draw_Ok & Hd)%sampler_bind_Ok.
  apply sampler_bind_Ok in Hd as (hz & s2 & [Hhz Hs2]%lift_result_Ok & Hd).
  apply sampler_bind_Ok in Hd as (gs & s3 & [Hgs Hs3]%draw_Ok & Hd).
  apply sampler_bind_Ok in Hd as (regional & s4 & [Hreg Hs4]%draw_Ok & Hd).
  apply sampler_bind_Ok in Hd as (idio & s5 & [Hidio Hs5]%draw_Ok & Hd).
  apply sampler_ret_Ok in Hd as [<- _].
  unfold getitem in Hhz.
  destruct (_hazard_catalog !! hazard_idx) as [hz'|] eqn:Hlook; [|discriminate].
  injection Hhz as ->. apply list_elem_of_lookup_2 in Hlook.
  assert (0 <= gs) as Hpos by (rewrite Hgs; apply rng_lognormal_nonneg).
  exists hz. cbn [draw_hazard_type global_severity severity_score raw_probability_weight].
  repeat split; try done. by apply np_log1p_nonneg.
Qed.

(** *** The probabilities of any list of draws *)

Lemma baseline_index_lt (draws : list ScenarioDraw) (f : nat -> nat) i rest :
  fst <$> filter (fun '(idx, d) => scenario_id d = "CSBASE"%string)
                 (imap (fun j d => (f j, d)) draws) = i :: rest ->
  exists j, (j < length draws)%nat /\ i = f j.
Proof.
  revert f. induction draws as [|d draws IH]; intros f; [discriminate|].
  rewrite imap_cons, filter_cons.
  destruct (decide (scenario_id d = "CSBASE"%string)) as [Hd|Hd].
  - intros [= <- _]. exists 0%nat. simpl. split; [lia | done].
  - intros Hrest. destruct (IH (f ∘ S) Hrest) as (j & Hj & ->).
    exists (S j). simpl. split; [lia | done].
Qed.

Lemma np_sum_insert (l : list Q) (i : nat) (v x : Q) :
  l !! i = Some x -> np_sum (<[i:=v]> l) == np_sum l - x + v.
Proof.
  unfold np_sum. revert i. induction l as [|y l IH]; intros i; [done|].
  destruct i as [|i]; simpl.
  - intros [= ->]. ring.
  - intros Hi. rewrite (IH i Hi). ring.
Qed.

Lemma np_sum_elem_le (l : list Q) (x : Q) :
  Forall (Qle 0) l -> x ∈ l -> x <= np_sum l.
Proof.
  unfold np_sum. induction 1 as [|y l Hy Hl IH]; [by intros ?%elem_of_nil|].
  pose proof (UncertaintyProps.np_sum_nonneg l Hl) as Hsum. unfold np_sum in Hsum.
  intros [->|Hx]%elem_of_cons; simpl; [lra|]. specialize (IH Hx). lra.
Qed.

Lemma probabilities_le_one (l : list Q) :
  Forall (Qle 0) l -> np_sum l == 1 -> Forall (fun p => 0 <= p <= 1) l.
Proof.
  intros Hl Hsum. apply Forall_forall. intros p Hp. split.
  - by eapply Forall_forall in Hl.
  - rewrite <- Hsum. by apply np_sum_elem_le.
Qed.

Lemma normalized_nonneg draws :
  Forall (fun d => 0 < raw_probability_weight d) draws -> draws <> [] ->
  Forall (Qle 0) (normalized draws).
Proof.
  intros Hpos Hne.
  assert (0 < np_sum (raw_probability_weight <$> draws)) as Hsum.
  { apply np_sum_pos; [by apply Forall_fmap | by destruct draws]. }
  unfold normalized, np_div. apply Forall_fmap, Forall_fmap.
  eapply Forall_impl; [exact Hpos|]. intros d Hd. cbv beta.
  apply Qle_shift_div_l; [done|]. rewrite Qmult_0_l. by apply Qlt_le_weak.
Qed.

Lemma clipped_share_bounds c : 0 <= clipped_share c <= 0.95.
Proof.
  unfold clipped_share. split.
  - apply Q.min_glb; [|discriminate].
    apply Qle_trans with 0.0; [discriminate | apply Q.le_max_r].
  - apply Q.le_min_r.
Qed.

Lemma clipped_share_id c : 0 <= c <= 0.95 -> clipped_share c == c.
Proof.
  intros [Hlo Hhi]. unfold clipped_share.
  rewrite (Q.max_l c 0.0) by (apply Qle_trans with 0; [discriminate | exact Hlo]).
  by apply Q.min_l.
Qed.

(** In exact arithmetic the probabilities of any list of draws with
    positive weights are a distribution, wherever "CSBASE" stands in the
    list. *)
Lemma scenario_probabilities_distribution inc share draws :
  Forall (fun d => 0 < raw_probability_weight d) draws -> draws <> [] ->
  exists probs,
    scenario_probabilities inc share draws = Ok probs /\
    length probs = length draws /\
    Forall (fun p => 0 <= p <= 1) probs /\
    np_sum probs == 1.
Proof.
  intros Hpos Hne.
  destruct (normalized_sum draws) as [Hlen Hsum]; [by apply Forall_fmap | done |].
  pose proof (normalized_nonneg draws Hpos Hne) as Hnonneg.
  assert (exists probs, scenario_probabilities inc share draws = Ok probs /\
            length probs = length draws /\ Forall (Qle 0) probs /\ np_sum probs == 1)
    as (probs & Hprobs & Hlen' & Hnn & Hsum').
  2:{ exists probs. repeat split; try done. by apply probabilities_le_one. }
  unfold scenario_probabilities. fold (normalized draws).
  destruct inc; [|by exists (normalized draws)].
  destruct share as [c|]; [|by exists (normalized draws)].
  destruct (fst <$> filter _ (enumerate draws)) as [|i rest] eqn:Hidx;
    [by exists (normalized draws)|].
  apply (baseline_index_lt draws id) in Hidx as (j & Hj & ->). unfold id.
  destruct (lookup_lt_is_Some_2 (normalized draws) j) as [pj Hpj]; [by rewrite Hlen|].
  unfold getitem. rewrite Hpj. cbn [mbind result_bind]. fold (clipped_share c).
  pose proof (clipped_share_bounds c) as [Hs0 Hs1].
  destruct (Qle_bool (1.0 - pj) 0) eqn:Hcmp; eexists; (split; [reflexivity|]).
  - split; [by rewrite length_insert, length_replicate|]. split.
    + apply Forall_insert; [|discriminate].
      apply Forall_replicate. discriminate.
    + rewrite (np_sum_insert _ j 1.0 0.0).
      * rewrite np_sum_zeros by reflexivity. reflexivity.
      * apply lookup_replicate_2. by rewrite Hlen.
  - assert (0 < 1.0 - pj) as Hres.
    { destruct (Qlt_le_dec 0 (1.0 - pj)) as [|Hle]; [done|].
      apply Qle_bool_iff in Hle. congruence. }
    assert (0 < (1.0 - clipped_share c) / (1.0 - pj)) as Hfactor.
    { apply Qlt_shift_div_l; [done|]. rewrite Qmult_0_l. lra. }
    split; [unfold np_scale; by rewrite length_insert, length_fmap|]. split.
    + apply Forall_insert; [|done]. unfold np_scale. apply Forall_fmap.
      eapply Forall_impl; [exact Hnonneg|]. intros p Hp. simpl.
      apply Qmult_le_0_compat; [done | by apply Qlt_le_weak].
    + rewrite (np_sum_insert _ j _ (pj * ((1.0 - clipped_share c) / (1.0 - pj)))).
      * rewrite np_sum_scale, Hsum. field. lra.
      * unfold np_scale. by rewrite list_lookup_fmap, Hpj.
Qed.

(** [build_dataframe]'s probabilities are a distribution: for the draws
    [sample_scenarios] returns, at any count of at least one, with or
    without the baseline, and for any value of the two constants, there
    is one probability per draw, each between 0 and 1, and they sum to
    one. *)
Theorem scenario_probabilities_invariant inc share n ib s draws s' :
  (1 <= n)%Z ->
  sample_scenarios n ib s = Ok (draws, s') ->
  exists probs,
    scenario_probabilities inc share draws = Ok probs /\
    length probs = length draws /\
    Forall (fun p => 0 <= p <= 1) probs /\
    np_sum probs == 1.
Proof.
  intros Hn Hdraws.
  apply sample_scenarios_Ok in Hdraws as (_ & sampled & -> & HF).
  pose proof (draws_weights_pos ib _ _ HF) as Hpos.
  apply scenario_probabilities_distribution; [|by eapply draws_nonempty].
  apply Forall_forall. intros d Hd.
  apply (proj1 (Forall_forall _ _) Hpos). by apply list_elem_of_fmap_2.
Qed.

(** In exact arithmetic, for any draws of positive weight after the
    baseline. *)
Lemma reserved_share_any_draws c sampled :
  Forall (fun d => 0 < raw_probability_weight d) sampled -> sampled <> [] ->
  exists others,
    scenario_probabilities true (Some c) (_build_baseline_draw :: sampled)
      = Ok (clipped_share c :: others) /\
    0 <= clipped_share c <= 0.95 /\
    (0 <= c <= 0.95 -> clipped_share c == c) /\
    (c <= 0 -> clipped_share c == 0) /\
    (0.95 <= c -> clipped_share c == 0.95) /\
    np_sum others == 1 - clipped_share c /\
    0.05 <= np_sum others /\
    exists factor, 0 < factor /\
      others = np_scale (tail (normalized (_build_baseline_draw :: sampled))) factor.
Proof.
  intros Hpos Hne. apply Forall_fmap in Hpos.
  pose proof (scenario_probabilities_baseline c sampled) as Hform.
  cbv zeta in Hform. rewrite (baseline_residual sampled Hpos Hne) in Hform.
  fold (clipped_share c) in Hform.
  pose proof (baseline_probabilities_sum c sampled _ Hpos Hform) as [_ Hsum].
  pose proof (clipped_share_bounds c) as [Hs0 Hs1].
  eexists. split; [exact Hform|].
  match type of Hsum with np_sum (_ :: ?o) == 1 =>
    change (clipped_share c + np_sum o == 1) in Hsum;
    assert (np_sum o == 1 - clipped_share c) as Hothers by lra
  end.
  split; [done|]. split; [apply clipped_share_id|].
  split; [|split; [|split; [done|split]]].
  - intros Hc. unfold clipped_share.
    rewrite (Q.max_r c 0.0) by (apply Qle_trans with 0; [exact Hc | discriminate]).
    by rewrite Q.min_l.
  - intros Hc. unfold clipped_share. apply Q.min_r.
    eapply Qle_trans; [exact Hc | apply Q.le_max_l].
  - rewrite Hothers. apply Qle_trans with (1 - 0.95); [discriminate | lra].
  - eexists. split; [|reflexivity].
    pose proof (baseline_residual sampled Hpos Hne) as Hres.
    match goal with |- 0 < ?a / ?b =>
      assert (0 < b) as Hb;
      [destruct (Qlt_le_dec 0 b) as [|Hle]; [done|];
       apply Qle_bool_iff in Hle; congruence|];
      apply Qlt_shift_div_l; [done|]; rewrite Qmult_0_l; lra
    end.
Qed.

(** The reserved share is clipped to [0, 0.95]: for the draws of
    [sample_scenarios] with the baseline and a count of at least two,
    and any configured share, the baseline gets the configured share
    when that lies in the range, 0 below it and 0.95 above it, and the
    sampled draws keep their normalized weights times one positive
    factor and sum to the rest, at least 0.05. *)
Theorem reserved_share_clipped c n s :
  (2 <= n)%Z ->
  exists sampled s' others,
    sample_scenarios n true s = Ok (_build_baseline_draw :: sampled, s') /\
    scenario_probabilities true (Some c) (_build_baseline_draw :: sampled)
      = Ok (clipped_share c :: others) /\
    0 <= clipped_share c <= 0.95 /\
    (0 <= c <= 0.95 -> clipped_share c == c) /\
    (c <= 0 -> clipped_share c == 0) /\
    (0.95 <= c -> clipped_share c == 0.95) /\
    np_sum others == 1 - clipped_share c /\
    0.05 <= np_sum others /\
    exists factor, 0 < factor /\
      others = np_scale (tail (normalized (_build_baseline_draw :: sampled))) factor.
Proof.
  intros Hn.
  destruct (sample_scenarios_total n true s) as (draws & s' & Hdraws);
    [unfold baseline_slot; lia|].
  pose proof Hdraws as (_ & sampled & -> & HF)%sample_scenarios_Ok.
  change (baseline_draws true ++ sampled) with (_build_baseline_draw :: sampled) in *.
  destruct (reserved_share_any_draws c sampled) as (others & Hothers).
  - eapply Forall2_Forall_r; [exact HF|]. by intros idx d (_ & Hw & _).
  - apply Forall2_length in HF. rewrite range_length in HF.
    unfold baseline_slot in HF. destruct sampled; [simpl in HF; lia | done].
  - by exists sampled, s', others.
Qed.

(** *** The rows of the frame, for any list of draws *)

Lemma concat_lookup_chunks {A} (n : nat) (ls : list (list A)) (i j : nat) :
  Forall (fun l => length l = n) ls -> (j < n)%nat ->
  concat ls !! (n * i + j)%nat = ls !! i ≫= (fun l => l !! j).
Proof.
  intros Hls Hj. revert i. induction Hls as [|l ls Hl _ IH]; intros i; [done|].
  cbn [concat]. destruct i as [|i].
  - rewrite Nat.mul_0_r, Nat.add_0_l. rewrite lookup_app_l by lia. done.
  - replace (n * S i + j)%nat with (length l + (n * i + j))%nat by lia.
    rewrite lookup_app_r by lia.
    replace (length l + (n * i + j) - length l)%nat with (n * i + j)%nat by lia.
    apply IH.
Qed.

Lemma scenario_probabilities_length inc share draws :
  exists probs,
    scenario_probabilities inc share draws = Ok probs /\ length probs = length draws.
Proof.
  assert (length (normalized draws) = length draws) as Hlen.
  { unfold normalized, np_div. by rewrite !length_fmap. }
  unfold scenario_probabilities. fold (normalized draws).
  destruct inc; [|by exists (normalized draws)].
  destruct share as [c|]; [|by exists (normalized draws)].
  destruct (fst <$> filter _ (enumerate draws)) as [|i rest] eqn:Hidx;
    [by exists (normalized draws)|].
  apply (baseline_index_lt draws id) in Hidx as (j & Hj & ->). unfold id.
  destruct (lookup_lt_is_Some_2 (normalized draws) j) as [pj Hpj]; [by rewrite Hlen|].
  unfold getitem. rewrite Hpj. cbn [mbind result_bind].
  destruct (Qle_bool (1.0 - pj) 0); eexists; (split; [reflexivity|]).
  - by rewrite length_insert, length_replicate.
  - unfold np_scale. by rewrite length_insert, length_fmap.
Qed.

Lemma hospital_rows_narrow d p :
  ~ wide_draw d -> hospital_rows hospitals d p = Raise IndexError.
Proof.
  intros Hn. unfold hospital_rows.
  destruct (regional_component d) as [|r0 [|r1 [|r2 rs]]] eqn:Hr;
    destruct (idiosyncratic_component d) as [|i0 [|i1 [|i2 ic]]] eqn:Hi;
    destruct (demand_vector d) as [|v0 [|v1 [|v2 vs]]] eqn:Hv;
    try reflexivity.
  exfalso. apply Hn. unfold wide_draw. rewrite Hr, Hi, Hv. simpl. lia.
Qed.

Lemma hospital_rows_wide d p :
  wide_draw d ->
  exists r0 r1 r2, hospital_rows hospitals d p = Ok [r0; r1; r2].
Proof.
  intros (Hr & Hi & Hv). unfold hospital_rows.
  destruct (regional_component d) as [|r0 [|r1 [|r2 rs]]]; simpl in Hr; try lia.
  destruct (idiosyncratic_component d) as [|i0 [|i1 [|i2 ic]]]; simpl in Hi; try lia.
  destruct (demand_vector d) as [|v0 [|v1 [|v2 vs]]]; simpl in Hv; try lia.
  by eexists _, _, _.
Qed.

Lemma wide_draw_dec d : {wide_draw d} + {~ wide_draw d}.
Proof.
  unfold wide_draw.
  destruct (le_dec 3 (length (regional_component d)));
    destruct (le_dec 3 (length (idiosyncratic_component d)));
    destruct (le_dec 3 (length (demand_vector d))); (left; done) || (right; tauto).
Qed.

Lemma hospital_rows_inv d p rows3 :
  hospital_rows hospitals d p = Ok rows3 ->
  length rows3 = 3%nat /\
  forall j, (j < 3)%nat ->
    exists r v reg idio hc,
      rows3 !! j = Some r /\
      demand_vector d !! j = Some v /\
      regional_component d !! j = Some reg /\
      idiosyncratic_component d !! j = Some idio /\
      expected_hospital_columns !! j = Some hc /\
      row_scenario_id r = scenario_id d /\
      scenario_probability r = p /\
      disaster_type r = draw_hazard_type d /\
      row_severity_score r = severity_score d /\
      row_global_severity r = global_severity d /\
      row_regional_component r = reg /\
      row_idiosyncratic_component r = idio /\
      demand r = np_round v 2 /\
      hospital_columns r = hc.
Proof.
  destruct (wide_draw_dec d) as [Hw|Hn];
    [|by rewrite (hospital_rows_narrow d p Hn)].
  destruct Hw as (Hr & Hi & Hv). unfold hospital_rows.
  destruct (regional_component d) as [|r0 [|r1 [|r2 rs]]]; simpl in Hr; try lia.
  destruct (idiosyncratic_component d) as [|i0 [|i1 [|i2 ic]]]; simpl in Hi; try lia.
  destruct (demand_vector d) as [|v0 [|v1 [|v2 vs]]]; simpl in Hv; try lia.
  intros [= <-]. split; [done|]. intros j Hj.
  destruct j as [|[|[|j]]]; [| | |lia];
    by eexists _, _, _, _, _.
Qed.

Lemma dataframe_rows_inv draws probs df :
  dataframe_rows draws probs = Ok df ->
  exists per_draw,
    df = concat per_draw /\
    Forall2 (fun dp rows3 => hospital_rows hospitals dp.1 dp.2 = Ok rows3)
            (zip draws probs) per_draw.
Proof.
  unfold dataframe_rows. intros (per_draw & Hmap & [= <-])%result_bind_Ok.
  exists per_draw. split; [done|].
  apply mapM_Ok_Forall2 in Hmap.
  eapply Forall2_impl; [exact Hmap|]. by intros [d p] rows3.
Qed.

Lemma dataframe_rows_length draws probs df :
  length probs = length draws ->
  dataframe_rows draws probs = Ok df -> length df = (3 * length draws)%nat.
Proof.
  intros Hlen (per_draw & -> & Hall)%dataframe_rows_inv.
  assert (length per_draw = length draws) as <-.
  { apply Forall2_length in Hall. rewrite length_zip in Hall. lia. }
  clear Hlen. induction Hall as [|dp rows3 dps per_draw Hrows _ IH]; [done|].
  apply hospital_rows_inv in Hrows as [Hlen3 _].
  cbn [concat]. rewrite length_app, Hlen3, IH. simpl. lia.
Qed.

Lemma dataframe_rows_outcome draws probs :
  length probs = length draws ->
  ((exists df, dataframe_rows draws probs = Ok df) <-> Forall wide_draw draws) /\
  (forall e, dataframe_rows draws probs = Raise e -> e = IndexError).
Proof.
  unfold dataframe_rows. revert probs.
  induction draws as [|d draws IH]; intros probs Hlen.
  { destruct probs; [|done]. split; [split; [constructor | by exists []]|]. done. }
  destruct probs as [|p probs]; [done|]. injection Hlen as Hlen.
  destruct (IH probs Hlen) as [[IHok IHwide] IHerr]. cbn [zip zip_with mapM].
  destruct (wide_draw_dec d) as [Hw|Hn].
  - destruct (hospital_rows_wide d p Hw) as (r0 & r1 & r2 & ->).
    cbn [mbind result_bind].
    change (zip_with pair draws probs) with (zip draws probs).
    destruct (mapM _ (zip draws probs)) as [per_draw|e] eqn:Hmap;
      cbn [mbind result_bind mret result_ret].
    + split; [|done]. split; [|by eexists]. intros _. constructor; [done|].
      apply IHok. by eexists.
    + split.
      * split; [by intros [? ?]|]. intros [_ Hrest]%Forall_cons.
        by apply IHwide in Hrest as [df Hdf].
      * intros e' [= <-]. by apply IHerr.
  - rewrite (hospital_rows_narrow d p Hn). cbn [mbind result_bind]. split.
    + split; [by intros [? ?]|]. by intros [? _]%Forall_cons.
    + by intros e [= <-].
Qed.

Lemma dataframe_rows_columns draws probs df :
  length probs = length draws ->
  dataframe_rows draws probs = Ok df ->
  hospital_columns <$> df = concat (replicate (length draws) expected_hospital_columns).
Proof.
  intros Hlen (per_draw & -> & Hall)%dataframe_rows_inv.
  assert (length per_draw = length draws) as <-.
  { apply Forall2_length in Hall. rewrite length_zip in Hall. lia. }
  clear Hlen. induction Hall as [|dp rows3 dps per_draw Hrows _ IH]; [done|].
  cbn [concat length replicate]. rewrite fmap_app, IH. f_equal.
  destruct (wide_draw_dec dp.1) as [Hw|Hn];
    [|by rewrite (hospital_rows_narrow _ _ Hn) in Hrows].
  destruct Hw as (Hr & Hi & Hv). unfold hospital_rows in Hrows.
  destruct (regional_component dp.1) as [|r0 [|r1 [|r2 rs]]]; simpl in Hr; try lia.
  destruct (idiosyncratic_component dp.1) as [|i0 [|i1 [|i2 ic]]]; simpl in Hi; try lia.
  destruct (demand_vector dp.1) as [|v0 [|v1 [|v2 vs]]]; simpl in Hv; try lia.
  by injection Hrows as <-.
Qed.

Lemma build_dataframe_shape draws df :
  build_dataframe draws = Ok df ->
  length df = (3 * length draws)%nat /\
  hospital_columns <$> df = concat (replicate (length draws) expected_hospital_columns).
Proof.
  unfold build_dataframe.
  destruct (scenario_probabilities_length INCLUDE_BASELINE_SCENARIO
              BASELINE_PROBABILITY_SHARE draws) as (probs & -> & Hlen).
  cbn [mbind result_bind]. intros Hdf. split.
  - by apply (dataframe_rows_length draws probs).
  - by apply (dataframe_rows_columns draws probs).
Qed.

(** When [build_dataframe] succeeds and when it fails, for any list of
    draws: it returns a frame exactly when every draw has at least three
    entries in its regional, idiosyncratic and demand arrays; the frame
    then has three rows per draw, whose hospital columns repeat the
    table of hospitals in its order; and the only error it raises is the
    IndexError of the array indexing. *)
Theorem build_dataframe_outcome draws :
  ((exists df, build_dataframe draws = Ok df) <-> Forall wide_draw draws) /\
  (forall df, build_dataframe draws = Ok df ->
     length df = (3 * length draws)%nat /\
     hospital_columns <$> df
       = concat (replicate (length draws) expected_hospital_columns)) /\
  (forall e, build_dataframe draws = Raise e -> e = IndexError).
Proof.
  split; [|split; [apply build_dataframe_shape|]]; unfold build_dataframe;
    destruct (scenario_probabilities_length INCLUDE_BASELINE_SCENARIO
                BASELINE_PROBABILITY_SHARE draws) as (probs & -> & Hlen);
    cbn [mbind result_bind]; by apply dataframe_rows_outcome.
Qed.

(** Row [3 * i + j] of a frame is hospital [j] of draw [i], in exact
    arithmetic. *)
Lemma build_dataframe_row_any draws df i j d :
  build_dataframe draws = Ok df -> draws !! i = Some d -> (j < 3)%nat ->
  exists probs p r v reg idio hc,
    scenario_probabilities INCLUDE_BASELINE_SCENARIO BASELINE_PROBABILITY_SHARE draws
      = Ok probs /\
    probs !! i = Some p /\
    df !! (3 * i + j)%nat = Some r /\
    demand_vector d !! j = Some v /\
    regional_component d !! j = Some reg /\
    idiosyncratic_component d !! j = Some idio /\
    expected_hospital_columns !! j = Some hc /\
    row_scenario_id r = scenario_id d /\
    scenario_probability r = p /\
    disaster_type r = draw_hazard_type d /\
    row_severity_score r = severity_score d /\
    row_global_severity r = global_severity d /\
    row_regional_component r = reg /\
    row_idiosyncratic_component r = idio /\
    demand r = np_round v 2 /\
    v - (1 # 200) <= demand r <= v + (1 # 200) /\
    hospital_columns r = hc.
Proof.
  unfold build_dataframe. intros Hdf Hd Hj.
  destruct (scenario_probabilities_length INCLUDE_BASELINE_SCENARIO
              BASELINE_PROBABILITY_SHARE draws) as (probs & Hprobs & Hlen).
  rewrite Hprobs in Hdf. cbn [mbind result_bind] in Hdf.
  destruct (lookup_lt_is_Some_2 probs i) as [p Hp].
  { rewrite Hlen. by eapply lookup_lt_Some. }
  apply dataframe_rows_inv in Hdf as (per_draw & -> & Hall).
  assert (zip draws probs !! i = Some (d, p)) as Hzip.
  { apply lookup_zip_with_Some. by exists d, p. }
  destruct (Forall2_lookup_l _ _ _ _ _ Hall Hzip) as (rows3 & Hrows3 & Hrows).
  apply hospital_rows_inv in Hrows as [_ Hfields].
  destruct (Hfields j Hj)
    as (r & v & reg & idio & hc & Hr & Hv & Hreg & Hidio & Hhc & Hrest).
  exists probs, p, r, v, reg, idio, hc.
  split; [done|]. split; [done|]. split.
  { rewrite (concat_lookup_chunks 3); [by rewrite Hrows3 | | done].
    clear -Hall. induction Hall as [|dp l dps ls Hl _ IH]; constructor; [|done].
    by apply hospital_rows_inv in Hl as [? _]. }
  destruct Hrest as (? & ? & ? & ? & ? & ? & ? & Hdem & ?).
  repeat (split; [done|]). split; [|done].
  rewrite Hdem. apply np_round_close.
Qed.

(** Row [3 * i + j] of the frame built from the draws of
    [sample_scenarios] is hospital [j] of draw [i]: it carries the
    draw's id, hazard type and severities, the probability of the draw,
    entry [j] of the regional and idiosyncratic arrays unrounded, the
    hospital's columns, and as demand a whole number of hundredths less
    than one hundredth away from entry [j] of the sampled demand. *)
Theorem build_dataframe_row n ib s draws s' df i j d :
  sample_scenarios n ib s = Ok (draws, s') ->
  build_dataframe draws = Ok df -> draws !! i = Some d -> (j < 3)%nat ->
  exists probs p r v reg idio hc,
    scenario_probabilities INCLUDE_BASELINE_SCENARIO BASELINE_PROBABILITY_SHARE draws
      = Ok probs /\
    probs !! i = Some p /\
    df !! (3 * i + j)%nat = Some r /\
    demand_vector d !! j = Some v /\
    regional_component d !! j = Some reg /\
    idiosyncratic_component d !! j = Some idio /\
    expected_hospital_columns !! j = Some hc /\
    row_scenario_id r = scenario_id d /\
    scenario_probability r = p /\
    disaster_type r = draw_hazard_type d /\
    row_severity_score r = severity_score d /\
    row_global_severity r = global_severity d /\
    row_regional_component r = reg /\
    row_idiosyncratic_component r = idio /\
    (exists hundredths : Z, demand r == inject_Z hundredths / 100) /\
    v - (1 # 100) < demand r < v + (1 # 100) /\
    hospital_columns r = hc.
Proof.
  intros _ Hdf Hd Hj.
  destruct (build_dataframe_row_any draws df i j d Hdf Hd Hj)
    as (probs & p & r & v & reg & idio & hc & Hprobs & Hp & Hr & Hv & Hreg & Hidio & Hhc
        & Hid & Hprob & Hty & Hscore & Hsev & Hrreg & Hridio & Hdem & Hclose & Hcols).
  exists probs, p, r, v, reg, idio, hc.
  repeat (split; [done|]). split; [|split; [|done]].
  - exists (rint (v * inject_Z (10 ^ Z.of_nat 2))). rewrite Hdem. reflexivity.
  - lra.
Qed.

(** *** The whole generator *)

Lemma generate_length n ib s df s' :
  generate n ib s = Ok (df, s') ->
  length df = (3 * Z.to_nat n)%nat /\
  hospital_columns <$> df = concat (replicate (Z.to_nat n) expected_hospital_columns).
Proof.
  intros (draws & s1 & Hdraws & Hdf)%sampler_bind_Ok.
  apply lift_result_Ok in Hdf as [Hdf ->].
  assert (length draws = Z.to_nat n) as <-.
  { destruct (sample_scenarios_count_check n ib s) as (_ & _ & Hok).
    apply sample_scenarios_Ok in Hdraws as Hn. destruct Hn as [Hn _].
    destruct (Hok Hn) as (draws' & s'' & Hdraws' & Hlen).
    rewrite Hdraws in Hdraws'. by injection Hdraws' as <- _. }
  by apply build_dataframe_shape.
Qed.

(** Sampling and then building the frame, as [main] does, for any count
    and either value of [include_baseline]: the only error is the one of
    the count check, raised exactly when the count is below the number
    of baseline scenarios; otherwise the frame has three rows per
    scenario asked for, cycling through the hospitals in the order of
    the table, and no demand in it is negative. *)
Theorem generate_outcome n ib s :
  (generate n ib s = Raise count_error <-> (n < baseline_slot ib)%Z) /\
  (forall e, generate n ib s = Raise e -> e = count_error) /\
  ((exists df s', generate n ib s = Ok (df, s')) <-> (baseline_slot ib <= n)%Z) /\
  (forall df s', generate n ib s = Ok (df, s') ->
     length df = (3 * Z.to_nat n)%nat /\
     hospital_columns <$> df
       = concat (replicate (Z.to_nat n) expected_hospital_columns) /\
     Forall (fun r => 0 <= demand r) df).
Proof.
  assert (forall df s', generate n ib s = Ok (df, s') ->
     length df = (3 * Z.to_nat n)%nat /\
     hospital_columns <$> df
       = concat (replicate (Z.to_nat n) expected_hospital_columns) /\
     Forall (fun r => 0 <= demand r) df) as Hframe.
  { intros df s' Hgen. destruct (generate_length _ _ _ _ _ Hgen) as [Hlen Hcols].
    split; [done|]. split; [done|]. by eapply generate_demand_nonneg. }
  destruct (Z.lt_ge_cases n (baseline_slot ib)) as [Hlt|Hge].
  - assert (generate n ib s = Raise count_error) as Hraise.
    { unfold generate, mbind, sampler_bind.
      by rewrite (sample_scenarios_raises n ib s Hlt). }
    rewrite Hraise. split; [done|]. split; [by intros e [= <-]|].
    split; [|done]. split; [by intros (? & ? & ?) | lia].
  - destruct (generate_Ok n ib s Hge) as (_ & _ & df & s' & _ & _ & _ & _ & Hgen & _).
    split; [|split; [|split; [|done]]].
    + rewrite Hgen. split; [done | lia].
    + rewrite Hgen. done.
    + split; [done|]. intros _. by exists df, s'.
Qed.

(** The two smallest runs, for any generator.  With a count of 0 and no
    baseline the frame is empty.  With a count of 1 and the baseline the
    frame is the three baseline rows, with the calm demands 7, 5.25 and
    4.2, and their probability is 1, not the reserved 0.35: the baseline
    is then the only scenario.  Neither run draws from the generator. *)
Theorem generate_smallest s :
  generate 0 false s = Ok ([], s) /\
  exists df,
    generate 1 true s = Ok (df, s) /\
    Forall2 (fun r calm => row_scenario_id r = "CSBASE"%string /\
                           scenario_probability r == 1 /\
                           demand r == calm)
            df [7; 5.25; 4.2].
Proof.
  split; [reflexivity|].
  eexists. split; [reflexivity|].
  repeat (constructor; [split; [reflexivity | split; reflexivity]|]).
  constructor.
Qed.

(** The script as it stands, for any generator: [main] does not raise;
    its frame has 3000 rows and 1000 distinct scenarios, and the
    probabilities of the scenarios sum to one. *)
Theorem main_frame s :
  exists df s',
    main s = Ok (df, s') /\
    length df = 3000%nat /\
    summary_num_scenarios df = 1000%nat /\
    summary_probability_sum df == 1.
Proof.
  destruct (generate_probability_sum NUM_SCENARIOS INCLUDE_BASELINE_SCENARIO s)
    as (df & s' & Hgen & Hnum & Hsum); [done|].
  exists df, s'. split; [done|].
  destruct (generate_length _ _ _ _ _ Hgen) as [Hlen _].
  split; [by rewrite Hlen|]. split; [by rewrite Hnum | done].
Qed.

End Props.

(** *** Instances *)

Lemma sample_scenarios_ids_distinct_witness :
  Sample.run_sample_scenarios 3 true = Ok (Sample.continuous_draws, 8%nat) /\
  NoDup (scenario_id <$> Sample.continuous_draws) /\
  (true = true ->
   exists sampled, Sample.continuous_draws = _build_baseline_draw :: sampled /\
     Forall (fun d => scenario_id d <> "CSBASE"%string) sampled).
Proof.
  split; [vm_compute; reflexivity|].
  apply (@sample_scenarios_ids_distinct Sample.numpy_math Sample.generator
           3%Z true 0%nat Sample.continuous_draws 8%nat).
  vm_compute; reflexivity.
Defined.

Lemma sample_draw_consistent_witness :
  exists hz, hz ∈ _hazard_catalog /\
    draw_hazard_type Sample.first_sampled_draw = hazard_type hz /\
    0 <= global_severity Sample.first_sampled_draw /\
    severity_score Sample.first_sampled_draw
      = Sample.log1p (global_severity Sample.first_sampled_draw) /\
    0 <= severity_score Sample.first_sampled_draw /\
    raw_probability_weight Sample.first_sampled_draw
      = weight hz * (severity_score Sample.first_sampled_draw + 1e-6).
Proof.
  apply (@sample_draw_consistent Sample.numpy_math Sample.generator
           0%nat 0%nat Sample.first_sampled_draw 4%nat).
  vm_compute; reflexivity.
Defined.

Lemma scenario_probabilities_invariant_witness :
  Sample.run_sample_scenarios 3 true = Ok (Sample.continuous_draws, 8%nat) /\
  exists probs,
    scenario_probabilities true (Some 0.35) Sample.continuous_draws = Ok probs /\
    length probs = length Sample.continuous_draws /\
    Forall (fun p => 0 <= p <= 1) probs /\
    np_sum probs == 1.
Proof.
  split; [vm_compute; reflexivity|].
  apply (@scenario_probabilities_invariant Sample.numpy_math Sample.generator
           true (Some 0.35) 3%Z true 0%nat Sample.continuous_draws 8%nat).
  - lia.
  - vm_compute; reflexivity.
Defined.

Lemma reserved_share_clipped_witness :
  exists sampled s' others,
    Sample.run_sample_scenarios 3 true = Ok (_build_baseline_draw :: sampled, s') /\
    scenario_probabilities true (Some 2) (_build_baseline_draw :: sampled)
      = Ok (clipped_share 2 :: others) /\
    0 <= clipped_share 2 <= 0.95 /\
    (0 <= 2 <= 0.95 -> clipped_share 2 == 2) /\
    (2 <= 0 -> clipped_share 2 == 0) /\
    (0.95 <= 2 -> clipped_share 2 == 0.95) /\
    np_sum others == 1 - clipped_share 2 /\
    0.05 <= np_sum others /\
    exists factor, 0 < factor /\
      others = np_scale (tail (normalized (_build_baseline_draw :: sampled))) factor.
Proof.
  apply (@reserved_share_clipped Sample.numpy_math Sample.generator 2 3%Z 0%nat).
  lia.
Defined.

Lemma build_dataframe_row_witness :
  Sample.run_sample_scenarios 3 true = Ok (Sample.continuous_draws, 8%nat) /\
  build_dataframe Sample.continuous_draws = Ok Sample.continuous_frame /\
  Sample.continuous_draws !! 1%nat = Some Sample.first_sampled_draw /\
  exists probs p r v reg idio hc,
    scenario_probabilities INCLUDE_BASELINE_SCENARIO BASELINE_PROBABILITY_SHARE
      Sample.continuous_draws = Ok probs /\
    probs !! 1%nat = Some p /\
    Sample.continuous_frame !! (3 * 1 + 2)%nat = Some r /\
    demand_vector Sample.first_sampled_draw !! 2%nat = Some v /\
    regional_component Sample.first_sampled_draw !! 2%nat = Some reg /\
    idiosyncratic_component Sample.first_sampled_draw !! 2%nat = Some idio /\
    expected_hospital_columns !! 2%nat = Some hc /\
    row_scenario_id r = scenario_id Sample.first_sampled_draw /\
    scenario_probability r = p /\
    disaster_type r = draw_hazard_type Sample.first_sampled_draw /\
    row_severity_score r = severity_score Sample.first_sampled_draw /\
    row_global_severity r = global_severity Sample.first_sampled_draw /\
    row_regional_component r = reg /\
    row_idiosyncratic_component r = idio /\
    (exists hundredths : Z, demand r == inject_Z hundredths / 100) /\
    v - (1 # 100) < demand r < v + (1 # 100) /\
    hospital_columns r = hc.
Proof.
  split; [vm_compute; reflexivity|].
  split; [vm_compute; reflexivity|]. split; [vm_compute; reflexivity|].
  apply (@build_dataframe_row Sample.numpy_math Sample.generator 3%Z true 0%nat
           Sample.continuous_draws 8%nat Sample.continuous_frame
           1%nat 2%nat Sample.first_sampled_draw).
  - vm_compute; reflexivity.
  - vm_compute; reflexivity.
  - vm_compute; reflexivity.
  - lia.
Defined.

End ContinuousMore.

(** ** The hybrid generator *)

Module HybridMore.
Import Hybrid HybridProps.

Lemma append_inj_l (p a b : string) : (p +:+ a = p +:+ b)%string -> a = b.
Proof. induction p as [|c p IH]; simpl; [done|]. intros [= Heq]. by apply IH. Qed.

Lemma sample_id_inj sid i j : sample_id sid i = sample_id sid j -> i = j.
Proof.
  unfold sample_id. intros Heq%append_inj_l%append_inj_l. by eapply format_0d_inj.
Qed.

Lemma np_sum_const {A} (c : Q) (l : list A) :
  np_sum ((fun _ => c) <$> l) == inject_Z (Z.of_nat (length l)) * c.
Proof.
  unfold np_sum. induction l as [|x l IH]; [simpl; ring|].
  cbn [fmap list_fmap foldr length]. change (foldr Qplus 0 ((fun _ => c) <$> l))
    with (foldr Qplus 0 ((fun _ : A => c) <$> l)). rewrite IH.
  rewrite Nat2Z.inj_succ, <- Z.add_1_r, inject_Z_plus. change (inject_Z 1) with 1. ring.
Qed.

Lemma Forall2_with_elem {A B} (R : A -> B -> Prop) l k :
  Forall2 R l k -> Forall2 (fun x y => x ∈ l /\ R x y) l k.
Proof.
  induction 1 as [|x y l k Hxy _ IH]; constructor.
  - split; [left | done].
  - eapply Forall2_impl; [exact IH|]. intros x' y' [Hin HR]. split; [by right | done].
Qed.

Section Props.
Context `{Generator}.

(** One sample of the hybrid generator, around any three demands: it
    draws the regional component and then the idiosyncratic one, does
    not raise, and writes three rows.  Row [i] has the columns of
    hospital [i] of the table, the sample's id and share of the
    probability, and as its demand the sum of the demand of the
    scenario and the two unrounded components, clipped at zero and
    rounded to an integer, so within one half of that sum; the two
    components are written rounded to two decimals. *)
Theorem sample_rows_row sid dtype base_demand probability sample_idx s :
  length base_demand = 3%nat ->
  exists regional idio s1 s' rows3,
    rng_multivariate_normal (np_zeros num_hospitals) BASE_COV s = (regional, s1) /\
    rng_normal 0.0 5.0 num_hospitals s1 = (idio, s') /\
    sample_rows sid dtype base_demand probability sample_idx s = Ok (rows3, s') /\
    length rows3 = 3%nat /\
    forall i, (i < 3)%nat ->
      exists r b reg io hc,
        rows3 !! i = Some r /\
        base_demand !! i = Some b /\
        regional !! i = Some reg /\
        idio !! i = Some io /\
        expected_hospital_columns !! i = Some hc /\
        hospital_columns r = hc /\
        scenario_id r = sample_id sid sample_idx /\
        scenario_probability r = sample_probability probability /\
        disaster_type r = dtype /\
        demand r = rint (Qmax (b + reg + io) 0) /\
        regional_component r = np_round reg 2 /\
        idiosyncratic_component r = np_round io 2 /\
        Qmax (b + reg + io) 0 - (1 # 2) <= inject_Z (demand r)
          <= Qmax (b + reg + io) 0 + (1 # 2).
Proof.
  intros Hbase.
  pose proof (rng_multivariate_normal_length (np_zeros num_hospitals) BASE_COV s) as Hr.
  destruct (rng_multivariate_normal (np_zeros num_hospitals) BASE_COV s)
    as [regional s1] eqn:Hdraw1.
  pose proof (rng_normal_length 0.0 5.0 num_hospitals s1) as Hi.
  destruct (rng_normal 0.0 5.0 num_hospitals s1) as [idio s2] eqn:Hdraw2.
  simpl in Hr, Hi.
  destruct base_demand as [|b0 [|b1 [|b2 [|]]]]; try discriminate.
  destruct regional as [|r0 [|r1 [|r2 [|]]]]; try discriminate.
  destruct idio as [|i0 [|i1 [|i2 [|]]]]; try discriminate.
  exists [r0; r1; r2], [i0; i1; i2], s1, s2. eexists.
  split; [done|]. split; [done|]. split.
  { unfold sample_rows. apply sampler_bind_Ok. exists [r0; r1; r2], s1.
    split; [apply draw_Ok; by rewrite Hdraw1|].
    apply sampler_bind_Ok. exists [i0; i1; i2], s2.
    split; [apply draw_Ok; by rewrite Hdraw2|].
    apply lift_result_Ok. split; reflexivity. }
  split; [reflexivity|]. intros i Hi3.
  destruct i as [|[|[|i]]]; [| | |lia];
    (do 5 eexists; repeat (split; [reflexivity|]); apply rint_close).
Qed.

Lemma sample_rows_columns sid dtype base_demand probability sample_idx s rows3 s' :
  sample_rows sid dtype base_demand probability sample_idx s = Ok (rows3, s') ->
  hospital_columns <$> rows3 = expected_hospital_columns /\
  Forall (fun r => disaster_type r = dtype) rows3.
Proof.
  unfold sample_rows.
  intros (regional & s1 & _ & Hrows)%sampler_bind_Ok.
  apply sampler_bind_Ok in Hrows as (idio & s2 & _ & Hrows).
  apply lift_result_Ok in Hrows as [Hrows _].
  apply mapM_Ok_Forall2 in Hrows.
  set (demands := rint <$> np_clip_min (np_add (np_add base_demand regional) idio) 0) in Hrows.
  assert (Forall2 (fun (x : nat * string) r =>
            Some (hospital_columns r) = expected_hospital_columns !! x.1 /\
            disaster_type r = dtype) (enumerate hospital_ids) rows3) as Hrows'.
  { eapply Forall2_impl; [exact (Forall2_with_elem _ _ _ Hrows)|].
    intros [i hid] r [Hin Hr]. simpl in Hr.
    apply result_bind_Ok in Hr as ([[[hname cap] alloc] surge] & Hh & Hr).
    apply result_bind_Ok in Hr as (demand_i & _ & Hr).
    apply result_bind_Ok in Hr as (regional_i & _ & Hr).
    apply result_bind_Ok in Hr as (idio_i & _ & Hr).
    injection Hr as <-. split; [|done].
    unfold enumerate, hospital_ids, hospitals in Hin. cbn in Hin.
    rewrite !elem_of_cons, elem_of_nil in Hin.
    destruct Hin as [[= -> ->]|[[= -> ->]|[[= -> ->]|[]]]];
      cbn in Hh; injection Hh as <- <- <- <-; reflexivity. }
  split.
  - apply Forall2_length in Hrows' as Hlen.
    destruct rows3 as [|x0 [|x1 [|x2 [|]]]]; try discriminate.
    apply Forall2_cons in Hrows' as [[H0 _] Hrows'].
    apply Forall2_cons in Hrows' as [[H1 _] Hrows'].
    apply Forall2_cons in Hrows' as [[H2 _] _].
    apply list_eq. intros [|[|[|i]]]; [exact H0 | exact H1 | exact H2 | reflexivity].
  - eapply Forall2_Forall_r; [exact Hrows'|]. by intros x r [_ ?].
Qed.

Lemma scenario_rows_columns sid dtype demands probability s df s' :
  scenario_rows (sid, (dtype, demands, probability)) s = Ok (df, s') ->
  hospital_columns <$> df
    = concat (replicate (Z.to_nat NUM_CONTINUOUS_SAMPLES_PER_SCENARIO)
                expected_hospital_columns) /\
  Forall (fun r => disaster_type r = dtype) df.
Proof.
  unfold scenario_rows.
  intros (per_sample & s1 & Hloop & [<- _]%sampler_ret_Ok)%sampler_bind_Ok.
  apply sampler_mapM_Ok_Forall2 in Hloop. split.
  - rewrite (fmap_concat_Forall2 hospital_columns (fun _ => expected_hospital_columns)
               (range NUM_CONTINUOUS_SAMPLES_PER_SCENARIO) per_sample); [reflexivity|].
    eapply Forall2_impl; [exact Hloop|].
    intros idx rows3 (s0 & s2 & Hrows3). by apply sample_rows_columns in Hrows3 as [? _].
  - apply Forall_concat. eapply Forall2_Forall_r; [exact Hloop|].
    intros idx rows3 (s0 & s2 & Hrows3). by apply sample_rows_columns in Hrows3 as [_ ?].
Qed.

(** Splitting a scenario keeps its probability, for any scenario with
    three demands, not only the eight of the script: the loop does not
    raise, it writes 150 rows under 50 distinct sample ids, all of the
    scenario's disaster type, and the probabilities of the 50 samples
    sum to the probability of the scenario. *)
Theorem scenario_rows_mass sid dtype demands probability s :
  length demands = 3%nat ->
  exists df s',
    scenario_rows (sid, (dtype, demands, probability)) s = Ok (df, s') /\
    length df = 150%nat /\
    length (drop_duplicates (scenario_probs df)) = 50%nat /\
    probability_sum (scenario_probs df) == probability /\
    Forall (fun r => disaster_type r = dtype) df.
Proof.
  intros Hlen.
  assert (length (inject_Z <$> demands) = 3%nat) as Hlen' by by rewrite length_fmap.
  assert (exists df s', scenario_rows (sid, (dtype, demands, probability)) s = Ok (df, s'))
    as (df & s' & Hdf).
  { unfold scenario_rows.
    destruct (sampler_mapM_total
                (sample_rows sid dtype (inject_Z <$> demands) probability)
                (range NUM_CONTINUOUS_SAMPLES_PER_SCENARIO)
                (fun idx s0 _ => sample_rows_total sid dtype _ probability idx s0 Hlen') s)
      as (per_sample & s1 & Hloop).
    do 2 eexists. apply sampler_bind_Ok. exists per_sample, s1.
    split; [exact Hloop | by apply sampler_ret_Ok]. }
  exists df, s'. split; [done|].
  pose proof (scenario_rows_columns _ _ _ _ _ _ _ Hdf) as [_ Htypes].
  apply scenario_rows_Ok in Hdf as [Hkeys _].
  set (keys := (fun idx => (sample_id sid idx, sample_probability probability))
                 <$> range NUM_CONTINUOUS_SAMPLES_PER_SCENARIO).
  assert (expected_scenario (sid, (dtype, demands, probability))
          = keys ≫= replicate 3) as Hexp.
  { unfold expected_scenario, keys.
    induction (range NUM_CONTINUOUS_SAMPLES_PER_SCENARIO) as [|idx l IH]; [done|].
    cbn [mbind list_bind fmap list_fmap]. by rewrite IH. }
  assert (drop_duplicates (scenario_probs df) = keys) as Hdrop.
  { rewrite Hkeys, Hexp. apply (drop_duplicates_repeated 2).
    unfold keys. rewrite <- list_fmap_compose.
    apply NoDup_fmap_2; [|apply NoDup_seq].
    intros i j Hij. by apply sample_id_inj in Hij. }
  split; [|split; [|split; [|done]]].
  - rewrite <- (length_fmap (fun r => (scenario_id r, scenario_probability r))).
    fold (scenario_probs df). rewrite Hkeys, Hexp. reflexivity.
  - rewrite Hdrop. unfold keys. by rewrite length_fmap.
  - unfold probability_sum. rewrite Hdrop. unfold keys.
    rewrite <- list_fmap_compose.
    change (snd ∘ _) with (fun _ : nat => sample_probability probability).
    rewrite np_sum_const. unfold sample_probability.
    change (inject_Z (Z.of_nat (length (range NUM_CONTINUOUS_SAMPLES_PER_SCENARIO))))
      with (inject_Z NUM_CONTINUOUS_SAMPLES_PER_SCENARIO).
    field. discriminate.
Qed.

Lemma hybrid_rows_columns s df s' :
  rows s = Ok (df, s') ->
  hospital_columns <$> df = concat (replicate 400 expected_hospital_columns) /\
  disaster_type <$> df = expected_disaster_types.
Proof.
  unfold rows.
  intros (per_scenario & s1 & Hloop & [<- _]%sampler_ret_Ok)%sampler_bind_Ok.
  apply sampler_mapM_Ok_Forall2 in Hloop. split.
  - rewrite (fmap_concat_Forall2 hospital_columns
               (fun _ => concat (replicate (Z.to_nat NUM_CONTINUOUS_SAMPLES_PER_SCENARIO)
                                   expected_hospital_columns))
               scenarios per_scenario); [reflexivity|].
    eapply Forall2_impl; [exact Hloop|].
    intros [sid [[dtype demands] probability]] rows_s (s0 & s2 & Hrows).
    by apply scenario_rows_columns in Hrows as [? _].
  - unfold expected_disaster_types.
    apply (fmap_concat_Forall2 disaster_type
             (fun sc : string * (string * list Z * Q) =>
                let '(_, (dtype, _, _)) := sc in
                replicate (3 * Z.to_nat NUM_CONTINUOUS_SAMPLES_PER_SCENARIO) dtype)).
    eapply Forall2_impl; [exact Hloop|].
    intros [sid [[dtype demands] probability]] rows_s (s0 & s2 & Hrows).
    pose proof (scenario_rows_columns _ _ _ _ _ _ _ Hrows) as [Hcols Htypes].
    assert (length rows_s = (3 * Z.to_nat NUM_CONTINUOUS_SAMPLES_PER_SCENARIO)%nat) as <-.
    { rewrite <- (length_fmap hospital_columns), Hcols. reflexivity. }
    clear -Htypes. induction Htypes as [|r l Hr _ IH]; [done|].
    cbn [fmap list_fmap length replicate]. by rewrite Hr, IH.
Qed.

(** The frame of the hybrid generator, for any generator: the script
    does not raise (no hospital id is missing from the table and no
    index is out of range); it writes 1200 rows, three per sample,
    cycling through the hospitals in the order of the table with the
    columns of the table; each scenario's disaster type stands on its
    150 consecutive rows; and the id and probability columns are those
    of 50 samples per scenario. *)
Theorem hybrid_rows_layout s :
  exists df s',
    rows s = Ok (df, s') /\
    length df = 1200%nat /\
    hospital_columns <$> df = concat (replicate 400 expected_hospital_columns) /\
    disaster_type <$> df = expected_disaster_types /\
    scenario_probs df = expected_scenario_probs.
Proof.
  destruct (rows_total s) as (df & s' & Hdf). exists df, s'. split; [done|].
  pose proof (hybrid_rows_columns _ _ _ Hdf) as [Hcols Htypes].
  apply hybrid_rows_Ok in Hdf as [Hkeys _].
  split; [|done].
  rewrite <- (length_fmap hospital_columns), Hcols. reflexivity.
Qed.

End Props.

Lemma sample_rows_row_witness :
  exists regional idio s1 s' rows3,
    Sample.multivariate_normal (np_zeros num_hospitals) BASE_COV 0%nat = (regional, s1) /\
    Sample.normal 0.0 5.0 num_hospitals s1 = (idio, s') /\
    sample_rows (H := Sample.generator) "S1" "mild_flood" [60; 45; 35] 0.05 7 0%nat
      = Ok (rows3, s') /\
    length rows3 = 3%nat /\
    forall i, (i < 3)%nat ->
      exists r b reg io hc,
        rows3 !! i = Some r /\
        [60; 45; 35] !! i = Some b /\
        regional !! i = Some reg /\
        idio !! i = Some io /\
        expected_hospital_columns !! i = Some hc /\
        hospital_columns r = hc /\
        scenario_id r = sample_id "S1" 7 /\
        scenario_probability r = sample_probability 0.05 /\
        disaster_type r = "mild_flood"%string /\
        demand r = rint (Qmax (b + reg + io) 0) /\
        regional_component r = np_round reg 2 /\
        idiosyncratic_component r = np_round io 2 /\
        Qmax (b + reg + io) 0 - (1 # 2) <= inject_Z (demand r)
          <= Qmax (b + reg + io) 0 + (1 # 2).
Proof.
  apply (@sample_rows_row Sample.generator "S1" "mild_flood" [60; 45; 35] 0.05 7 0%nat).
  reflexivity.
Defined.

Lemma scenario_rows_mass_witness :
  exists df s',
    scenario_rows (H := Sample.generator) ("X", ("drill", [10; 20; 30]%Z, 0.2)) 0%nat
      = Ok (df, s') /\
    length df = 150%nat /\
    length (drop_duplicates (scenario_probs df)) = 50%nat /\
    probability_sum (scenario_probs df) == 0.2 /\
    Forall (fun r => disaster_type r = "drill"%string) df.
Proof.
  apply (@scenario_rows_mass Sample.generator "X" "drill" [10; 20; 30]%Z 0.2 0%nat).
  reflexivity.
Defined.

End HybridMore.

(** ** From the hybrid generator to the uncertainty sets *)

Module PipelineProps.
Import UncertaintySets UncertaintyProps Pipeline.

Lemma demands_of_read_csv df hid :
  demands_of (read_csv df) hid
  = (fun r => inject_Z (Hybrid.demand r))
      <$> filter (fun r => Hybrid.hospital_id r = hid) df.
Proof.
  unfold demands_of, read_csv. induction df as [|r df IH]; [done|].
  rewrite fmap_cons, !filter_cons. cbn [row_hospital_id].
  destruct (decide (Hybrid.hospital_id r = hid)); [|done].
  rewrite !fmap_cons. cbn [row_demand]. by rewrite IH.
Qed.

Lemma filter_fmap_length {A B} (f : A -> B) (P : B -> Prop)
    `{forall y, Decision (P y)} (l : list A) :
  length (filter (fun x => P (f x)) l) = length (filter P (f <$> l)).
Proof.
  induction l as [|x l IH]; [done|].
  rewrite fmap_cons, !filter_cons. destruct (decide (P (f x))); simpl; by rewrite IH.
Qed.

Lemma foldl_Qmin_ge (c : Q) (t : list Q) (a : Q) :
  c <= a -> Forall (Qle c) t -> c <= foldl Qmin a t.
Proof.
  intros Ha Ht. revert a Ha. induction Ht as [|x t Hx _ IH]; intros a Ha; [done|].
  simpl. apply IH. by apply Q.min_glb.
Qed.

Lemma series_min_nonneg s m : Forall (Qle 0) s -> series_min s = Some m -> 0 <= m.
Proof.
  destruct s as [|x t]; [discriminate|]. intros [Hx Ht]%Forall_cons [= <-].
  by apply foldl_Qmin_ge.
Qed.

Lemma levels_unit alpha : alpha ∈ MINMAX_BOX_LEVELS -> 0 <= alpha <= 1.
Proof.
  unfold MINMAX_BOX_LEVELS. rewrite !elem_of_cons, elem_of_nil.
  intros [->|[->|[->|[]]]]; split; discriminate.
Qed.

Lemma ev_levels_nonneg k : k ∈ EV_BOX_LEVELS -> 0 <= k.
Proof.
  unfold EV_BOX_LEVELS. rewrite !elem_of_cons, elem_of_nil.
  intros [->|[->|[->|[]]]]; discriminate.
Qed.

Section Props.
Context `{NumpyMath} `{Generator}.

(** The two scripts in a row, for any generator: the frame the hybrid
    generator writes has 400 rows for each of the three hospitals, so
    no statistic is NaN and the builder of the uncertainty sets does not
    raise on it; and since these demands are not negative, every
    interval it writes, min-max or EV-centred, has
    0 <= lower_bound <= upper_bound. *)
Theorem hybrid_uncertainty_sets s :
  exists df s' sets,
    Hybrid.rows s = Ok (df, s') /\
    (forall hid, hid ∈ HOSPITALS -> length (demands_of (read_csv df) hid) = 400%nat) /\
    build_uncertainty_sets (read_csv df) = Ok sets /\
    Forall (fun iv => (0 <= lower_bound iv <= upper_bound iv)%Z) sets.
Proof.
  destruct (HybridProps.rows_total s) as (df & s' & Hdf). exists df, s'.
  pose proof (HybridMore.hybrid_rows_columns _ _ _ Hdf) as [Hcols _].
  apply HybridProps.hybrid_rows_Ok in Hdf as Hnonneg. destruct Hnonneg as [_ Hnonneg].
  assert (forall hid, hid ∈ HOSPITALS ->
            length (demands_of (read_csv df) hid) = 400%nat) as Hcount.
  { intros hid Hhid. rewrite demands_of_read_csv, length_fmap.
    etrans; [exact (filter_fmap_length Hybrid.hospital_id (fun x => x = hid) df)|].
    replace (Hybrid.hospital_id <$> df)
      with ((fun c : string * string * Z * Q * Q * Q => c.1.1.1.1.1)
              <$> (Hybrid.hospital_columns <$> df))
      by (by rewrite <- list_fmap_compose).
    rewrite Hcols. unfold HOSPITALS in Hhid.
    rewrite !elem_of_cons, elem_of_nil in Hhid.
    destruct Hhid as [->|[->|[->|[]]]]; vm_compute; reflexivity. }
  destruct (build_uncertainty_sets_succeeds (read_csv df)) as [sets Hsets].
  { intros hid Hhid. rewrite (Hcount hid Hhid). lia. }
  exists sets. split; [done|]. split; [done|]. split; [done|].
  assert (Forall (fun r => 0 <= row_demand r) (read_csv df)) as Hrows.
  { unfold read_csv. apply Forall_fmap. eapply Forall_impl; [exact Hnonneg|].
    intros r Hr. cbn [row_demand compose]. change 0 with (inject_Z 0).
    by rewrite <- Zle_Qle. }
  apply Forall_forall. intros iv Hiv.
  apply (build_uncertainty_sets_elem_of _ _ _ Hsets) in Hiv
    as [(alpha & hid & Halpha & Hhid & Hbox)|(k & hid & Hk & Hhid & Hbox)].
  - apply levels_unit in Halpha as [Ha0 Ha1]. split.
    + apply minmax_box_Ok in Hbox as (dmin & dmax & Hmin & Hmax & ->); [|done].
      cbn [lower_bound]. apply Qfloor_nonneg.
      pose proof (series_min_nonneg _ _ (demands_of_nonneg _ hid Hrows) Hmin) as Hdmin.
      pose proof (series_min_le_max _ _ _ Hmin Hmax) as Hle.
      assert (0 <= (dmax - dmin) * (1 - alpha)) as Hprod
        by (apply Qmult_le_0_compat; lra).
      unfold Qdiv. change (/ 2) with (1 # 2). lra.
    + by eapply minmax_box_ordered.
  - apply ev_levels_nonneg in Hk. split.
    + apply ev_box_Ok in Hbox as (mu & sigma & Hmu & Hsigma & ->); [|done].
      cbn [lower_bound]. apply Qfloor_nonneg.
      destruct (Qle_bool (mu - k * sigma) 0) eqn:Hcmp; [discriminate|].
      destruct (Qlt_le_dec 0 (mu - k * sigma)) as [Hlt|Hle]; [by apply Qlt_le_weak|].
      apply Qle_bool_iff in Hle. congruence.
    + pose proof Hbox as (mu & sigma & Hmu & _)%ev_box_Ok; [|done].
      eapply ev_box_ordered; [exact Hk | exact Hbox | exact Hmu |].
      eapply series_mean_nonneg; [|exact Hmu]. by apply demands_of_nonneg.
Qed.

End Props.
End PipelineProps.
